(** * Kernel threads of the emulator: lifecycle, core placement and
      priority inheritance

    A shallow embedding of [Kernel::Thread] (core/hle/kernel/thread.cpp):
    [Stop], [ThreadWakeupCallback], [GetNextProcessorId], [ResumeFromWait],
    [GetFreeThreadLocalSlot], [Create], [SetPriority], [BoostPriority],
    [AddMutexWaiter], [RemoveMutexWaiter], [UpdatePriority] and [ChangeCore],
    and, after them, [ShouldWait], [Acquire], [GetWaitObjectIndex],
    [GetCurrentThread], [WaitCurrentThread_Sleep] and [ExitCurrentThread].

    Pointers to threads, wait objects and processes are references into
    finite maps held by the kernel state, so that two references to the same
    thread alias the same record.  A function that the C++ code runs to
    completion or aborts in returns a [result]: either the next kernel state or
    the reason of the abort.  Calls into collaborators whose state is kept
    elsewhere (the per-core scheduler, the timing queue, the wait objects, the
    memory manager) are appended, in program order, to the [calls] log of the
    kernel state. *)

From Stdlib Require Import ZArith Lia.
From stdpp Require Import gmap list strings fin_maps.

Local Open Scope Z_scope.

(** ** Machine integers *)

(** Conversion of an unsigned 32-bit value to [s32], as in the assignment
    [ideal_core = core] of [ChangeCore]. *)
Definition to_s32 (z : Z) : Z := (z + 2 ^ 31) mod 2 ^ 32 - 2 ^ 31.

(** Conversion of an [s32] to [u32]. *)
Definition to_u32 (z : Z) : Z := z mod 2 ^ 32.

Definition to_u64 (z : Z) : Z := z mod 2 ^ 64.

(** ** References *)

Abbreviation ThreadRef := nat.
Abbreviation ObjRef := nat.
Abbreviation ProcRef := nat.
Abbreviation CallbackRef := nat.

(** ** Data model *)

Inductive ThreadStatus : Type :=
| Running | Ready | WaitHLEEvent | WaitSleep | WaitIPC | WaitSynchAny
| WaitSynchAll | WaitMutex | WaitArb | Dormant | Dead.

#[global] Instance ThreadStatus_eq_dec : EqDecision ThreadStatus.
Proof. solve_decision. Defined.

Inductive ThreadWakeupReason : Type := Signal | Timeout.

(** The part of [ARM_Interface::ThreadContext] that [ResetThreadContext]
    writes. *)
Record ThreadContext : Type := mkThreadContext {
  cpu_register0 : Z;
  pc : Z;
  sp : Z;
  cpsr : Z;
  fpscr : Z
}.

Record Thread : Type := mkThread {
  thread_id : Z;
  name : string;
  status : ThreadStatus;
  entry_point : Z;
  stack_top : Z;
  tpidr_el0 : Z;
  nominal_priority : Z;
  current_priority : Z;
  last_running_ticks : Z;
  processor_id : Z;
  ideal_core : Z;
  affinity_mask : Z;
  context : ThreadContext;
  tls_address : Z;
  tls_memory : Z;
  wait_objects : list ObjRef;
  wakeup_callback : option CallbackRef;
  lock_owner : option ThreadRef;
  wait_mutex_threads : list ThreadRef;
  mutex_wait_address : Z;
  condvar_wait_address : Z;
  wait_handle : Z;
  arb_wait_address : Z;
  callback_handle : Z;
  owner_process : ProcRef;
  scheduler : Z
}.

Definition set_status (v : ThreadStatus) (th : Thread) : Thread :=
  {| thread_id := thread_id th; name := name th; status := v; entry_point := entry_point th;
     stack_top := stack_top th; tpidr_el0 := tpidr_el0 th;
     nominal_priority := nominal_priority th; current_priority := current_priority th;
     last_running_ticks := last_running_ticks th; processor_id := processor_id th;
     ideal_core := ideal_core th; affinity_mask := affinity_mask th; context := context th;
     tls_address := tls_address th; tls_memory := tls_memory th;
     wait_objects := wait_objects th; wakeup_callback := wakeup_callback th;
     lock_owner := lock_owner th; wait_mutex_threads := wait_mutex_threads th;
     mutex_wait_address := mutex_wait_address th;
     condvar_wait_address := condvar_wait_address th; wait_handle := wait_handle th;
     arb_wait_address := arb_wait_address th; callback_handle := callback_handle th;
     owner_process := owner_process th; scheduler := scheduler th |}.

Definition set_nominal_priority (v : Z) (th : Thread) : Thread :=
  {| thread_id := thread_id th; name := name th; status := status th;
     entry_point := entry_point th; stack_top := stack_top th; tpidr_el0 := tpidr_el0 th;
     nominal_priority := v; current_priority := current_priority th;
     last_running_ticks := last_running_ticks th; processor_id := processor_id th;
     ideal_core := ideal_core th; affinity_mask := affinity_mask th; context := context th;
     tls_address := tls_address th; tls_memory := tls_memory th;
     wait_objects := wait_objects th; wakeup_callback := wakeup_callback th;
     lock_owner := lock_owner th; wait_mutex_threads := wait_mutex_threads th;
     mutex_wait_address := mutex_wait_address th;
     condvar_wait_address := condvar_wait_address th; wait_handle := wait_handle th;
     arb_wait_address := arb_wait_address th; callback_handle := callback_handle th;
     owner_process := owner_process th; scheduler := scheduler th |}.

Definition set_current_priority (v : Z) (th : Thread) : Thread :=
  {| thread_id := thread_id th; name := name th; status := status th;
     entry_point := entry_point th; stack_top := stack_top th; tpidr_el0 := tpidr_el0 th;
     nominal_priority := nominal_priority th; current_priority := v;
     last_running_ticks := last_running_ticks th; processor_id := processor_id th;
     ideal_core := ideal_core th; affinity_mask := affinity_mask th; context := context th;
     tls_address := tls_address th; tls_memory := tls_memory th;
     wait_objects := wait_objects th; wakeup_callback := wakeup_callback th;
     lock_owner := lock_owner th; wait_mutex_threads := wait_mutex_threads th;
     mutex_wait_address := mutex_wait_address th;
     condvar_wait_address := condvar_wait_address th; wait_handle := wait_handle th;
     arb_wait_address := arb_wait_address th; callback_handle := callback_handle th;
     owner_process := owner_process th; scheduler := scheduler th |}.

Definition set_processor_id (v : Z) (th : Thread) : Thread :=
  {| thread_id := thread_id th; name := name th; status := status th;
     entry_point := entry_point th; stack_top := stack_top th; tpidr_el0 := tpidr_el0 th;
     nominal_priority := nominal_priority th; current_priority := current_priority th;
     last_running_ticks := last_running_ticks th; processor_id := v;
     ideal_core := ideal_core th; affinity_mask := affinity_mask th; context := context th;
     tls_address := tls_address th; tls_memory := tls_memory th;
     wait_objects := wait_objects th; wakeup_callback := wakeup_callback th;
     lock_owner := lock_owner th; wait_mutex_threads := wait_mutex_threads th;
     mutex_wait_address := mutex_wait_address th;
     condvar_wait_address := condvar_wait_address th; wait_handle := wait_handle th;
     arb_wait_address := arb_wait_address th; callback_handle := callback_handle th;
     owner_process := owner_process th; scheduler := scheduler th |}.

Definition set_ideal_core (v : Z) (th : Thread) : Thread :=
  {| thread_id := thread_id th; name := name th; status := status th;
     entry_point := entry_point th; stack_top := stack_top th; tpidr_el0 := tpidr_el0 th;
     nominal_priority := nominal_priority th; current_priority := current_priority th;
     last_running_ticks := last_running_ticks th; processor_id := processor_id th;
     ideal_core := v; affinity_mask := affinity_mask th; context := context th;
     tls_address := tls_address th; tls_memory := tls_memory th;
     wait_objects := wait_objects th; wakeup_callback := wakeup_callback th;
     lock_owner := lock_owner th; wait_mutex_threads := wait_mutex_threads th;
     mutex_wait_address := mutex_wait_address th;
     condvar_wait_address := condvar_wait_address th; wait_handle := wait_handle th;
     arb_wait_address := arb_wait_address th; callback_handle := callback_handle th;
     owner_process := owner_process th; scheduler := scheduler th |}.

Definition set_affinity_mask (v : Z) (th : Thread) : Thread :=
  {| thread_id := thread_id th; name := name th; status := status th;
     entry_point := entry_point th; stack_top := stack_top th; tpidr_el0 := tpidr_el0 th;
     nominal_priority := nominal_priority th; current_priority := current_priority th;
     last_running_ticks := last_running_ticks th; processor_id := processor_id th;
     ideal_core := ideal_core th; affinity_mask := v; context := context th;
     tls_address := tls_address th; tls_memory := tls_memory th;
     wait_objects := wait_objects th; wakeup_callback := wakeup_callback th;
     lock_owner := lock_owner th; wait_mutex_threads := wait_mutex_threads th;
     mutex_wait_address := mutex_wait_address th;
     condvar_wait_address := condvar_wait_address th; wait_handle := wait_handle th;
     arb_wait_address := arb_wait_address th; callback_handle := callback_handle th;
     owner_process := owner_process th; scheduler := scheduler th |}.

Definition set_wait_objects (v : list ObjRef) (th : Thread) : Thread :=
  {| thread_id := thread_id th; name := name th; status := status th;
     entry_point := entry_point th; stack_top := stack_top th; tpidr_el0 := tpidr_el0 th;
     nominal_priority := nominal_priority th; current_priority := current_priority th;
     last_running_ticks := last_running_ticks th; processor_id := processor_id th;
     ideal_core := ideal_core th; affinity_mask := affinity_mask th; context := context th;
     tls_address := tls_address th; tls_memory := tls_memory th; wait_objects := v;
     wakeup_callback := wakeup_callback th; lock_owner := lock_owner th;
     wait_mutex_threads := wait_mutex_threads th; mutex_wait_address := mutex_wait_address th;
     condvar_wait_address := condvar_wait_address th; wait_handle := wait_handle th;
     arb_wait_address := arb_wait_address th; callback_handle := callback_handle th;
     owner_process := owner_process th; scheduler := scheduler th |}.

Definition set_wakeup_callback (v : option CallbackRef) (th : Thread) : Thread :=
  {| thread_id := thread_id th; name := name th; status := status th;
     entry_point := entry_point th; stack_top := stack_top th; tpidr_el0 := tpidr_el0 th;
     nominal_priority := nominal_priority th; current_priority := current_priority th;
     last_running_ticks := last_running_ticks th; processor_id := processor_id th;
     ideal_core := ideal_core th; affinity_mask := affinity_mask th; context := context th;
     tls_address := tls_address th; tls_memory := tls_memory th;
     wait_objects := wait_objects th; wakeup_callback := v; lock_owner := lock_owner th;
     wait_mutex_threads := wait_mutex_threads th; mutex_wait_address := mutex_wait_address th;
     condvar_wait_address := condvar_wait_address th; wait_handle := wait_handle th;
     arb_wait_address := arb_wait_address th; callback_handle := callback_handle th;
     owner_process := owner_process th; scheduler := scheduler th |}.

Definition set_lock_owner (v : option ThreadRef) (th : Thread) : Thread :=
  {| thread_id := thread_id th; name := name th; status := status th;
     entry_point := entry_point th; stack_top := stack_top th; tpidr_el0 := tpidr_el0 th;
     nominal_priority := nominal_priority th; current_priority := current_priority th;
     last_running_ticks := last_running_ticks th; processor_id := processor_id th;
     ideal_core := ideal_core th; affinity_mask := affinity_mask th; context := context th;
     tls_address := tls_address th; tls_memory := tls_memory th;
     wait_objects := wait_objects th; wakeup_callback := wakeup_callback th; lock_owner := v;
     wait_mutex_threads := wait_mutex_threads th; mutex_wait_address := mutex_wait_address th;
     condvar_wait_address := condvar_wait_address th; wait_handle := wait_handle th;
     arb_wait_address := arb_wait_address th; callback_handle := callback_handle th;
     owner_process := owner_process th; scheduler := scheduler th |}.

Definition set_wait_mutex_threads (v : list ThreadRef) (th : Thread) : Thread :=
  {| thread_id := thread_id th; name := name th; status := status th;
     entry_point := entry_point th; stack_top := stack_top th; tpidr_el0 := tpidr_el0 th;
     nominal_priority := nominal_priority th; current_priority := current_priority th;
     last_running_ticks := last_running_ticks th; processor_id := processor_id th;
     ideal_core := ideal_core th; affinity_mask := affinity_mask th; context := context th;
     tls_address := tls_address th; tls_memory := tls_memory th;
     wait_objects := wait_objects th; wakeup_callback := wakeup_callback th;
     lock_owner := lock_owner th; wait_mutex_threads := v;
     mutex_wait_address := mutex_wait_address th;
     condvar_wait_address := condvar_wait_address th; wait_handle := wait_handle th;
     arb_wait_address := arb_wait_address th; callback_handle := callback_handle th;
     owner_process := owner_process th; scheduler := scheduler th |}.

Definition set_mutex_wait_address (v : Z) (th : Thread) : Thread :=
  {| thread_id := thread_id th; name := name th; status := status th;
     entry_point := entry_point th; stack_top := stack_top th; tpidr_el0 := tpidr_el0 th;
     nominal_priority := nominal_priority th; current_priority := current_priority th;
     last_running_ticks := last_running_ticks th; processor_id := processor_id th;
     ideal_core := ideal_core th; affinity_mask := affinity_mask th; context := context th;
     tls_address := tls_address th; tls_memory := tls_memory th;
     wait_objects := wait_objects th; wakeup_callback := wakeup_callback th;
     lock_owner := lock_owner th; wait_mutex_threads := wait_mutex_threads th;
     mutex_wait_address := v; condvar_wait_address := condvar_wait_address th;
     wait_handle := wait_handle th; arb_wait_address := arb_wait_address th;
     callback_handle := callback_handle th; owner_process := owner_process th;
     scheduler := scheduler th |}.

Definition set_condvar_wait_address (v : Z) (th : Thread) : Thread :=
  {| thread_id := thread_id th; name := name th; status := status th;
     entry_point := entry_point th; stack_top := stack_top th; tpidr_el0 := tpidr_el0 th;
     nominal_priority := nominal_priority th; current_priority := current_priority th;
     last_running_ticks := last_running_ticks th; processor_id := processor_id th;
     ideal_core := ideal_core th; affinity_mask := affinity_mask th; context := context th;
     tls_address := tls_address th; tls_memory := tls_memory th;
     wait_objects := wait_objects th; wakeup_callback := wakeup_callback th;
     lock_owner := lock_owner th; wait_mutex_threads := wait_mutex_threads th;
     mutex_wait_address := mutex_wait_address th; condvar_wait_address := v;
     wait_handle := wait_handle th; arb_wait_address := arb_wait_address th;
     callback_handle := callback_handle th; owner_process := owner_process th;
     scheduler := scheduler th |}.

Definition set_wait_handle (v : Z) (th : Thread) : Thread :=
  {| thread_id := thread_id th; name := name th; status := status th;
     entry_point := entry_point th; stack_top := stack_top th; tpidr_el0 := tpidr_el0 th;
     nominal_priority := nominal_priority th; current_priority := current_priority th;
     last_running_ticks := last_running_ticks th; processor_id := processor_id th;
     ideal_core := ideal_core th; affinity_mask := affinity_mask th; context := context th;
     tls_address := tls_address th; tls_memory := tls_memory th;
     wait_objects := wait_objects th; wakeup_callback := wakeup_callback th;
     lock_owner := lock_owner th; wait_mutex_threads := wait_mutex_threads th;
     mutex_wait_address := mutex_wait_address th;
     condvar_wait_address := condvar_wait_address th; wait_handle := v;
     arb_wait_address := arb_wait_address th; callback_handle := callback_handle th;
     owner_process := owner_process th; scheduler := scheduler th |}.

Definition set_arb_wait_address (v : Z) (th : Thread) : Thread :=
  {| thread_id := thread_id th; name := name th; status := status th;
     entry_point := entry_point th; stack_top := stack_top th; tpidr_el0 := tpidr_el0 th;
     nominal_priority := nominal_priority th; current_priority := current_priority th;
     last_running_ticks := last_running_ticks th; processor_id := processor_id th;
     ideal_core := ideal_core th; affinity_mask := affinity_mask th; context := context th;
     tls_address := tls_address th; tls_memory := tls_memory th;
     wait_objects := wait_objects th; wakeup_callback := wakeup_callback th;
     lock_owner := lock_owner th; wait_mutex_threads := wait_mutex_threads th;
     mutex_wait_address := mutex_wait_address th;
     condvar_wait_address := condvar_wait_address th; wait_handle := wait_handle th;
     arb_wait_address := v; callback_handle := callback_handle th;
     owner_process := owner_process th; scheduler := scheduler th |}.

Definition set_callback_handle (v : Z) (th : Thread) : Thread :=
  {| thread_id := thread_id th; name := name th; status := status th;
     entry_point := entry_point th; stack_top := stack_top th; tpidr_el0 := tpidr_el0 th;
     nominal_priority := nominal_priority th; current_priority := current_priority th;
     last_running_ticks := last_running_ticks th; processor_id := processor_id th;
     ideal_core := ideal_core th; affinity_mask := affinity_mask th; context := context th;
     tls_address := tls_address th; tls_memory := tls_memory th;
     wait_objects := wait_objects th; wakeup_callback := wakeup_callback th;
     lock_owner := lock_owner th; wait_mutex_threads := wait_mutex_threads th;
     mutex_wait_address := mutex_wait_address th;
     condvar_wait_address := condvar_wait_address th; wait_handle := wait_handle th;
     arb_wait_address := arb_wait_address th; callback_handle := v;
     owner_process := owner_process th; scheduler := scheduler th |}.

Definition set_scheduler (v : Z) (th : Thread) : Thread :=
  {| thread_id := thread_id th; name := name th; status := status th;
     entry_point := entry_point th; stack_top := stack_top th; tpidr_el0 := tpidr_el0 th;
     nominal_priority := nominal_priority th; current_priority := current_priority th;
     last_running_ticks := last_running_ticks th; processor_id := processor_id th;
     ideal_core := ideal_core th; affinity_mask := affinity_mask th; context := context th;
     tls_address := tls_address th; tls_memory := tls_memory th;
     wait_objects := wait_objects th; wakeup_callback := wakeup_callback th;
     lock_owner := lock_owner th; wait_mutex_threads := wait_mutex_threads th;
     mutex_wait_address := mutex_wait_address th;
     condvar_wait_address := condvar_wait_address th; wait_handle := wait_handle th;
     arb_wait_address := arb_wait_address th; callback_handle := callback_handle th;
     owner_process := owner_process th; scheduler := v |}.
(** Result codes of kernel calls ([ResultCode]); the named codes are those of
    core/hle/kernel/errors.h. *)
Inductive ResultCode : Type :=
| ERR_OUT_OF_RANGE
| ERR_OUT_OF_RANGE_KERNEL
| ResultCode_raw (raw : Z).

(** [ResultVal<SharedPtr<Thread>>] *)
Inductive ResultVal : Type :=
| Succeeded (thread : ThreadRef)
| Failed (code : ResultCode).

(** Calls into collaborators, in the order the code makes them.  The scheduler
    of core [core] is the receiver of the [Scheduler_] calls. *)
Inductive Call : Type :=
| CoreTiming_UnscheduleEvent (handle : Z)
| Scheduler_AddThread (core : Z) (thread : ThreadRef) (priority : Z)
| Scheduler_RemoveThread (core : Z) (thread : ThreadRef)
| Scheduler_ScheduleThread (core : Z) (thread : ThreadRef) (priority : Z)
| Scheduler_UnscheduleThread (core : Z) (thread : ThreadRef) (priority : Z)
| Scheduler_SetThreadPriority (core : Z) (thread : ThreadRef) (priority : Z)
| Cpu_PrepareReschedule (core : Z)
| WaitObject_RemoveWaitingThread (object : ObjRef) (thread : ThreadRef)
| VMManager_RefreshMemoryBlockMappings (thread : ThreadRef)
| VMManager_MapMemoryBlock (process : ProcRef) (target : Z) (thread : ThreadRef)
    (offset size : Z).

Record Kernel : Type := mkKernel {
  (** every live [Thread] object *)
  threads : gmap nat Thread;
  (** [cpu_cores] of [Core::System]: for each core, the thread its scheduler
      is running ([Scheduler(i)->GetCurrentThread()]) *)
  cpu_cores : list (option ThreadRef);
  wakeup_callback_handle_table : gmap Z ThreadRef;
  next_thread_id : Z;
  (** [Process::tls_slots] of each process: a vector of [std::bitset<8>] *)
  tls_slots : gmap nat (list Z);
  (** [Core::CurrentProcess()] *)
  current_process : ProcRef;
  (** [CoreTiming::GetTicks()] *)
  ticks : Z;
  calls : list Call
}.

Definition set_threads (v : gmap nat Thread) (k : Kernel) : Kernel :=
  {| threads := v; cpu_cores := cpu_cores k;
     wakeup_callback_handle_table := wakeup_callback_handle_table k;
     next_thread_id := next_thread_id k; tls_slots := tls_slots k;
     current_process := current_process k; ticks := ticks k; calls := calls k |}.

Definition set_wakeup_callback_handle_table (v : gmap Z ThreadRef) (k : Kernel) : Kernel :=
  {| threads := threads k; cpu_cores := cpu_cores k;
     wakeup_callback_handle_table := v;
     next_thread_id := next_thread_id k; tls_slots := tls_slots k;
     current_process := current_process k; ticks := ticks k; calls := calls k |}.

Definition set_next_thread_id (v : Z) (k : Kernel) : Kernel :=
  {| threads := threads k; cpu_cores := cpu_cores k;
     wakeup_callback_handle_table := wakeup_callback_handle_table k;
     next_thread_id := v; tls_slots := tls_slots k;
     current_process := current_process k; ticks := ticks k; calls := calls k |}.

Definition set_tls_slots (v : gmap nat (list Z)) (k : Kernel) : Kernel :=
  {| threads := threads k; cpu_cores := cpu_cores k;
     wakeup_callback_handle_table := wakeup_callback_handle_table k;
     next_thread_id := next_thread_id k; tls_slots := v;
     current_process := current_process k; ticks := ticks k; calls := calls k |}.

Definition set_calls (v : list Call) (k : Kernel) : Kernel :=
  {| threads := threads k; cpu_cores := cpu_cores k;
     wakeup_callback_handle_table := wakeup_callback_handle_table k;
     next_thread_id := next_thread_id k; tls_slots := tls_slots k;
     current_process := current_process k; ticks := ticks k; calls := v |}.

(** ** Outcomes *)

Inductive Abort : Type :=
| AssertionFailed (what : string)
  (** an [ASSERT], or a [DEBUG_ASSERT] of a build that keeps them *)
| InvalidAccess (what : string)
  (** an access the C++ code leaves undefined or throws on: a reference that
      is not in the store, an index outside an array or a bitset *)
| OutOfFuel.

Inductive result (A : Type) : Type :=
| Ok (a : A)
| Aborted (why : Abort).
Arguments Ok {A} a.
Arguments Aborted {A} why.

#[global] Instance result_ret : MRet result := fun A a => Ok a.
#[global] Instance result_bind : MBind result := fun A B f m =>
  match m with
  | Ok a => f a
  | Aborted why => Aborted why
  end.

Definition ASSERT (cond : bool) (what : string) : result unit :=
  if cond then Ok tt else Aborted (AssertionFailed what).

(** ** What the code takes from headers and collaborators outside this file *)

Record Env : Type := mkEnv {
  (** core/hle/kernel/thread.h *)
  THREADPRIO_HIGHEST : Z;
  THREADPRIO_LOWEST : Z;
  THREADPROCESSORID_MAX : Z;
  (** core/memory.h *)
  TLS_AREA_VADDR : Z;
  PAGE_SIZE : Z;
  TLS_ENTRY_SIZE : Z;
  (** common/assert.h: whether [DEBUG_ASSERT] and [DEBUG_ASSERT_MSG] are
      compiled in *)
  debug_asserts : bool;
  (** [Memory::IsValidVirtualAddress(process, vaddr)] *)
  IsValidVirtualAddress : ProcRef -> Z -> bool;
  (** [HandleTable::Create(thread).Unwrap()] on the wakeup-callback table *)
  HandleTable_Create : gmap Z ThreadRef -> ThreadRef -> result (Z * gmap Z ThreadRef);
  (** [WaitObject::WakeupAllWaitingThreads()] of a thread taken as a wait
      object *)
  WakeupAllWaitingThreads : ThreadRef -> Kernel -> result Kernel;
  (** a call of the [std::function] stored in [wakeup_callback] *)
  invoke_wakeup_callback :
    CallbackRef -> ThreadWakeupReason -> ThreadRef -> option ObjRef -> Z ->
    Kernel -> result (bool * Kernel)
}.

(** ** Access to the kernel state *)

Definition thread_at (k : Kernel) (t : ThreadRef) : result Thread :=
  match threads k !! t with
  | Some th => Ok th
  | None => Aborted (InvalidAccess "thread")
  end.

(** An assignment to a member of the thread [t] refers to: every other
    reference to [t] sees it. *)
Definition assign (t : ThreadRef) (f : Thread -> Thread) (k : Kernel) : Kernel :=
  set_threads (alter f t (threads k)) k.

Definition call (c : Call) (k : Kernel) : Kernel :=
  set_calls (calls k ++ [c]) k.

(** [NUM_CPU_CORES] is the length of the [cpu_cores] array. *)
Definition NUM_CPU_CORES (k : Kernel) : Z := Z.of_nat (length (cpu_cores k)).

(** [Core::System::Scheduler(core_index)]: the scheduler of a core, named by
    the index of the core.  The parameter is a [size_t]; an index that is not
    one of the array aborts. *)
Definition Scheduler (k : Kernel) (core_index : Z) : result Z :=
  if (0 <=? core_index) && (core_index <? NUM_CPU_CORES k)
  then Ok core_index
  else Aborted (InvalidAccess "Scheduler(core_index)").

(** [Scheduler(core_index)->GetCurrentThread()] *)
Definition Scheduler_GetCurrentThread (k : Kernel) (core_index : Z)
  : result (option ThreadRef) :=
  s ← Scheduler k core_index;
  match cpu_cores k !! Z.to_nat s with
  | Some current => Ok current
  | None => Aborted (InvalidAccess "Scheduler(core_index)")
  end.

(** [std::bitset<8>] as the integer of its bits *)
Definition bitset_all (b : Z) : bool := Z.land b 255 =? 255.
Definition bitset_test (b : Z) (pos : Z) : bool := Z.testbit b pos.
Definition bitset_set (b : Z) (pos : Z) : Z := Z.setbit b pos.
Definition bitset_reset (b : Z) (pos : Z) : Z := Z.clearbit b pos.

Definition is_waiting (s : ThreadStatus) : bool :=
  match s with
  | WaitSynchAll | WaitSynchAny | WaitHLEEvent | WaitSleep | WaitIPC
  | WaitMutex | WaitArb => true
  | _ => false
  end.

Section Thread.

Variable E : Env.

(** [DEBUG_ASSERT] and [DEBUG_ASSERT_MSG]: an [ASSERT] in a build that keeps
    debug assertions, nothing otherwise. *)
Definition DEBUG_ASSERT (cond : bool) (what : string) : result unit :=
  if debug_asserts E then ASSERT cond what else Ok tt.

(** ** Priority inheritance *)

(** The loop of [UpdatePriority] over [wait_mutex_threads]. *)
Fixpoint highest_waiter_priority (k : Kernel) (new_priority : Z)
    (waiters : list ThreadRef) : result Z :=
  match waiters with
  | [] => Ok new_priority
  | thread :: rest =>
      wt ← thread_at k thread;
      highest_waiter_priority k
        (if nominal_priority wt <? new_priority then nominal_priority wt
         else new_priority) rest
  end.

Fixpoint UpdatePriority_fuel (fuel : nat) (k : Kernel) (this : ThreadRef)
  : result Kernel :=
  match fuel with
  | O => Aborted OutOfFuel
  | S fuel =>
      th ← thread_at k this;
      (* Find the highest priority among all the threads that are waiting for
         this thread's lock *)
      new_priority ←
        highest_waiter_priority k (nominal_priority th) (wait_mutex_threads th);
      if new_priority =? current_priority th then Ok k
      else
        let k := call (Scheduler_SetThreadPriority (scheduler th) this new_priority) k in
        let k := assign this (set_current_priority new_priority) k in
        (* Recursively update the priority of the thread that depends on the
           priority of this one. *)
        match lock_owner th with
        | Some owner => UpdatePriority_fuel fuel k owner
        | None => Ok k
        end
  end.

(** The recursion visits a thread a second time only to find its priority up
    to date, so one more step than there are threads is enough
    ([UpdatePriority_terminates]). *)
Definition UpdatePriority (k : Kernel) (this : ThreadRef) : result Kernel :=
  UpdatePriority_fuel (S (size (threads k))) k this.

Definition SetPriority (k : Kernel) (this : ThreadRef) (priority : Z)
  : result Kernel :=
  _ ← ASSERT ((priority <=? THREADPRIO_LOWEST E) && (THREADPRIO_HIGHEST E <=? priority))
        "Invalid priority value.";
  _ ← thread_at k this;
  let k := assign this (set_nominal_priority priority) k in
  UpdatePriority k this.

Definition BoostPriority (k : Kernel) (this : ThreadRef) (priority : Z)
  : result Kernel :=
  th ← thread_at k this;
  let k := call (Scheduler_SetThreadPriority (scheduler th) this priority) k in
  Ok (assign this (set_current_priority priority) k).

Definition AddMutexWaiter (k : Kernel) (this thread : ThreadRef) : result Kernel :=
  me ← thread_at k this;
  th ← thread_at k thread;
  if decide (lock_owner th = Some this) then
    (* If the thread is already waiting for this thread to release the mutex,
       ensure that the waiters list is consistent and return without doing
       anything. *)
    _ ← ASSERT (bool_decide (thread ∈ wait_mutex_threads me))
          "itr != wait_mutex_threads.end()";
    Ok k
  else
    (* A thread can't wait on two different mutexes at the same time. *)
    _ ← ASSERT (bool_decide (lock_owner th = None)) "thread->lock_owner == nullptr";
    (* Ensure that the thread is not already in the list of mutex waiters *)
    _ ← ASSERT (bool_decide (thread ∉ wait_mutex_threads me))
          "itr == wait_mutex_threads.end()";
    let k := assign thread (set_lock_owner (Some this)) k in
    let k := assign this (fun me => set_wait_mutex_threads (wait_mutex_threads me ++ [thread]) me) k in
    UpdatePriority k this.

Definition RemoveMutexWaiter (k : Kernel) (this thread : ThreadRef) : result Kernel :=
  me ← thread_at k this;
  th ← thread_at k thread;
  _ ← ASSERT (bool_decide (lock_owner th = Some this)) "thread->lock_owner == this";
  (* Ensure that the thread is in the list of mutex waiters *)
  _ ← ASSERT (bool_decide (thread ∈ wait_mutex_threads me))
        "itr != wait_mutex_threads.end()";
  let k := assign this (fun me =>
             set_wait_mutex_threads (filter (fun w => w ≠ thread) (wait_mutex_threads me)) me) k in
  let k := assign thread (set_lock_owner None) k in
  UpdatePriority k this.

(** ** Core placement *)

(** The loop of [GetNextProcessorId], with [n] cores left to look at from
    [index] on. *)
Fixpoint GetNextProcessorId_loop (k : Kernel) (mask : Z) (n : nat) (index : Z)
  : result (option Z) :=
  match n with
  | O => Ok None
  | S n =>
      if negb (Z.land mask (to_u64 (Z.shiftl 1 index)) =? 0) then
        current ← Scheduler_GetCurrentThread k index;
        match current with
        | None =>
            (* Core is enabled and not running any threads, use this one *)
            Ok (Some index)
        | Some _ => GetNextProcessorId_loop k mask n (index + 1)
        end
      else GetNextProcessorId_loop k mask n (index + 1)
  end.

Definition GetNextProcessorId (k : Kernel) (mask : Z) : result (option Z) :=
  GetNextProcessorId_loop k mask (length (cpu_cores k)) 0.

Definition ResumeFromWait (k : Kernel) (this : ThreadRef) : result Kernel :=
  th ← thread_at k this;
  _ ← ASSERT (bool_decide (wait_objects th = []))
        "Thread is waking up while waiting for objects";
  match status th with
  | Ready =>
      (* The thread's wakeup callback must have already been cleared when the
         thread was first awoken. *)
      _ ← ASSERT (bool_decide (wakeup_callback th = None)) "wakeup_callback == nullptr";
      (* If the thread is waiting on multiple wait objects, it might be awoken
         more than once before actually resuming. *)
      Ok k
  | Running =>
      _ ← DEBUG_ASSERT false "Thread has already resumed.";
      Ok k
  | Dead =>
      (* This should never happen, as threads must complete before being
         stopped. *)
      _ ← DEBUG_ASSERT false "Thread cannot be resumed because it's DEAD.";
      Ok k
  | WaitSynchAll | WaitSynchAny | WaitHLEEvent | WaitSleep | WaitIPC
  | WaitMutex | WaitArb
  | Dormant (* no case of the switch: control leaves it *) =>
      let k := assign this (set_wakeup_callback None) k in
      let k := assign this (set_status Ready) k in
      free ← GetNextProcessorId k (affinity_mask th);
      let new_processor_id :=
        match free with
        | Some index => index
        | None => processor_id th
        end in
      new_processor_id ←
        (if negb (ideal_core th =? -1) then
           current ← Scheduler_GetCurrentThread k (ideal_core th);
           Ok (if current is None then ideal_core th else new_processor_id)
         else Ok new_processor_id);
      _ ← ASSERT (new_processor_id <? 4) "*new_processor_id < 4";
      (* Add thread to new core's scheduler *)
      next_scheduler ← Scheduler k new_processor_id;
      let k :=
        if negb (new_processor_id =? processor_id th) then
          (* Remove thread from previous core's scheduler *)
          let k := call (Scheduler_RemoveThread (scheduler th) this) k in
          call (Scheduler_AddThread next_scheduler this (current_priority th)) k
        else k in
      let k := assign this (set_processor_id new_processor_id) k in
      (* If the thread was ready, unschedule from the previous core and
         schedule on the new core *)
      let k := call (Scheduler_UnscheduleThread (scheduler th) this (current_priority th)) k in
      let k := call (Scheduler_ScheduleThread next_scheduler this (current_priority th)) k in
      (* Change thread's scheduler *)
      let k := assign this (set_scheduler next_scheduler) k in
      Ok (call (Cpu_PrepareReschedule new_processor_id) k)
  end.

Definition ChangeCore (k : Kernel) (this : ThreadRef) (core : Z) (mask : Z)
  : result Kernel :=
  _ ← thread_at k this;
  let k := assign this (set_ideal_core (to_s32 core)) k in
  let k := assign this (set_affinity_mask mask) k in
  th ← thread_at k this;
  if negb (bool_decide (status th = Ready)) then Ok k
  else
    free ← GetNextProcessorId k (affinity_mask th);
    let new_processor_id := default (processor_id th) free in
    new_processor_id ←
      (if negb (ideal_core th =? -1) then
         current ← Scheduler_GetCurrentThread k (ideal_core th);
         Ok (if current is None then ideal_core th else new_processor_id)
       else Ok new_processor_id);
    _ ← ASSERT (new_processor_id <? 4) "*new_processor_id < 4";
    (* Add thread to new core's scheduler *)
    next_scheduler ← Scheduler k new_processor_id;
    let k :=
      if negb (new_processor_id =? processor_id th) then
        (* Remove thread from previous core's scheduler *)
        let k := call (Scheduler_RemoveThread (scheduler th) this) k in
        call (Scheduler_AddThread next_scheduler this (current_priority th)) k
      else k in
    let k := assign this (set_processor_id new_processor_id) k in
    (* If the thread was ready, unschedule from the previous core and schedule
       on the new core *)
    let k := call (Scheduler_UnscheduleThread (scheduler th) this (current_priority th)) k in
    let k := call (Scheduler_ScheduleThread next_scheduler this (current_priority th)) k in
    (* Change thread's scheduler *)
    let k := assign this (set_scheduler next_scheduler) k in
    Ok (call (Cpu_PrepareReschedule new_processor_id) k).

(** ** Termination of a thread *)

Definition Stop (k : Kernel) (this : ThreadRef) : result Kernel :=
  th ← thread_at k this;
  (* Cancel any outstanding wakeup events for this thread *)
  let k := call (CoreTiming_UnscheduleEvent (callback_handle th)) k in
  let k := set_wakeup_callback_handle_table
             (delete (callback_handle th) (wakeup_callback_handle_table k)) k in
  let k := assign this (set_callback_handle 0) k in
  (* Clean up thread from ready queue *)
  let k :=
    if bool_decide (status th = Ready)
    then call (Scheduler_UnscheduleThread (scheduler th) this (current_priority th)) k
    else k in
  let k := assign this (set_status Dead) k in
  k ← WakeupAllWaitingThreads E this k;
  (* Clean up any dangling references in objects that this thread was waiting
     for *)
  th ← thread_at k this;
  let k := foldl (fun k wait_object => call (WaitObject_RemoveWaitingThread wait_object this) k)
             k (wait_objects th) in
  let k := assign this (set_wait_objects []) k in
  (* Mark the TLS slot in the thread's page as free. *)
  let tls_page := to_u64 (tls_address th - TLS_AREA_VADDR E) / PAGE_SIZE E in
  let tls_slot :=
    (to_u64 (tls_address th - TLS_AREA_VADDR E) mod PAGE_SIZE E) / TLS_ENTRY_SIZE E in
  match tls_slots k !! current_process k with
  | None => Aborted (InvalidAccess "Core::CurrentProcess()")
  | Some pages =>
      match pages !! Z.to_nat tls_page with
      | None => Aborted (InvalidAccess "tls_slots[tls_page]")
      | Some page =>
          if 8 <=? tls_slot then Aborted (InvalidAccess "bitset::reset")
          else
            Ok (set_tls_slots
                  (<[current_process k :=
                       <[Z.to_nat tls_page := bitset_reset page tls_slot]> pages]>
                     (tls_slots k)) k)
      end
  end.

(** ** Timed wakeup *)

Definition ThreadWakeupCallback (k : Kernel) (thread_handle : Z) (cycles_late : Z)
  : result Kernel :=
  let proper_handle := to_u32 thread_handle in
  match wakeup_callback_handle_table k !! proper_handle with
  | None => Ok k (* Callback fired for invalid thread *)
  | Some thread =>
      th ← thread_at k thread;
      '(resume, k) ←
        (if bool_decide (status th = WaitSynchAny) || bool_decide (status th = WaitSynchAll)
            || bool_decide (status th = WaitHLEEvent) then
           (* Remove the thread from each of its waiting objects' waitlists *)
           let k := foldl (fun k object => call (WaitObject_RemoveWaitingThread object thread) k)
                      k (wait_objects th) in
           let k := assign thread (set_wait_objects []) k in
           (* Invoke the wakeup callback before clearing the wait objects *)
           match wakeup_callback th with
           | Some callback => invoke_wakeup_callback E callback Timeout thread None 0 k
           | None => Ok (true, k)
           end
         else Ok (true, k));
      th ← thread_at k thread;
      k ←
        (if negb (mutex_wait_address th =? 0) || negb (condvar_wait_address th =? 0)
            || negb (wait_handle th =? 0) then
           _ ← ASSERT (bool_decide (status th = WaitMutex))
                 "thread->status == ThreadStatus::WaitMutex";
           let k := assign thread (set_mutex_wait_address 0) k in
           let k := assign thread (set_condvar_wait_address 0) k in
           let k := assign thread (set_wait_handle 0) k in
           match lock_owner th with
           | Some lock_owner => RemoveMutexWaiter k lock_owner thread
           | None => Ok k
           end
         else Ok k);
      th ← thread_at k thread;
      k ←
        (if negb (arb_wait_address th =? 0) then
           _ ← ASSERT (bool_decide (status th = WaitArb))
                 "thread->status == ThreadStatus::WaitArb";
           Ok (assign thread (set_arb_wait_address 0) k)
         else Ok k);
      if (resume : bool) then ResumeFromWait k thread else Ok k
  end.

(** ** Creation of a thread *)

(** The inner loop of [GetFreeThreadLocalSlot]: the first slot from [slot] on,
    among [n], that is free in the page. *)
Fixpoint first_free_slot (page_tls_slots : Z) (n : nat) (slot : Z) : option Z :=
  match n with
  | O => None
  | S n =>
      if negb (bitset_test page_tls_slots slot) then Some slot
      else first_free_slot page_tls_slots n (slot + 1)
  end.

(** The outer loop, over the pages from index [page] on. *)
Fixpoint GetFreeThreadLocalSlot_loop (tls_slots : list Z) (page : Z) : Z * Z * bool :=
  match tls_slots with
  | [] => (0, 0, true)
  | page_tls_slots :: rest =>
      if negb (bitset_all page_tls_slots) then
        (* We found a page with at least one free slot, find which slot it is *)
        match first_free_slot page_tls_slots 8 0 with
        | Some slot => (page, slot, false)
        | None => GetFreeThreadLocalSlot_loop rest (page + 1)
        end
      else GetFreeThreadLocalSlot_loop rest (page + 1)
  end.

Definition GetFreeThreadLocalSlot (tls_slots : list Z) : Z * Z * bool :=
  GetFreeThreadLocalSlot_loop tls_slots 0.

Definition ResetThreadContext (stack_top entry_point arg : Z) : ThreadContext :=
  {| cpu_register0 := arg; pc := entry_point; sp := stack_top; cpsr := 0; fpscr := 0 |}.

Definition Create (k : Kernel) (name : string) (entry_point priority arg processor_id
    stack_top : Z) (owner_process : ProcRef) : result (ResultVal * Kernel) :=
  (* Check if priority is in ranged. Lowest priority -> highest priority id. *)
  if THREADPRIO_LOWEST E <? priority then Ok (Failed ERR_OUT_OF_RANGE, k)
  else if THREADPROCESSORID_MAX E <? processor_id then Ok (Failed ERR_OUT_OF_RANGE_KERNEL, k)
  else if negb (IsValidVirtualAddress E owner_process entry_point)
  then Ok (Failed (ResultCode_raw (-1)), k)
  else
    let thread : ThreadRef := fresh (dom (threads k)) in
    let thread_id := next_thread_id k in
    let k := set_next_thread_id (to_u32 (next_thread_id k + 1)) k in
    '(handle, table) ← HandleTable_Create E (wakeup_callback_handle_table k) thread;
    let k := set_wakeup_callback_handle_table table k in
    scheduler ← Scheduler k processor_id;
    let k := call (Scheduler_AddThread scheduler thread priority) k in
    (* Find the next available TLS index, and mark it as used *)
    match tls_slots k !! owner_process with
    | None => Aborted (InvalidAccess "owner_process")
    | Some slots =>
        let '(available_page, available_slot, needs_allocation) :=
          GetFreeThreadLocalSlot slots in
        let '(slots, available_page, available_slot, tls_memory, k) :=
          if needs_allocation then
            (* The page is completely available at the start *)
            let slots := slots ++ [0] in
            let k := call (VMManager_RefreshMemoryBlockMappings thread) k in
            let k := call (VMManager_MapMemoryBlock owner_process
                             (to_u64 (TLS_AREA_VADDR E
                                      + (Z.of_nat (length slots) - 1) * PAGE_SIZE E))
                             thread 0 (PAGE_SIZE E)) k in
            (slots, Z.of_nat (length slots) - 1, 0, PAGE_SIZE E, k)
          else (slots, available_page, available_slot, 0, k) in
        (* Mark the slot as used *)
        match slots !! Z.to_nat available_page with
        | None => Aborted (InvalidAccess "tls_slots[available_page]")
        | Some page =>
            let slots := <[Z.to_nat available_page := bitset_set page available_slot]> slots in
            let k := set_tls_slots (<[owner_process := slots]> (tls_slots k)) k in
            let th :=
              {| thread_id := thread_id; name := name; status := Dormant;
                 entry_point := entry_point; stack_top := stack_top; tpidr_el0 := 0;
                 nominal_priority := priority; current_priority := priority;
                 last_running_ticks := ticks k; processor_id := processor_id;
                 ideal_core := processor_id;
                 affinity_mask := to_u64 (Z.shiftl 1 processor_id);
                 context := ResetThreadContext stack_top entry_point arg;
                 tls_address :=
                   to_u64 (TLS_AREA_VADDR E + available_page * PAGE_SIZE E
                           + available_slot * TLS_ENTRY_SIZE E);
                 tls_memory := tls_memory; wait_objects := [];
                 wakeup_callback := None; lock_owner := None; wait_mutex_threads := [];
                 mutex_wait_address := 0; condvar_wait_address := 0; wait_handle := 0;
                 arb_wait_address := 0; callback_handle := handle;
                 owner_process := owner_process; scheduler := scheduler |} in
            Ok (Succeeded thread, set_threads (<[thread := th]> (threads k)) k)
        end
    end.

End Thread.

(** * Specification-level definitions *)

(** ** The priority a thread inherits *)

(** The nominal priorities of the threads a list of references names. *)
Definition nominal_priorities (k : Kernel) (waiters : list ThreadRef) : list Z :=
  omap (fun w => nominal_priority <$> threads k !! w) waiters.

(** The effective priority in the words of the specification: the minimum of
    the nominal priority and of the nominal priorities of the waiters. *)
Definition effective_priority (k : Kernel) (th : Thread) : Z :=
  foldr Z.min (nominal_priority th) (nominal_priorities k (wait_mutex_threads th)).

(** Every reference held by a thread names a thread of the store, as a
    [SharedPtr] does. *)
Definition refs_closed (k : Kernel) : Prop :=
  map_Forall (fun _ th =>
    Forall (fun w => is_Some (threads k !! w)) (wait_mutex_threads th) ∧
    Forall (fun owner => is_Some (threads k !! owner)) (option_list (lock_owner th)))
    (threads k).

#[global] Instance refs_closed_dec k : Decision (refs_closed k).
Proof. unfold refs_closed. apply _. Defined.

(** A thread is stale when [UpdatePriority] would change its priority. *)
Definition stale (k : Kernel) (th : Thread) : bool :=
  match highest_waiter_priority k (nominal_priority th) (wait_mutex_threads th) with
  | Ok p => negb (p =? current_priority th)
  | Aborted _ => false
  end.

Definition stale_threads (k : Kernel) : gmap nat Thread :=
  filter (fun e => stale k e.2 = true) (threads k).

(** The state after the two assignments of [UpdatePriority]. *)
Definition reprioritized (k : Kernel) (this : ThreadRef) (th : Thread) (p : Z) : Kernel :=
  assign this (set_current_priority p)
    (call (Scheduler_SetThreadPriority (scheduler th) this p) k).

(** What [UpdatePriority] may do to a thread [th] of the state [k]: nothing,
    or set its current priority to the one it inherits in [k]. *)
Definition priority_settled (k : Kernel) (th th' : Thread) : Prop :=
  th' = th ∨
  ∃ p, highest_waiter_priority k (nominal_priority th) (wait_mutex_threads th) = Ok p ∧
       th' = set_current_priority p th.


(** ** The priority bound *)

(** No thread runs at a priority numerically above its nominal one. *)
Definition priorities_bounded (k : Kernel) : Prop :=
  map_Forall (fun _ th => current_priority th <= nominal_priority th) (threads k).

#[global] Instance priorities_bounded_dec k : Decision (priorities_bounded k).
Proof. unfold priorities_bounded. apply _. Defined.

(** The operations that keep the priority bookkeeping. *)
Inductive PriorityOp : Type :=
| OpSetPriority (this : ThreadRef) (priority : Z)
| OpAddMutexWaiter (this thread : ThreadRef)
| OpRemoveMutexWaiter (this thread : ThreadRef)
| OpUpdatePriority (this : ThreadRef).

Definition run_priority_op (E : Env) (k : Kernel) (op : PriorityOp) : result Kernel :=
  match op with
  | OpSetPriority this priority => SetPriority E k this priority
  | OpAddMutexWaiter this thread => AddMutexWaiter k this thread
  | OpRemoveMutexWaiter this thread => RemoveMutexWaiter k this thread
  | OpUpdatePriority this => UpdatePriority k this
  end.

(** ** Timed wakeup, phase by phase *)

(** The state [ThreadWakeupCallback] hands to the wakeup callback of a thread
    that waits on synchronization objects. *)
Definition deregistered (k : Kernel) (thread : ThreadRef) (th : Thread) : Kernel :=
  assign thread (set_wait_objects [])
    (foldl (fun k object => call (WaitObject_RemoveWaitingThread object thread) k)
       k (wait_objects th)).

(** What [ThreadWakeupCallback] does between the wakeup callback and the
    decision to resume: the mutex, condition-variable and arbitration waits of
    the thread are cleared. *)
Definition clear_address_waits (k : Kernel) (thread : ThreadRef) : result Kernel :=
  th ← thread_at k thread;
  k ←
    (if negb (mutex_wait_address th =? 0) || negb (condvar_wait_address th =? 0)
        || negb (wait_handle th =? 0) then
       _ ← ASSERT (bool_decide (status th = WaitMutex))
             "thread->status == ThreadStatus::WaitMutex";
       let k := assign thread (set_mutex_wait_address 0) k in
       let k := assign thread (set_condvar_wait_address 0) k in
       let k := assign thread (set_wait_handle 0) k in
       match lock_owner th with
       | Some lock_owner => RemoveMutexWaiter k lock_owner thread
       | None => Ok k
       end
     else Ok k);
  th ← thread_at k thread;
  if negb (arb_wait_address th =? 0) then
    _ ← ASSERT (bool_decide (status th = WaitArb))
          "thread->status == ThreadStatus::WaitArb";
    Ok (assign thread (set_arb_wait_address 0) k)
  else Ok k.

(** ** A machine to run the model on *)

(** Four cores, one process, release-build assertions; nobody joins a thread
    and a wakeup callback with an even reference vetoes the wakeup. *)
Definition sample_env : Env :=
  {| THREADPRIO_HIGHEST := 0; THREADPRIO_LOWEST := 63; THREADPROCESSORID_MAX := 4;
     TLS_AREA_VADDR := 0x1FF8000000; PAGE_SIZE := 0x1000; TLS_ENTRY_SIZE := 0x200;
     debug_asserts := false;
     IsValidVirtualAddress := fun _ vaddr => negb (vaddr =? 0);
     HandleTable_Create := fun table thread =>
       let handle := 1 + map_fold (fun h _ top => Z.max h top) 0 table in
       Ok (handle, <[handle := thread]> table);
     WakeupAllWaitingThreads := fun _ k => Ok k;
     invoke_wakeup_callback := fun callback _ _ _ _ k => Ok (Nat.odd callback, k) |}.

Definition boot : Kernel :=
  {| threads := ∅; cpu_cores := [None; None; None; None];
     wakeup_callback_handle_table := ∅; next_thread_id := 1;
     tls_slots := {[ 0%nat := [] ]}; current_process := 0%nat; ticks := 0; calls := [] |}.

(** The state an aborted run leaves nothing of; [boot] stands in. *)
Definition state_of (r : result Kernel) : Kernel :=
  match r with
  | Ok k => k
  | Aborted _ => boot
  end.

(** [Create] on the sample machine, keeping the state only. *)
Definition spawn (k : Kernel) (name : string) (priority processor_id : Z) : result Kernel :=
  '(_, k) ← Create sample_env k name 0x8000 priority 0 processor_id 0x7000 0%nat;
  Ok k.

(** Nominal and current priority of every thread. *)
Definition priorities (k : Kernel) : list (nat * (Z * Z)) :=
  map_to_list ((fun th => (nominal_priority th, current_priority th)) <$> threads k).

(** *** A chain of lock owners

    T1 (thread 0, priority 30) owns a mutex T2 (thread 1, priority 20) waits
    on; T2 owns a mutex T3 (thread 2, priority 10) comes to wait on. *)
Definition chain_before : result Kernel :=
  k ← spawn boot "T1" 30 0;
  k ← spawn k "T2" 20 1;
  k ← spawn k "T3" 10 2;
  AddMutexWaiter k 0%nat 1%nat.

Definition chain_after : result Kernel :=
  k ← chain_before; AddMutexWaiter k 1%nat 2%nat.

Definition chain_removed : result Kernel :=
  k ← chain_after; RemoveMutexWaiter k 1%nat 2%nat.

(** *** A thread stopped twice

    Thread A (0) is stopped; thread B (1) is created and gets the TLS slot A
    had; A is stopped again. *)
Definition stopped_once : result Kernel :=
  k ← spawn boot "A" 44 0; Stop sample_env k 0%nat.

Definition slot_reused : result Kernel :=
  k ← stopped_once; spawn k "B" 44 1.

Definition stopped_twice : result Kernel :=
  k ← slot_reused; Stop sample_env k 0%nat.

(** *** A thread resumed

    A thread created on core 2 and told to prefer core 3 while its mask names
    the cores 0 and 1 only. *)
Definition dormant_on_2 : result Kernel :=
  k ← spawn boot "C" 44 2; ChangeCore k 0%nat 3 3.

Definition resumed : result Kernel :=
  k ← dormant_on_2; ResumeFromWait sample_env k 0%nat.

(** *** A thread waiting on two objects with a timeout *)
Definition waiting_on_objects (callback : CallbackRef) : Kernel :=
  assign 0%nat (set_status WaitSynchAny)
    (assign 0%nat (set_wait_objects [5%nat; 6%nat])
       (assign 0%nat (set_wakeup_callback (Some callback))
          (state_of (spawn boot "W" 44 0)))).

(** ** The remaining entry points of the file *)

(** [Thread::ShouldWait]: a thread taken as a wait object is signalled once it
    is Dead. *)
Definition ShouldWait (th : Thread) : bool := negb (bool_decide (status th = Dead)).

(** [Thread::Acquire] *)
Definition Acquire (th : Thread) : result unit :=
  ASSERT (negb (ShouldWait th)) "object unavailable!".

(** [Thread::GetWaitObjectIndex]: [std::find] over the reverse iterators meets
    the last occurrence first; [found] is the distance of the match from
    [rbegin], the length of the list when there is none. *)
Fixpoint find_from_rbegin (reversed : list ObjRef) (object : ObjRef) : nat :=
  match reversed with
  | [] => O
  | candidate :: rest =>
      if bool_decide (candidate = object) then O
      else S (find_from_rbegin rest object)
  end.

Definition GetWaitObjectIndex (th : Thread) (object : ObjRef) : result Z :=
  _ ← ASSERT (negb (bool_decide (wait_objects th = []))) "Thread is not waiting for anything";
  let found := find_from_rbegin (reverse (wait_objects th)) object in
  (* std::distance(match, wait_objects.rend()) - 1 *)
  Ok (to_s32 (Z.of_nat (length (wait_objects th)) - Z.of_nat found - 1)).

(** [GetCurrentThread()]: the thread the scheduler of the calling core runs,
    a null pointer when that core is idle; [current_core] is the index of the
    calling core. *)
Definition GetCurrentThread (k : Kernel) (current_core : Z) : result (option ThreadRef) :=
  Scheduler_GetCurrentThread k current_core.

Definition WaitCurrentThread_Sleep (k : Kernel) (current_core : Z) : result Kernel :=
  thread ← GetCurrentThread k current_core;
  match thread with
  | Some thread =>
      _ ← thread_at k thread;
      Ok (assign thread (set_status WaitSleep) k)
  | None => Aborted (InvalidAccess "thread->status")
  end.

Definition ExitCurrentThread (E : Env) (k : Kernel) (current_core : Z) : result Kernel :=
  thread ← GetCurrentThread k current_core;
  match thread with
  | Some thread =>
      k ← Stop E k thread;
      s ← Scheduler k current_core;
      Ok (call (Scheduler_RemoveThread s thread) k)
  | None => Aborted (InvalidAccess "thread->Stop()")
  end.

(** *** Two threads that wait on each other *)
Definition deadlocked : result Kernel :=
  k ← spawn boot "P" 30 0;
  k ← spawn k "Q" 20 1;
  k ← AddMutexWaiter k 0%nat 1%nat;
  AddMutexWaiter k 1%nat 0%nat.

(** *** A machine whose cores 0 to 2 are busy *)
Definition busy_but_3 : Kernel :=
  {| threads := ∅; cpu_cores := [Some 7%nat; Some 8%nat; Some 9%nat; None];
     wakeup_callback_handle_table := ∅; next_thread_id := 1;
     tls_slots := {[ 0%nat := [255; 0x17] ]}; current_process := 0%nat; ticks := 0;
     calls := [] |}.

(** *** A thread that runs on core 0 *)
Definition running_on_0 : Kernel :=
  let k := assign 0%nat (set_status Running)
             (state_of (k ← spawn boot "R" 44 0; ResumeFromWait sample_env k 0%nat)) in
  {| threads := threads k; cpu_cores := [Some 0%nat; None; None; None];
     wakeup_callback_handle_table := wakeup_callback_handle_table k;
     next_thread_id := next_thread_id k; tls_slots := tls_slots k;
     current_process := current_process k; ticks := ticks k; calls := calls k |}.

(** Every thread runs at the priority it inherits. *)
Definition priorities_settled (k : Kernel) : Prop :=
  map_Forall (fun _ th => current_priority th = effective_priority k th) (threads k).

#[global] Instance priorities_settled_dec k : Decision (priorities_settled k).
Proof. unfold priorities_settled. apply _. Defined.

(** ** Placement, in closed form *)

(** The calls [ResumeFromWait] and [ChangeCore] make to move the thread
    [this], whose record was [th], to the core [core]. *)
Definition placement_calls (this : ThreadRef) (th : Thread) (core : Z) : list Call :=
  (if core =? processor_id th then []
   else [Scheduler_RemoveThread (scheduler th) this;
         Scheduler_AddThread core this (current_priority th)])
  ++ [Scheduler_UnscheduleThread (scheduler th) this (current_priority th);
      Scheduler_ScheduleThread core this (current_priority th);
      Cpu_PrepareReschedule core].

(** The state [ResumeFromWait] leaves when it puts the thread on [core]. *)
Definition resumed_on (k : Kernel) (this : ThreadRef) (th : Thread) (core : Z) : Kernel :=
  set_calls (calls k ++ placement_calls this th core)
    (set_threads
       (<[this := set_scheduler core
                    (set_processor_id core
                       (set_status Ready (set_wakeup_callback None th)))]> (threads k)) k).

(** A core the mask enables and that runs no thread, with no such core before
    it. *)
Definition lowest_idle_core (k : Kernel) (mask : Z) (core : Z) : Prop :=
  0 <= core ∧
  Z.testbit mask core = true ∧
  cpu_cores k !! Z.to_nat core = Some None ∧
  ∀ i, 0 <= i < core →
       Z.testbit mask i = false ∨ ∃ t, cpu_cores k !! Z.to_nat i = Some (Some t).

(** No core is both enabled by the mask and idle. *)
Definition no_idle_core (k : Kernel) (mask : Z) : Prop :=
  ∀ i, 0 <= i < NUM_CPU_CORES k →
       Z.testbit mask i = false ∨ ∃ t, cpu_cores k !! Z.to_nat i = Some (Some t).

(** *** A thread in a timed wait for a mutex

    T3 of the chain waits, with a timeout, for the mutex at 0x1000 that T2
    owns. *)
Definition waiting_for_mutex : Kernel :=
  assign 2%nat (set_status WaitMutex)
    (assign 2%nat (set_mutex_wait_address 0x1000) (state_of chain_after)).

(** What [RemoveMutexWaiter this thread] does to the record of the thread
    [i], the priority apart. *)
Definition unregistered (this thread i : ThreadRef) (x : Thread) : Thread :=
  let x :=
    if decide (i = this)
    then set_wait_mutex_threads (filter (fun w => w ≠ thread) (wait_mutex_threads x)) x
    else x in
  if decide (i = thread) then set_lock_owner None x else x.

(** ** What [UpdatePriority] leaves alone *)

Definition is_SetThreadPriority (c : Call) : Prop :=
  match c with
  | Scheduler_SetThreadPriority _ _ _ => True
  | _ => False
  end.

(** Two kernel states that differ in their threads and logged calls only. *)
Definition same_machine (k k' : Kernel) : Prop :=
  cpu_cores k' = cpu_cores k ∧
  wakeup_callback_handle_table k' = wakeup_callback_handle_table k ∧
  next_thread_id k' = next_thread_id k ∧
  tls_slots k' = tls_slots k ∧
  current_process k' = current_process k ∧
  ticks k' = ticks k.


#[global] Arguments assign : simpl never.
#[global] Arguments call : simpl never.
#[global] Arguments GetNextProcessorId : simpl never.
#[global] Arguments Scheduler : simpl never.
#[global] Arguments Scheduler_GetCurrentThread : simpl never.
#[global] Arguments UpdatePriority : simpl never.

(** * Properties *)

(** ** The result monad *)

Lemma bind_Ok {A B} (m : result A) (f : A -> result B) b :
  m ≫= f = Ok b ↔ ∃ a, m = Ok a ∧ f a = Ok b.
Proof.
  destruct m as [a|why]; simpl.
  - split; [eauto | by intros (? & [= ->] & ?)].
  - split; [done | by intros (? & ? & ?)].
Qed.

Lemma thread_at_Ok k t th : thread_at k t = Ok th ↔ threads k !! t = Some th.
Proof. unfold thread_at. destruct (threads k !! t); naive_solver. Qed.

Lemma thread_at_lookup k t th : threads k !! t = Some th → thread_at k t = Ok th.
Proof. apply thread_at_Ok. Qed.

(** ** Kernel state updates *)

Lemma threads_assign t f k : threads (assign t f k) = alter f t (threads k).
Proof. reflexivity. Qed.

Lemma threads_call c k : threads (call c k) = threads k.
Proof. reflexivity. Qed.

Lemma size_alter {A} (f : A -> A) (t : nat) (m : gmap nat A) :
  size (alter f t m) = size m.
Proof.
  rewrite <- !size_dom. f_equal. apply dom_alter_L.
Qed.

(** ** The priority a thread inherits *)

Lemma refs_closed_lookup k t th :
  refs_closed k → threads k !! t = Some th →
  (∀ w, w ∈ wait_mutex_threads th → is_Some (threads k !! w)) ∧
  (∀ owner, lock_owner th = Some owner → is_Some (threads k !! owner)).
Proof.
  intros Hclosed Hth. destruct (Hclosed t th Hth) as [Hw Ho]. split.
  - by apply Forall_forall.
  - intros owner Hown. rewrite Hown in Ho. simpl in Ho. by inversion Ho.
Qed.

Lemma refs_closed_intro k :
  (∀ t th, threads k !! t = Some th →
     (∀ w, w ∈ wait_mutex_threads th → is_Some (threads k !! w)) ∧
     (∀ owner, lock_owner th = Some owner → is_Some (threads k !! owner))) →
  refs_closed k.
Proof.
  intros H t th Hth. destruct (H t th Hth) as [Hw Ho]. split.
  - by apply Forall_forall.
  - destruct (lock_owner th) as [owner|]; simpl; repeat constructor. eauto.
Qed.

Lemma highest_waiter_priority_ext k k' new_priority waiters :
  (∀ w, nominal_priority <$> threads k' !! w = nominal_priority <$> threads k !! w) →
  highest_waiter_priority k' new_priority waiters
  = highest_waiter_priority k new_priority waiters.
Proof.
  intros Hnom. revert new_priority.
  induction waiters as [|w ws IH]; intros np; simpl; [done|].
  unfold thread_at. specialize (Hnom w).
  destruct (threads k' !! w) as [a|], (threads k !! w) as [b|]; simpl in *; try done.
  injection Hnom as ->. apply IH.
Qed.

Lemma foldr_min_base (p base : Z) (ps : list Z) :
  foldr Z.min (Z.min p base) ps = Z.min p (foldr Z.min base ps).
Proof. induction ps as [|q ps IH]; simpl; [done|]. rewrite IH. lia. Qed.

Lemma foldr_min_le_base (base : Z) (ps : list Z) : foldr Z.min base ps <= base.
Proof. induction ps as [|q ps IH]; simpl; lia. Qed.

Lemma highest_waiter_priority_min k new_priority waiters :
  (∀ w, w ∈ waiters → is_Some (threads k !! w)) →
  highest_waiter_priority k new_priority waiters
  = Ok (foldr Z.min new_priority (nominal_priorities k waiters)).
Proof.
  revert new_priority.
  induction waiters as [|w ws IH]; intros np Hall; simpl; [done|].
  destruct (Hall w) as [wt Hwt]; [left|].
  unfold thread_at, nominal_priorities. simpl. rewrite Hwt. simpl.
  rewrite IH by (intros; apply Hall; by right).
  f_equal. fold (nominal_priorities k ws).
  rewrite <- foldr_min_base. f_equal.
  destruct (Z.ltb_spec (nominal_priority wt) np); lia.
Qed.

(** ** Termination of the priority propagation *)

Lemma reprioritized_nominal k this th p w :
  nominal_priority <$> threads (reprioritized k this th p) !! w
  = nominal_priority <$> threads k !! w.
Proof.
  unfold reprioritized. rewrite threads_assign, threads_call.
  destruct (decide (this = w)) as [->|Hne].
  - rewrite lookup_alter_eq. by destruct (threads k !! w).
  - by rewrite lookup_alter_ne.
Qed.

Lemma stale_reprioritized k this th p x :
  stale (reprioritized k this th p) x = stale k x.
Proof.
  unfold stale.
  by rewrite (highest_waiter_priority_ext k) by apply reprioritized_nominal.
Qed.

Lemma stale_threads_reprioritized k this th p :
  threads k !! this = Some th →
  highest_waiter_priority k (nominal_priority th) (wait_mutex_threads th) = Ok p →
  stale_threads (reprioritized k this th p) = delete this (stale_threads k).
Proof.
  intros Hth Hp. unfold stale_threads.
  apply map_eq. intros i. apply option_eq. intros x.
  rewrite lookup_delete_Some, !map_lookup_filter_Some. cbn [snd].
  rewrite stale_reprioritized.
  unfold reprioritized. rewrite threads_assign, threads_call.
  destruct (decide (this = i)) as [->|Hne].
  - rewrite lookup_alter_eq, Hth. simpl. split; [|by intros [? _]].
    intros [[= <-] Hstale]. exfalso. revert Hstale. unfold stale. simpl.
    rewrite Hp, Z.eqb_refl. done.
  - rewrite lookup_alter_ne by done. split; [by intros [? ?] | by intros [_ ?]].
Qed.

Lemma stale_count_reprioritized k this th p :
  threads k !! this = Some th →
  highest_waiter_priority k (nominal_priority th) (wait_mutex_threads th) = Ok p →
  p ≠ current_priority th →
  S (size (stale_threads (reprioritized k this th p))) = size (stale_threads k).
Proof.
  intros Hth Hp Hne.
  assert (Hin : stale_threads k !! this = Some th).
  { unfold stale_threads. apply map_lookup_filter_Some. split; [done|]. simpl.
    unfold stale. rewrite Hp. apply negb_true_iff, Z.eqb_neq. done. }
  rewrite (stale_threads_reprioritized k this th p Hth Hp).
  rewrite map_size_delete_Some by eauto.
  assert (size (stale_threads k) ≠ 0%nat); [|lia].
  apply map_size_non_empty_iff. intros Hempty. by rewrite Hempty in Hin.
Qed.

Lemma stale_count_le k : (size (stale_threads k) ≤ size (threads k))%nat.
Proof. apply map_subseteq_size, map_filter_subseteq. Qed.

Lemma UpdatePriority_fuel_unfold fuel k this :
  UpdatePriority_fuel (S fuel) k this =
    th ← thread_at k this;
    new_priority ← highest_waiter_priority k (nominal_priority th) (wait_mutex_threads th);
    if new_priority =? current_priority th then Ok k
    else match lock_owner th with
         | Some owner => UpdatePriority_fuel fuel (reprioritized k this th new_priority) owner
         | None => Ok (reprioritized k this th new_priority)
         end.
Proof. reflexivity. Qed.

Lemma highest_waiter_priority_fuel_free k new_priority waiters :
  highest_waiter_priority k new_priority waiters ≠ Aborted OutOfFuel.
Proof.
  revert new_priority. induction waiters as [|w ws IH]; intros np; simpl; [done|].
  unfold thread_at. destruct (threads k !! w); simpl; [apply IH | done].
Qed.

Lemma UpdatePriority_fuel_enough fuel k this :
  (size (stale_threads k) < fuel)%nat →
  UpdatePriority_fuel fuel k this ≠ Aborted OutOfFuel.
Proof.
  revert k this. induction fuel as [|fuel IH]; intros k this Hfuel; [lia|].
  rewrite UpdatePriority_fuel_unfold.
  destruct (thread_at k this) as [th|why] eqn:Hth; simpl.
  2:{ unfold thread_at in Hth. destruct (threads k !! this); naive_solver. }
  apply thread_at_Ok in Hth.
  destruct (highest_waiter_priority _ _ _) as [p|why] eqn:Hp; simpl.
  2:{ intros [= ->]. by apply highest_waiter_priority_fuel_free in Hp. }
  destruct (Z.eqb_spec p (current_priority th)) as [|Hne]; [done|].
  destruct (lock_owner th) as [owner|]; [|done].
  apply IH. pose proof (stale_count_reprioritized k this th p Hth Hp Hne). lia.
Qed.

Lemma UpdatePriority_fuel_mono fuel fuel' k this :
  (fuel ≤ fuel')%nat →
  UpdatePriority_fuel fuel k this ≠ Aborted OutOfFuel →
  UpdatePriority_fuel fuel' k this = UpdatePriority_fuel fuel k this.
Proof.
  revert fuel' k this. induction fuel as [|fuel IH]; intros fuel' k this Hle Hok; [done|].
  destruct fuel' as [|fuel']; [lia|].
  rewrite !UpdatePriority_fuel_unfold in *.
  destruct (thread_at k this) as [th|]; simpl in *; [|done].
  destruct (highest_waiter_priority _ _ _) as [p|]; simpl in *; [|done].
  destruct (p =? current_priority th); [done|].
  destruct (lock_owner th); [|done].
  apply IH; [lia | done].
Qed.

(** [UpdatePriority] never runs out of steps. *)
Lemma UpdatePriority_terminates k this : UpdatePriority k this ≠ Aborted OutOfFuel.
Proof.
  apply UpdatePriority_fuel_enough. pose proof (stale_count_le k). lia.
Qed.

Lemma size_threads_reprioritized k this th p :
  size (threads (reprioritized k this th p)) = size (threads k).
Proof. unfold reprioritized. rewrite threads_assign, threads_call. apply size_alter. Qed.

(** One step of [UpdatePriority]: the recursion equation of the C++ function. *)
Lemma UpdatePriority_unfold k this :
  UpdatePriority k this =
    th ← thread_at k this;
    new_priority ← highest_waiter_priority k (nominal_priority th) (wait_mutex_threads th);
    if new_priority =? current_priority th then Ok k
    else match lock_owner th with
         | Some owner => UpdatePriority (reprioritized k this th new_priority) owner
         | None => Ok (reprioritized k this th new_priority)
         end.
Proof.
  unfold UpdatePriority at 1. rewrite UpdatePriority_fuel_unfold.
  destruct (thread_at k this) as [th|] eqn:Hth; simpl; [|done].
  apply thread_at_Ok in Hth.
  destruct (highest_waiter_priority _ _ _) as [p|] eqn:Hp; simpl; [|done].
  destruct (Z.eqb_spec p (current_priority th)) as [|Hne]; [done|].
  destruct (lock_owner th) as [owner|]; [|done].
  unfold UpdatePriority. rewrite size_threads_reprioritized.
  symmetry. apply UpdatePriority_fuel_mono; [lia|].
  apply UpdatePriority_fuel_enough.
  pose proof (stale_count_reprioritized k this th p Hth Hp Hne).
  pose proof (stale_count_le k). lia.
Qed.

(** ** The state [UpdatePriority] leaves *)

Lemma highest_waiter_priority_le k new_priority waiters p :
  highest_waiter_priority k new_priority waiters = Ok p → p <= new_priority.
Proof.
  revert new_priority. induction waiters as [|w ws IH]; intros np; simpl.
  - intros [= ->]. lia.
  - destruct (thread_at k w) as [wt|]; simpl; [|done].
    intros Hp. apply IH in Hp. destruct (Z.ltb_spec (nominal_priority wt) np); lia.
Qed.

Lemma UpdatePriority_fuel_settles fuel k this k' :
  UpdatePriority_fuel fuel k this = Ok k' →
  (∀ i, threads k !! i = None → threads k' !! i = None) ∧
  (∀ i th, threads k !! i = Some th →
     ∃ th', threads k' !! i = Some th' ∧ priority_settled k th th') ∧
  (∃ th, threads k !! this = Some th ∧
     ∃ p, highest_waiter_priority k (nominal_priority th) (wait_mutex_threads th) = Ok p ∧
          threads k' !! this = Some (set_current_priority p th)).
Proof.
  revert k this k'. induction fuel as [|fuel IH]; intros k this k'; [done|].
  rewrite UpdatePriority_fuel_unfold.
  destruct (thread_at k this) as [th|] eqn:Hth; simpl; [|done].
  apply thread_at_Ok in Hth.
  destruct (highest_waiter_priority _ _ _) as [p|] eqn:Hp; simpl; [|done].
  assert (Hown : ∀ i x, threads k !! i = Some x →
            ∃ x', threads (reprioritized k this th p) !! i = Some x' ∧
                  priority_settled k x x' ∧
                  (i = this → x' = set_current_priority p th)).
  { intros i x Hx. unfold reprioritized. rewrite threads_assign, threads_call.
    destruct (decide (this = i)) as [<-|Hne].
    - rewrite lookup_alter_eq, Hx. simpl. eexists; split; [done|].
      assert (x = th) as -> by congruence. split; [right; eauto | done].
    - rewrite lookup_alter_ne, Hx by done. eexists; split; [done|].
      split; [by left | done]. }
  destruct (Z.eqb_spec p (current_priority th)) as [Heq|Hne].
  { intros [= <-]. split; [done|]. split.
    - intros i x Hx. exists x. split; [done | by left].
    - exists th. split; [done|]. exists p. split; [done|].
      rewrite Hth. f_equal. subst p. by destruct th. }
  destruct (lock_owner th) as [owner|].
  2:{ intros [= <-]. split; [|split].
      - intros i Hi. unfold reprioritized. rewrite threads_assign, threads_call.
        rewrite lookup_alter_None. done.
      - intros i x Hx. destruct (Hown i x Hx) as (x' & ? & ? & _). eauto.
      - exists th. split; [done|]. exists p. split; [done|].
        destruct (Hown this th Hth) as (x' & -> & _ & ->); done. }
  intros Hrec. destruct (IH _ _ _ Hrec) as (Hnone & Hsome & _).
  assert (Hre : ∀ i x x1 x', threads k !! i = Some x →
            priority_settled k x x1 →
            priority_settled (reprioritized k this th p) x1 x' →
            priority_settled k x x').
  { intros i x x1 x' Hx [->|(q & Hq & ->)] [->|(q' & Hq' & ->)].
    - by left.
    - right. exists q'. split; [|done].
      by rewrite <- (highest_waiter_priority_ext k (reprioritized k this th p))
        by apply reprioritized_nominal.
    - right. eauto.
    - right. simpl in Hq'.
      rewrite (highest_waiter_priority_ext k) in Hq' by apply reprioritized_nominal.
      assert (q' = q) as -> by congruence. eauto. }
  split; [|split].
  - intros i Hi. apply Hnone. unfold reprioritized.
    rewrite threads_assign, threads_call. by rewrite lookup_alter_None.
  - intros i x Hx. destruct (Hown i x Hx) as (x1 & Hx1 & Hset1 & _).
    destruct (Hsome i x1 Hx1) as (x' & Hx' & Hset'). eauto.
  - exists th. split; [done|]. exists p. split; [done|].
    destruct (Hown this th Hth) as (x1 & Hx1 & _ & Heq1). specialize (Heq1 eq_refl).
    subst x1. destruct (Hsome this _ Hx1) as (x' & Hx' & [->|(q & Hq & ->)]); [done|].
    rewrite Hx'. f_equal. simpl in Hq.
    rewrite (highest_waiter_priority_ext k) in Hq by apply reprioritized_nominal.
    by assert (q = p) as -> by congruence.
Qed.

(** With every reference in the store, [UpdatePriority] returns. *)
Lemma refs_closed_reprioritized k this th p :
  refs_closed k → refs_closed (reprioritized k this th p).
Proof.
  intros Hclosed. apply refs_closed_intro. intros t x.
  unfold reprioritized. rewrite threads_assign, threads_call.
  intros Hx. apply lookup_alter_Some in Hx.
  assert (∃ y, threads k !! t = Some y ∧ wait_mutex_threads x = wait_mutex_threads y
               ∧ lock_owner x = lock_owner y) as (y & Hy & -> & ->).
  { destruct Hx as [(_ & y & Hy & ->)|[_ Hx]]; eauto. }
  destruct (refs_closed_lookup k t y Hclosed Hy) as [Hw Ho].
  split; intros r Hr; apply lookup_alter_is_Some; eauto.
Qed.

Lemma UpdatePriority_fuel_returns fuel k this :
  refs_closed k → is_Some (threads k !! this) →
  (size (stale_threads k) < fuel)%nat →
  ∃ k', UpdatePriority_fuel fuel k this = Ok k'.
Proof.
  revert k this. induction fuel as [|fuel IH]; intros k this Hclosed [th Hth] Hfuel; [lia|].
  rewrite UpdatePriority_fuel_unfold, (thread_at_lookup _ _ _ Hth). simpl.
  destruct (refs_closed_lookup k this th Hclosed Hth) as [Hw Ho].
  rewrite (highest_waiter_priority_min _ _ _ Hw). simpl.
  set (p := foldr Z.min _ _).
  destruct (Z.eqb_spec p (current_priority th)) as [|Hne]; [eauto|].
  destruct (lock_owner th) as [owner|] eqn:Hown; [|eauto].
  apply IH.
  - by apply refs_closed_reprioritized.
  - unfold reprioritized. rewrite threads_assign, threads_call.
    apply lookup_alter_is_Some. eauto.
  - pose proof (stale_count_reprioritized k this th p Hth
                  (highest_waiter_priority_min _ _ _ Hw) Hne). lia.
Qed.

Lemma UpdatePriority_returns k this :
  refs_closed k → is_Some (threads k !! this) → ∃ k', UpdatePriority k this = Ok k'.
Proof.
  intros Hclosed Hthis. apply UpdatePriority_fuel_returns; [done..|].
  pose proof (stale_count_le k). lia.
Qed.

(** ** The priority bound *)

Lemma priorities_bounded_assign t f k :
  (∀ th, current_priority (f th) = current_priority th ∧
         nominal_priority (f th) = nominal_priority th) →
  priorities_bounded k → priorities_bounded (assign t f k).
Proof.
  intros Hf Hinv i x. rewrite threads_assign. intros Hx.
  apply lookup_alter_Some in Hx as [(_ & y & Hy & ->)|[_ Hx]].
  - destruct (Hf y) as [-> ->]. by apply (Hinv i).
  - by apply (Hinv i).
Qed.

(** After [UpdatePriority] of [this] every thread is within the bound, if
    every thread but [this] was. *)
Lemma UpdatePriority_bounds k this k' :
  (∀ i th, i ≠ this → threads k !! i = Some th →
           current_priority th <= nominal_priority th) →
  UpdatePriority k this = Ok k' →
  priorities_bounded k'.
Proof.
  intros Hothers Hrun.
  apply UpdatePriority_fuel_settles in Hrun as (Hnone & Hsome & th & Hth & p & Hp & Hthis).
  intros i x' Hx'.
  destruct (decide (i = this)) as [->|Hne].
  - rewrite Hthis in Hx'. injection Hx' as <-. simpl.
    by apply highest_waiter_priority_le in Hp.
  - destruct (threads k !! i) as [x|] eqn:Hx.
    + destruct (Hsome i x Hx) as (y & Hy & Hset).
      assert (y = x') as -> by congruence.
      destruct Hset as [->|(q & Hq & ->)]; [by apply (Hothers i)|].
      simpl. by apply highest_waiter_priority_le in Hq.
    + apply Hnone in Hx. congruence.
Qed.

Lemma UpdatePriority_preserves_bound k this k' :
  priorities_bounded k → UpdatePriority k this = Ok k' → priorities_bounded k'.
Proof.
  intros Hinv. apply UpdatePriority_bounds. intros i th _ Hth. by apply (Hinv i).
Qed.

Lemma ASSERT_Ok cond what (u : unit) : ASSERT cond what = Ok u → cond = true.
Proof. unfold ASSERT. by destruct cond. Qed.

(** ** Assignments through a reference *)

Lemma lookup_assign_eq t f k : threads (assign t f k) !! t = f <$> threads k !! t.
Proof. rewrite threads_assign. apply lookup_alter_eq. Qed.

Lemma lookup_assign_ne t i f k : t ≠ i → threads (assign t f k) !! i = threads k !! i.
Proof. intros Hne. rewrite threads_assign. by apply lookup_alter_ne. Qed.

Lemma threads_set_wakeup_callback_handle_table v k :
  threads (set_wakeup_callback_handle_table v k) = threads k.
Proof. reflexivity. Qed.

Lemma alter_alter {A} (f g : A -> A) (t : nat) (m : gmap nat A) :
  alter f t (alter g t m) = alter (f ∘ g) t m.
Proof.
  apply map_eq. intros i. destruct (decide (t = i)) as [->|Hne].
  - rewrite !lookup_alter_eq. by destruct (m !! i).
  - by rewrite !lookup_alter_ne.
Qed.

Lemma assign_assign t f g k : assign t f (assign t g k) = assign t (f ∘ g) k.
Proof. unfold assign. simpl. by rewrite alter_alter. Qed.

Lemma assign_ext t f g k :
  (∀ th, threads k !! t = Some th → f th = g th) → assign t f k = assign t g k.
Proof. intros Hfg. unfold assign. f_equal. by apply alter_ext. Qed.

Lemma assign_call t f c k : assign t f (call c k) = call c (assign t f k).
Proof. reflexivity. Qed.

(** ** The free-core scan *)

Lemma Scheduler_ext k k' core_index :
  cpu_cores k' = cpu_cores k → Scheduler k' core_index = Scheduler k core_index.
Proof. intros Hcores. unfold Scheduler, NUM_CPU_CORES. by rewrite Hcores. Qed.

Lemma Scheduler_GetCurrentThread_ext k k' core_index :
  cpu_cores k' = cpu_cores k →
  Scheduler_GetCurrentThread k' core_index = Scheduler_GetCurrentThread k core_index.
Proof.
  intros Hcores. unfold Scheduler_GetCurrentThread.
  rewrite (Scheduler_ext k k') by done. by rewrite Hcores.
Qed.

Lemma GetNextProcessorId_loop_ext k k' mask n index :
  cpu_cores k' = cpu_cores k →
  GetNextProcessorId_loop k' mask n index = GetNextProcessorId_loop k mask n index.
Proof.
  intros Hcores. revert index. induction n as [|n IH]; intros index; simpl; [done|].
  rewrite (Scheduler_GetCurrentThread_ext k k') by done. rewrite !IH. done.
Qed.

Lemma GetNextProcessorId_ext k k' mask :
  cpu_cores k' = cpu_cores k → GetNextProcessorId k' mask = GetNextProcessorId k mask.
Proof.
  intros Hcores. unfold GetNextProcessorId. rewrite Hcores.
  by apply GetNextProcessorId_loop_ext.
Qed.

Lemma Scheduler_GetCurrentThread_lookup k core_index current :
  0 <= core_index → cpu_cores k !! Z.to_nat core_index = Some current →
  Scheduler_GetCurrentThread k core_index = Ok current.
Proof.
  intros Hpos Hcore. unfold Scheduler_GetCurrentThread, Scheduler, NUM_CPU_CORES.
  apply lookup_lt_Some in Hcore as Hlt.
  destruct (Z.leb_spec 0 core_index); [|lia].
  destruct (Z.ltb_spec core_index (Z.of_nat (length (cpu_cores k)))); [|lia].
  simpl. by rewrite Hcore.
Qed.

Lemma Scheduler_in_range k core_index :
  0 <= core_index < NUM_CPU_CORES k → Scheduler k core_index = Ok core_index.
Proof.
  intros [Hlo Hhi]. unfold Scheduler.
  destruct (Z.leb_spec 0 core_index); [|lia].
  destruct (Z.ltb_spec core_index (NUM_CPU_CORES k)); [done|lia].
Qed.

(** What the scan of [GetNextProcessorId] finds from [index] on: the first
    core, among the next [n], that the mask enables and that runs no thread. *)
Lemma GetNextProcessorId_loop_spec k mask n index :
  0 <= index → (Z.to_nat index + n ≤ length (cpu_cores k))%nat →
  ∃ free, GetNextProcessorId_loop k mask n index = Ok free ∧
    match free with
    | Some core =>
        index <= core < index + Z.of_nat n ∧
        Z.land mask (to_u64 (Z.shiftl 1 core)) ≠ 0 ∧
        cpu_cores k !! Z.to_nat core = Some None ∧
        ∀ i, index <= i < core →
             Z.land mask (to_u64 (Z.shiftl 1 i)) = 0 ∨
             ∃ t, cpu_cores k !! Z.to_nat i = Some (Some t)
    | None =>
        ∀ i, index <= i < index + Z.of_nat n →
             Z.land mask (to_u64 (Z.shiftl 1 i)) = 0 ∨
             ∃ t, cpu_cores k !! Z.to_nat i = Some (Some t)
    end.
Proof.
  revert index. induction n as [|n IH]; intros index Hpos Hlen; simpl.
  { exists None. split; [done|]. intros i Hi. lia. }
  destruct (IH (index + 1)) as (free & Hfree & Hspec); [lia..|].
  assert (Hnext : ∀ P : Z → Prop, P index →
            (∀ i, index + 1 <= i < index + 1 + Z.of_nat n → P i) →
            ∀ i, index <= i < index + Z.of_nat (S n) → P i).
  { intros P H0 Hrest i Hi. destruct (decide (i = index)) as [->|]; [done|].
    apply Hrest. lia. }
  assert (Hskip : ∀ P : Z → Prop, P index →
            match free with
            | Some core => ∀ i, index + 1 <= i < core → P i
            | None => ∀ i, index + 1 <= i < index + 1 + Z.of_nat n → P i
            end →
            match free with
            | Some core => ∀ i, index <= i < core → P i
            | None => ∀ i, index <= i < index + Z.of_nat (S n) → P i
            end).
  { intros P H0. destruct free as [core|]; intros Hrest i Hi;
      (destruct (decide (i = index)) as [->|]; [done|]); apply Hrest; lia. }
  destruct (Z.eqb_spec (Z.land mask (to_u64 (Z.shiftl 1 index))) 0) as [Hbit|Hbit]; simpl.
  - exists free. split; [done|].
    destruct free as [core|].
    + destruct Hspec as (Hrange & Hmask & Hidle & Hbefore).
      split; [lia|]. split; [done|]. split; [done|].
      apply (Hskip (fun i => _ ∨ _)); [by left | done].
    + apply (Hskip (fun i => _ ∨ _)); [by left | done].
  - destruct (lookup_lt_is_Some_2 (cpu_cores k) (Z.to_nat index)) as [current Hcur]; [lia|].
    rewrite (Scheduler_GetCurrentThread_lookup _ _ _ Hpos Hcur). simpl.
    destruct current as [t|].
    + exists free. split; [done|].
      destruct free as [core|].
      * destruct Hspec as (Hrange & Hmask & Hidle & Hbefore).
        split; [lia|]. split; [done|]. split; [done|].
        apply (Hskip (fun i => _ ∨ _)); [right; eauto | done].
      * apply (Hskip (fun i => _ ∨ _)); [right; eauto | done].
    + exists (Some index). split; [done|].
      split; [lia|]. split; [done|]. split; [done|]. intros i Hi. lia.
Qed.

Lemma GetNextProcessorId_returns k mask : ∃ free, GetNextProcessorId k mask = Ok free.
Proof.
  destruct (GetNextProcessorId_loop_spec k mask (length (cpu_cores k)) 0)
    as (free & Hfree & _); [lia..|]. eauto.
Qed.

(** ** Equality of kernel states *)

Lemma Kernel_eq k1 k2 :
  threads k1 = threads k2 → cpu_cores k1 = cpu_cores k2 →
  wakeup_callback_handle_table k1 = wakeup_callback_handle_table k2 →
  next_thread_id k1 = next_thread_id k2 → tls_slots k1 = tls_slots k2 →
  current_process k1 = current_process k2 → ticks k1 = ticks k2 →
  calls k1 = calls k2 → k1 = k2.
Proof. destruct k1, k2. simpl. by intros -> -> -> -> -> -> -> ->. Qed.

(** ** Logged calls *)

Lemma calls_foldl_call (f : nat → Call) (objects : list nat) k :
  calls (foldl (fun k object => call (f object) k) k objects)
  = calls k ++ map f objects.
Proof.
  revert k. induction objects as [|o os IH]; intros k; simpl.
  - by rewrite app_nil_r.
  - rewrite IH. unfold call. simpl. by rewrite <- app_assoc.
Qed.

Lemma threads_foldl_call (f : nat → Call) (objects : list nat) k :
  threads (foldl (fun k object => call (f object) k) k objects) = threads k.
Proof. revert k. induction objects as [|o os IH]; intros k; simpl; [done|]. by rewrite IH. Qed.

Lemma tls_slots_foldl_call (f : nat → Call) (objects : list nat) k :
  tls_slots (foldl (fun k object => call (f object) k) k objects) = tls_slots k.
Proof. revert k. induction objects as [|o os IH]; intros k; simpl; [done|]. by rewrite IH. Qed.

Lemma current_process_foldl_call (f : nat → Call) (objects : list nat) k :
  current_process (foldl (fun k object => call (f object) k) k objects) = current_process k.
Proof. revert k. induction objects as [|o os IH]; intros k; simpl; [done|]. by rewrite IH. Qed.

(** ** What the priority bookkeeping leaves alone *)

Lemma priority_settled_status k th th' :
  priority_settled k th th' → status th' = status th.
Proof. by intros [->|(p & _ & ->)]. Qed.

Lemma UpdatePriority_status k this k' i :
  UpdatePriority k this = Ok k' →
  status <$> threads k' !! i = status <$> threads k !! i.
Proof.
  intros Hrun. apply UpdatePriority_fuel_settles in Hrun as (Hnone & Hsome & _).
  destruct (threads k !! i) as [x|] eqn:Hx.
  - destruct (Hsome i x Hx) as (x' & -> & Hset). simpl.
    by rewrite (priority_settled_status _ _ _ Hset).
  - by rewrite (Hnone i Hx).
Qed.

Lemma status_assign t f k i :
  (∀ th, status (f th) = status th) →
  status <$> threads (assign t f k) !! i = status <$> threads k !! i.
Proof.
  intros Hf. destruct (decide (t = i)) as [->|Hne].
  - rewrite lookup_assign_eq. destruct (threads k !! i); simpl; [|done]. by rewrite Hf.
  - by rewrite lookup_assign_ne.
Qed.

Lemma RemoveMutexWaiter_status k this thread k' i :
  RemoveMutexWaiter k this thread = Ok k' →
  status <$> threads k' !! i = status <$> threads k !! i.
Proof.
  unfold RemoveMutexWaiter. intros Hrun.
  apply bind_Ok in Hrun as (me & _ & Hrun).
  apply bind_Ok in Hrun as (th & _ & Hrun).
  apply bind_Ok in Hrun as (_ & _ & Hrun).
  apply bind_Ok in Hrun as (_ & _ & Hrun).
  rewrite (UpdatePriority_status _ _ _ i Hrun).
  by rewrite !status_assign.
Qed.

Lemma clear_address_waits_status k thread k' i :
  clear_address_waits k thread = Ok k' →
  status <$> threads k' !! i = status <$> threads k !! i.
Proof.
  unfold clear_address_waits. intros Hrun.
  apply bind_Ok in Hrun as (th & _ & Hrun).
  apply bind_Ok in Hrun as (k1 & Hk1 & Hrun).
  apply bind_Ok in Hrun as (th1 & _ & Hrun).
  assert (Hfirst : status <$> threads k1 !! i = status <$> threads k !! i).
  { destruct (_ || _).
    - apply bind_Ok in Hk1 as (_ & _ & Hk1).
      destruct (lock_owner th) as [owner|].
      + rewrite (RemoveMutexWaiter_status _ _ _ _ i Hk1). by rewrite !status_assign.
      + injection Hk1 as <-. by rewrite !status_assign.
    - by injection Hk1 as <-. }
  rewrite <- Hfirst. clear Hk1 Hfirst.
  destruct (negb (arb_wait_address th1 =? 0)).
  - apply bind_Ok in Hrun as (_ & _ & [= <-]). by rewrite status_assign.
  - by injection Hrun as <-.
Qed.

(** * The claims *)

(** ** Priority inheritance *)

(** C1.  Priority inheritance along a chain of lock owners, run on the sample
    machine: T3 (priority 10) registers as a waiter of T2 (priority 20), which
    waits on T1 (priority 30, running at 20 for T2).  [AddMutexWaiter] raises
    T2 to 10, but T1 stays at 20: [UpdatePriority] of T1 reads the nominal
    priority of T2, which did not change, so the recursion into the lock owner
    finds nothing to do.  Removing T3 again puts T2 back to 20 and leaves T1 at
    20. *)
Theorem inheritance_stops_after_one_hop :
  priorities (state_of chain_before) = [(2%nat, (10, 10)); (1%nat, (20, 20)); (0%nat, (30, 20))] ∧
  (∃ k, chain_after = Ok k ∧
        priorities k = [(2%nat, (10, 10)); (1%nat, (20, 10)); (0%nat, (30, 20))] ∧
        current_priority <$> threads k !! 0%nat ≠ nominal_priority <$> threads k !! 2%nat) ∧
  priorities (state_of chain_removed) = [(2%nat, (10, 10)); (1%nat, (20, 20)); (0%nat, (30, 20))].
Proof.
  split; [by vm_compute|]. split; [|by vm_compute].
  eexists. split; [by vm_compute|]. split; by vm_compute.
Qed.

(** C2.  [UpdatePriority] sets the current priority of the thread to the
    minimum of its nominal priority and of the nominal priorities of the
    threads in [wait_mutex_threads]; when that is the current priority already
    it changes nothing; otherwise it passes the new priority to the scheduler,
    stores it and goes on with [UpdatePriority] of the lock owner, if there is
    one.  The call returns. *)
Theorem UpdatePriority_effective_priority (k : Kernel) (this : ThreadRef) (th : Thread) :
  refs_closed k →
  threads k !! this = Some th →
  let new_priority := effective_priority k th in
  let k1 :=
    assign this (set_current_priority new_priority)
      (call (Scheduler_SetThreadPriority (scheduler th) this new_priority) k) in
  (∃ k', UpdatePriority k this = Ok k' ∧
         current_priority <$> threads k' !! this = Some new_priority) ∧
  (new_priority = current_priority th → UpdatePriority k this = Ok k) ∧
  (new_priority ≠ current_priority th →
   UpdatePriority k this =
     match lock_owner th with
     | Some owner => UpdatePriority k1 owner
     | None => Ok k1
     end).
Proof.
  intros Hclosed Hth new_priority k1.
  destruct (refs_closed_lookup k this th Hclosed Hth) as [Hw _].
  pose proof (highest_waiter_priority_min k (nominal_priority th) _ Hw) as Hp.
  fold (effective_priority k th) in Hp. fold new_priority in Hp.
  split; [|split].
  - destruct (UpdatePriority_returns k this Hclosed) as [k' Hk']; [eauto|].
    exists k'. split; [done|].
    apply UpdatePriority_fuel_settles in Hk' as (_ & _ & th0 & Hth0 & p & Hp0 & ->).
    assert (th0 = th) as -> by congruence.
    assert (p = new_priority) as -> by congruence. done.
  - intros Heq. rewrite UpdatePriority_unfold, (thread_at_lookup _ _ _ Hth). simpl.
    rewrite Hp. simpl. rewrite Heq, Z.eqb_refl. done.
  - intros Hne. rewrite UpdatePriority_unfold, (thread_at_lookup _ _ _ Hth). simpl.
    rewrite Hp. simpl. apply Z.eqb_neq in Hne. rewrite Hne. done.
Qed.

Lemma UpdatePriority_effective_priority_witness :
  let k := assign 0%nat (set_nominal_priority 15) (state_of chain_after) in
  ∃ k', UpdatePriority k 0%nat = Ok k' ∧
        current_priority <$> threads k !! 0%nat = Some 20 ∧
        current_priority <$> threads k' !! 0%nat = Some 15.
Proof.
  intros k.
  assert (Hclosed : refs_closed k) by compute_done.
  assert (Hthread : ∃ th, threads k !! 0%nat = Some th ∧
            current_priority th = 20 ∧ effective_priority k th = 15)
    by (vm_compute; eexists; repeat split; reflexivity).
  destruct Hthread as (th & Hth & Hfacts).
  destruct Hfacts as [Hcur Heff].
  destruct (UpdatePriority_effective_priority k 0%nat th Hclosed Hth)
    as ((k' & Hrun & Hcurrent) & _).
  exists k'. split; [exact Hrun|]. split.
  - rewrite Hth. simpl. rewrite Hcur. reflexivity.
  - rewrite Hcurrent, Heff. reflexivity.
Defined.

(** C8.  The bound [current_priority <= nominal_priority], on every thread, is
    kept by [SetPriority], [AddMutexWaiter], [RemoveMutexWaiter] and
    [UpdatePriority]: inheritance only lowers the number.  [BoostPriority]
    stores the priority it is given without looking at the nominal one, and
    with a priority above the nominal one it leaves the bound. *)
Theorem priority_bound_preserved (E : Env) (k : Kernel) :
  priorities_bounded k →
  (∀ op k', run_priority_op E k op = Ok k' → priorities_bounded k') ∧
  (∀ this th priority,
     threads k !! this = Some th → nominal_priority th < priority →
     ∃ k', BoostPriority k this priority = Ok k' ∧ ¬ priorities_bounded k').
Proof.
  intros Hinv. split.
  - intros [this priority|this thread|this thread|this] k'; simpl.
    + unfold SetPriority. intros Hrun.
      apply bind_Ok in Hrun as (_ & _ & Hrun).
      apply bind_Ok in Hrun as (th & Hth & Hrun). apply thread_at_Ok in Hth.
      revert Hrun. apply UpdatePriority_bounds. intros i x Hne.
      rewrite threads_assign, lookup_alter_ne by done. apply (Hinv i).
    + unfold AddMutexWaiter. intros Hrun.
      apply bind_Ok in Hrun as (me & _ & Hrun).
      apply bind_Ok in Hrun as (th & _ & Hrun).
      destruct (decide (lock_owner th = Some this)).
      * apply bind_Ok in Hrun as (_ & _ & [= <-]). done.
      * apply bind_Ok in Hrun as (_ & _ & Hrun).
        apply bind_Ok in Hrun as (_ & _ & Hrun).
        revert Hrun. apply UpdatePriority_preserves_bound.
        by repeat apply priorities_bounded_assign.
    + unfold RemoveMutexWaiter. intros Hrun.
      apply bind_Ok in Hrun as (me & _ & Hrun).
      apply bind_Ok in Hrun as (th & _ & Hrun).
      apply bind_Ok in Hrun as (_ & _ & Hrun).
      apply bind_Ok in Hrun as (_ & _ & Hrun).
      revert Hrun. apply UpdatePriority_preserves_bound.
      by repeat apply priorities_bounded_assign.
    + by apply UpdatePriority_preserves_bound.
  - intros this th priority Hth Hlt. unfold BoostPriority.
    rewrite (thread_at_lookup _ _ _ Hth). simpl. eexists. split; [done|].
    intros Hbound.
    specialize (Hbound this (set_current_priority priority th)).
    rewrite threads_assign, threads_call, lookup_alter_eq, Hth in Hbound.
    specialize (Hbound eq_refl). simpl in Hbound. lia.
Qed.

Lemma priority_bound_preserved_witness :
  priorities_bounded (state_of chain_before) ∧
  priorities_bounded (state_of chain_after) ∧
  ∃ k', BoostPriority (state_of chain_before) 0%nat 40 = Ok k' ∧ ¬ priorities_bounded k'.
Proof.
  assert (Hinv : priorities_bounded (state_of chain_before)) by compute_done.
  destruct (priority_bound_preserved sample_env _ Hinv) as [Hkept Hboost].
  split; [exact Hinv|]. split.
  - apply (Hkept (OpAddMutexWaiter 1%nat 2%nat)). vm_compute. reflexivity.
  - assert (Hthread : ∃ th, threads (state_of chain_before) !! 0%nat = Some th ∧
              nominal_priority th = 30)
      by (vm_compute; eexists; split; reflexivity).
    destruct Hthread as (th & Hth & Hnominal).
    apply (Hboost 0%nat th 40 Hth). rewrite Hnominal. reflexivity.
Defined.

(** ** Core placement *)

(** C3.  Resuming a waiting (or dormant) thread whose placement hint is
    [(core, mask)] and changing the hint of the same thread to [(core, mask)]
    once it is Ready end in the same kernel state, or abort alike: the same
    core is chosen, the same calls go to the schedulers and to the core, in
    the same order, and the same members of the thread are written. *)
Theorem ResumeFromWait_ChangeCore_same_placement (E : Env) (k : Kernel)
    (this : ThreadRef) (th : Thread) (core mask : Z) (waiting : ThreadStatus) :
  threads k !! this = Some th →
  wait_objects th = [] →
  is_waiting waiting = true ∨ waiting = Dormant →
  ResumeFromWait E
    (assign this (set_status waiting)
       (assign this (set_affinity_mask mask)
          (assign this (set_ideal_core (to_s32 core)) k))) this
  = ChangeCore
      (assign this (set_status Ready) (assign this (set_wakeup_callback None) k))
      this core mask.
Proof.
  intros Hth Hobjects Hwaiting.
  assert (Hstate :
    assign this (set_status Ready)
      (assign this (set_wakeup_callback None)
         (assign this (set_status waiting)
            (assign this (set_affinity_mask mask)
               (assign this (set_ideal_core (to_s32 core)) k))))
    = assign this (set_affinity_mask mask)
        (assign this (set_ideal_core (to_s32 core))
           (assign this (set_status Ready)
              (assign this (set_wakeup_callback None) k)))).
  { rewrite !assign_assign. apply assign_ext. intros x _. by destruct x. }
  unfold ResumeFromWait, ChangeCore, thread_at.
  rewrite !lookup_assign_eq, Hth. simpl. rewrite Hobjects. simpl.
  rewrite <- Hstate.
  destruct Hwaiting as [Hwaiting| ->];
    [destruct waiting; try discriminate Hwaiting|]; reflexivity.
Qed.

(** C4.  A waiting or dormant thread whose ideal core is a core of the machine
    that runs no thread is placed on that core by [ResumeFromWait], whatever
    its affinity mask, the core it was on and the other cores do: the override
    by the ideal core comes after the scan for a free core and after the
    fallback to the previous core.  The thread is scheduled on the ideal core
    and that core is asked to reschedule. *)
Theorem ResumeFromWait_places_on_idle_ideal_core (E : Env) (k : Kernel)
    (this : ThreadRef) (th : Thread) :
  threads k !! this = Some th →
  wait_objects th = [] →
  is_waiting (status th) = true ∨ status th = Dormant →
  0 <= ideal_core th →
  cpu_cores k !! Z.to_nat (ideal_core th) = Some None →
  NUM_CPU_CORES k <= 4 →
  ∃ k' th',
    ResumeFromWait E k this = Ok k' ∧
    threads k' !! this = Some th' ∧
    status th' = Ready ∧
    processor_id th' = ideal_core th ∧
    scheduler th' = ideal_core th ∧
    ∃ earlier,
      calls k' = earlier ++
        [Scheduler_ScheduleThread (ideal_core th) this (current_priority th);
         Cpu_PrepareReschedule (ideal_core th)].
Proof.
  intros Hth Hobjects Hstatus Hpos Hidle Hcores.
  pose proof (lookup_lt_Some _ _ _ Hidle) as Hlt.
  unfold NUM_CPU_CORES in Hcores.
  set (k1 := assign this (set_status Ready) (assign this (set_wakeup_callback None) k)).
  destruct (GetNextProcessorId_returns k1 (affinity_mask th)) as [free Hfree].
  assert (Hcurrent : Scheduler_GetCurrentThread k1 (ideal_core th) = Ok None)
    by (by apply Scheduler_GetCurrentThread_lookup).
  assert (Hsched : Scheduler k1 (ideal_core th) = Ok (ideal_core th))
    by (apply Scheduler_in_range; unfold NUM_CPU_CORES; simpl; lia).
  assert (Hbody :
    (free ← GetNextProcessorId k1 (affinity_mask th);
     let new_processor_id :=
       match free with
       | Some index => index
       | None => processor_id th
       end in
     new_processor_id ←
       (if negb (ideal_core th =? -1) then
          current ← Scheduler_GetCurrentThread k1 (ideal_core th);
          Ok (if current is None then ideal_core th else new_processor_id)
        else Ok new_processor_id);
     _ ← ASSERT (new_processor_id <? 4) "*new_processor_id < 4";
     next_scheduler ← Scheduler k1 new_processor_id;
     let k2 :=
       if negb (new_processor_id =? processor_id th) then
         call (Scheduler_AddThread next_scheduler this (current_priority th))
           (call (Scheduler_RemoveThread (scheduler th) this) k1)
       else k1 in
     let k2 := assign this (set_processor_id new_processor_id) k2 in
     let k2 := call (Scheduler_UnscheduleThread (scheduler th) this (current_priority th)) k2 in
     let k2 := call (Scheduler_ScheduleThread next_scheduler this (current_priority th)) k2 in
     let k2 := assign this (set_scheduler next_scheduler) k2 in
     Ok (call (Cpu_PrepareReschedule new_processor_id) k2))
    = Ok (call (Cpu_PrepareReschedule (ideal_core th))
            (assign this (set_scheduler (ideal_core th))
               (call (Scheduler_ScheduleThread (ideal_core th) this (current_priority th))
                  (call (Scheduler_UnscheduleThread (scheduler th) this (current_priority th))
                     (assign this (set_processor_id (ideal_core th))
                        (if negb (ideal_core th =? processor_id th) then
                           call (Scheduler_AddThread (ideal_core th) this (current_priority th))
                             (call (Scheduler_RemoveThread (scheduler th) this) k1)
                         else k1))))))).
  { rewrite Hfree. simpl.
    destruct (Z.eqb_spec (ideal_core th) (-1)) as [|_]; [lia|]. simpl.
    rewrite Hcurrent. simpl.
    destruct (Z.ltb_spec (ideal_core th) 4) as [_|]; [|lia]. simpl.
    rewrite Hsched. reflexivity. }
  eexists _, (set_scheduler (ideal_core th)
                (set_processor_id (ideal_core th)
                   (set_status Ready (set_wakeup_callback None th)))).
  split.
  { unfold ResumeFromWait. rewrite (thread_at_lookup _ _ _ Hth). simpl.
    rewrite Hobjects. simpl.
    destruct Hstatus as [Hstatus|Hstatus].
    - destruct (status th); try discriminate Hstatus; exact Hbody.
    - rewrite Hstatus. exact Hbody. }
  split.
  { rewrite threads_call, lookup_assign_eq, !threads_call, lookup_assign_eq.
    assert (Hk1 : threads k1 !! this = Some (set_status Ready (set_wakeup_callback None th))).
    { unfold k1. by rewrite !lookup_assign_eq, Hth. }
    destruct (negb (ideal_core th =? processor_id th));
      rewrite ?threads_call, Hk1; reflexivity. }
  split; [done|]. split; [done|]. split; [done|].
  eexists. unfold call at 1 2. simpl. rewrite <- app_assoc. reflexivity.
Qed.

(** ** Resuming a thread that is not waiting *)

(** C5.  [ResumeFromWait] of a thread that is Ready returns the state it was
    given: status, scheduler, processor and the calls made to the schedulers
    are as before, so the thread is not scheduled a second time.  It returns
    whenever the thread has no wait objects left and no wakeup callback, and
    otherwise stops at one of its two assertions. *)
Theorem ResumeFromWait_Ready_is_noop (E : Env) (k : Kernel) (this : ThreadRef)
    (th : Thread) :
  threads k !! this = Some th →
  status th = Ready →
  (wait_objects th = [] → wakeup_callback th = None → ResumeFromWait E k this = Ok k) ∧
  (∀ k', ResumeFromWait E k this = Ok k' → k' = k) ∧
  (ResumeFromWait E k this = Ok k ∨
   ∃ what, ResumeFromWait E k this = Aborted (AssertionFailed what)).
Proof.
  intros Hth Hstatus. unfold ResumeFromWait.
  rewrite (thread_at_lookup _ _ _ Hth). simpl. rewrite Hstatus.
  destruct (wait_objects th) as [|o os]; simpl.
  - destruct (wakeup_callback th) as [callback|]; simpl.
    + split; [done|]. split; [done|]. right. eauto.
    + split; [done|]. split; [by intros k' [= <-]|]. by left.
  - split; [done|]. split; [done|]. right. eauto.
Qed.

(** C7.  [ResumeFromWait] of a thread that is Dead or Running, with no wait
    objects left, stops at an assertion only in a build that keeps debug
    assertions; in a build without them it returns the state unchanged. *)
Theorem ResumeFromWait_Dead_or_Running (E : Env) (k : Kernel) (this : ThreadRef)
    (th : Thread) :
  threads k !! this = Some th →
  wait_objects th = [] →
  status th = Dead ∨ status th = Running →
  (debug_asserts E = true →
   ∃ what, ResumeFromWait E k this = Aborted (AssertionFailed what)) ∧
  (debug_asserts E = false → ResumeFromWait E k this = Ok k).
Proof.
  intros Hth Hobjects Hstatus. unfold ResumeFromWait, DEBUG_ASSERT.
  rewrite (thread_at_lookup _ _ _ Hth). simpl. rewrite Hobjects. simpl.
  destruct Hstatus as [-> | ->]; destruct (debug_asserts E); simpl; split;
    first [done | intros _; reflexivity | intros _; eexists; reflexivity].
Qed.

(** C7, on the sample machine: a Dead thread and a Running thread are
    resumed, and the call returns the state as it was, with no assertion. *)
Lemma ResumeFromWait_Dead_returns :
  status <$> threads (state_of stopped_once) !! 0%nat = Some Dead ∧
  ResumeFromWait sample_env (state_of stopped_once) 0%nat = Ok (state_of stopped_once) ∧
  ResumeFromWait sample_env (assign 0%nat (set_status Running) (state_of resumed)) 0%nat
  = Ok (assign 0%nat (set_status Running) (state_of resumed)).
Proof. split; [|split]; vm_compute; reflexivity. Qed.

(** ** Creation *)

(** C10.  [Create] answers a priority above [THREADPRIO_LOWEST], a processor
    id above [THREADPROCESSORID_MAX] and an entry point that is not a valid
    address of the owner process with an error code, out of range for the
    first two, and leaves the kernel state as it was: no thread is made. *)
Theorem Create_rejects_invalid_arguments (E : Env) (k : Kernel) (name : string)
    (entry_point priority arg processor_id stack_top : Z) (owner_process : ProcRef) :
  THREADPRIO_LOWEST E < priority ∨
  THREADPROCESSORID_MAX E < processor_id ∨
  IsValidVirtualAddress E owner_process entry_point = false →
  ∃ code,
    Create E k name entry_point priority arg processor_id stack_top owner_process
    = Ok (Failed code, k) ∧
    (THREADPRIO_LOWEST E < priority → code = ERR_OUT_OF_RANGE) ∧
    (THREADPROCESSORID_MAX E < processor_id →
     code = ERR_OUT_OF_RANGE ∨ code = ERR_OUT_OF_RANGE_KERNEL).
Proof.
  intros Hinvalid. unfold Create.
  destruct (Z.ltb_spec (THREADPRIO_LOWEST E) priority) as [Hprio|Hprio].
  { eexists. split; [done|]. split; [done|]. by left. }
  destruct (Z.ltb_spec (THREADPROCESSORID_MAX E) processor_id) as [Hproc|Hproc].
  { eexists. split; [done|]. split; [lia|]. by right. }
  destruct Hinvalid as [?|[?|Hentry]]; [lia..|].
  rewrite Hentry. simpl. eexists. split; [done|]. split; lia.
Qed.

Lemma Create_rejects_invalid_arguments_witness :
  ∃ code,
    Create sample_env boot "main" 0x8000 64 0 0 0x7000 0%nat = Ok (Failed code, boot) ∧
    code = ERR_OUT_OF_RANGE.
Proof.
  destruct (Create_rejects_invalid_arguments sample_env boot "main" 0x8000 64 0 0 0x7000 0%nat)
    as (code & Hrun & Hprio & _).
  - left. vm_compute. reflexivity.
  - exists code. split; [exact Hrun|]. apply Hprio. vm_compute. reflexivity.
Defined.

(** ** Stopping a thread *)

(** C6.  [Stop] of a thread that is Dead already, as a first [Stop] leaves it,
    makes no call to [UnscheduleThread] of its own: that step is under
    [status == Ready].  The rest of the teardown has no such guard and runs
    again: the wakeup event is cancelled and the handle closed, the threads
    waiting on this one are woken, the wait objects are left, and the bit of
    the TLS slot of the thread is reset in the bitmap of the current
    process. *)
Theorem Stop_of_dead_thread (E : Env) (k : Kernel) (this : ThreadRef) (th : Thread)
    (k' : Kernel) :
  threads k !! this = Some th →
  status th = Dead →
  Stop E k this = Ok k' →
  let k1 :=
    assign this (set_status Dead)
      (assign this (set_callback_handle 0)
         (set_wakeup_callback_handle_table
            (delete (callback_handle th) (wakeup_callback_handle_table k))
            (call (CoreTiming_UnscheduleEvent (callback_handle th)) k))) in
  calls k1 = calls k ++ [CoreTiming_UnscheduleEvent (callback_handle th)] ∧
  ∃ k2 th2 pages page,
    WakeupAllWaitingThreads E this k1 = Ok k2 ∧
    threads k2 !! this = Some th2 ∧
    calls k' = calls k2
               ++ map (fun object => WaitObject_RemoveWaitingThread object this)
                    (wait_objects th2) ∧
    let offset := to_u64 (tls_address th2 - TLS_AREA_VADDR E) in
    let tls_page := Z.to_nat (offset / PAGE_SIZE E) in
    let tls_slot := (offset mod PAGE_SIZE E) / TLS_ENTRY_SIZE E in
    tls_slots k2 !! current_process k2 = Some pages ∧
    pages !! tls_page = Some page ∧
    tls_slots k' !! current_process k2
      = Some (<[tls_page := bitset_reset page tls_slot]> pages).
Proof.
  intros Hth Hstatus Hrun k1. split; [done|].
  revert Hrun. unfold Stop.
  rewrite (thread_at_lookup _ _ _ Hth). simpl. rewrite Hstatus. simpl.
  intros Hrun. apply bind_Ok in Hrun as (k2 & Hwake & Hrun).
  apply bind_Ok in Hrun as (th2 & Hth2 & Hrun). apply thread_at_Ok in Hth2.
  cbv zeta in Hrun. revert Hrun. set (k3 := assign this (set_wait_objects []) _).
  pose (remove := fun object => WaitObject_RemoveWaitingThread object this).
  assert (Hcalls : calls k3 = calls k2 ++ map remove (wait_objects th2))
    by exact (calls_foldl_call remove (wait_objects th2) k2).
  rewrite (tls_slots_foldl_call remove), (current_process_foldl_call remove).
  destruct (tls_slots k2 !! current_process k2) as [pages|] eqn:Hpages; [|done].
  destruct (pages !! _) as [page|] eqn:Hpage; [|done].
  destruct (8 <=? _); [done|]. intros [= <-].
  exists k2, th2, pages, page.
  split; [done|]. split; [done|]. split; [done|].
  split; [done|]. split; [done|]. simpl. by rewrite lookup_insert_eq.
Qed.

(** C6, on the sample machine: thread A is stopped, thread B is created and
    is given the TLS slot A had, and A is stopped a second time.  The second
    [Stop] returns and frees the slot again, the slot B lives in. *)
Lemma Stop_twice_frees_slot_again :
  tls_slots (state_of stopped_once) !! 0%nat = Some [0] ∧
  tls_slots (state_of slot_reused) !! 0%nat = Some [1] ∧
  tls_address <$> threads (state_of slot_reused) !! 1%nat
    = tls_address <$> threads (state_of slot_reused) !! 0%nat ∧
  ∃ k, stopped_twice = Ok k ∧
       status <$> threads k !! 0%nat = Some Dead ∧
       status <$> threads k !! 1%nat = Some Dormant ∧
       tls_slots k !! 0%nat = Some [0].
Proof.
  split; [by vm_compute|]. split; [by vm_compute|]. split; [by vm_compute|].
  eexists. split; [by vm_compute|]. split; [|split]; by vm_compute.
Qed.

Lemma Stop_of_dead_thread_witness :
  ∃ k', Stop sample_env (state_of slot_reused) 0%nat = Ok k' ∧
        ∃ earlier, calls k' = earlier ++ [CoreTiming_UnscheduleEvent 0].
Proof.
  assert (Hthread : ∃ th, threads (state_of slot_reused) !! 0%nat = Some th ∧
            status th = Dead ∧ callback_handle th = 0 ∧ wait_objects th = [])
    by (vm_compute; eexists; repeat split; reflexivity).
  destruct Hthread as (th & Hth & Hfacts).
  destruct Hfacts as (Hstatus & Hhandle & Hobjects).
  exists (state_of stopped_twice).
  assert (Hrun : Stop sample_env (state_of slot_reused) 0%nat = Ok (state_of stopped_twice))
    by (vm_compute; reflexivity).
  split; [exact Hrun|].
  destruct (Stop_of_dead_thread sample_env _ 0%nat th _ Hth Hstatus Hrun)
    as (Hcalls1 & k2 & th2 & pages & page & Hwake & Hth2 & Hcalls' & _).
  injection Hwake as <-.
  exists (calls (state_of slot_reused)).
  rewrite Hcalls', Hcalls1, Hhandle.
  assert (wait_objects th2 = []) as ->.
  { revert Hth2.
    rewrite !lookup_assign_eq, threads_set_wakeup_callback_handle_table, threads_call, Hth.
    simpl. intros [= <-]. exact Hobjects. }
  simpl. by rewrite app_nil_r.
Defined.

(** ** The theorems at work on the sample machine *)

Lemma ResumeFromWait_ChangeCore_same_placement_witness :
  let k := state_of (spawn boot "C" 44 2) in
  ∃ k',
    ResumeFromWait sample_env
      (assign 0%nat (set_status WaitSleep)
         (assign 0%nat (set_affinity_mask 3)
            (assign 0%nat (set_ideal_core (to_s32 3)) k))) 0%nat = Ok k' ∧
    ChangeCore
      (assign 0%nat (set_status Ready) (assign 0%nat (set_wakeup_callback None) k))
      0%nat 3 3 = Ok k' ∧
    processor_id <$> threads k' !! 0%nat = Some 3.
Proof.
  intros k.
  assert (Hthread : ∃ th, threads k !! 0%nat = Some th ∧ wait_objects th = [])
    by (vm_compute; eexists; split; reflexivity).
  destruct Hthread as (th & Hth & Hobjects).
  pose proof (ResumeFromWait_ChangeCore_same_placement sample_env k 0%nat th 3 3
                WaitSleep Hth Hobjects (or_introl eq_refl)) as Heq.
  exists (state_of (ChangeCore
            (assign 0%nat (set_status Ready) (assign 0%nat (set_wakeup_callback None) k))
            0%nat 3 3)).
  assert (Hrun : ChangeCore
            (assign 0%nat (set_status Ready) (assign 0%nat (set_wakeup_callback None) k))
            0%nat 3 3
          = Ok (state_of (ChangeCore
                  (assign 0%nat (set_status Ready)
                     (assign 0%nat (set_wakeup_callback None) k)) 0%nat 3 3)))
    by (vm_compute; reflexivity).
  split; [rewrite Heq; exact Hrun|]. split; [exact Hrun|]. vm_compute. reflexivity.
Defined.

Lemma ResumeFromWait_places_on_idle_ideal_core_witness :
  ∃ k', ResumeFromWait sample_env (state_of dormant_on_2) 0%nat = Ok k' ∧
        processor_id <$> threads (state_of dormant_on_2) !! 0%nat = Some 2 ∧
        processor_id <$> threads k' !! 0%nat = Some 3.
Proof.
  assert (Hthread : ∃ th, threads (state_of dormant_on_2) !! 0%nat = Some th ∧
            wait_objects th = [] ∧ status th = Dormant ∧ ideal_core th = 3)
    by (vm_compute; eexists; repeat split; reflexivity).
  destruct Hthread as (th & Hth & Hobjects & Hstatus & Hideal).
  destruct (ResumeFromWait_places_on_idle_ideal_core sample_env (state_of dormant_on_2)
              0%nat th Hth Hobjects (or_intror Hstatus))
    as (k' & th' & Hrun & Hth' & _ & Hprocessor & _).
  - rewrite Hideal. vm_compute. discriminate.
  - rewrite Hideal. vm_compute. reflexivity.
  - vm_compute. discriminate.
  - exists k'. split; [exact Hrun|]. split; [vm_compute; reflexivity|].
    rewrite Hth'. simpl. rewrite Hprocessor, Hideal. reflexivity.
Defined.

Lemma ResumeFromWait_Ready_is_noop_witness :
  status <$> threads (state_of resumed) !! 0%nat = Some Ready ∧
  ResumeFromWait sample_env (state_of resumed) 0%nat = Ok (state_of resumed).
Proof.
  assert (Hthread : ∃ th, threads (state_of resumed) !! 0%nat = Some th ∧
            status th = Ready ∧ wait_objects th = [] ∧ wakeup_callback th = None)
    by (vm_compute; eexists; repeat split; reflexivity).
  destruct Hthread as (th & Hth & Hstatus & Hobjects & Hcallback).
  split; [vm_compute; reflexivity|].
  exact (proj1 (ResumeFromWait_Ready_is_noop sample_env (state_of resumed) 0%nat th
                  Hth Hstatus) Hobjects Hcallback).
Defined.

Lemma ResumeFromWait_Dead_or_Running_witness :
  ResumeFromWait sample_env (state_of stopped_twice) 0%nat = Ok (state_of stopped_twice).
Proof.
  assert (Hthread : ∃ th, threads (state_of stopped_twice) !! 0%nat = Some th ∧
            status th = Dead ∧ wait_objects th = [])
    by (vm_compute; eexists; repeat split; reflexivity).
  destruct Hthread as (th & Hth & Hstatus & Hobjects).
  exact (proj2 (ResumeFromWait_Dead_or_Running sample_env (state_of stopped_twice)
                  0%nat th Hth Hobjects (or_introl Hstatus)) eq_refl).
Defined.

(** * The rest of the file: further properties *)

(** * Further properties of the code *)

(** ** Bit sets and masks *)

Lemma land_bit_testbit (mask i : Z) :
  0 <= i < 64 →
  (Z.land mask (to_u64 (Z.shiftl 1 i)) ≠ 0 ↔ Z.testbit mask i = true).
Proof.
  intros Hi. unfold to_u64.
  rewrite Z.shiftl_1_l, Z.mod_small
    by (split; [apply Z.pow_nonneg; lia | apply Z.pow_lt_mono_r; lia]).
  assert (Hland : Z.land mask (2 ^ i) = if Z.testbit mask i then 2 ^ i else 0).
  { apply Z.bits_inj'. intros n Hn. rewrite Z.land_spec, Z.pow2_bits_eqb by lia.
    destruct (Z.eqb_spec i n) as [->|Hne].
    - destruct (Z.testbit mask n) eqn:Hbit; simpl.
      + rewrite Z.pow2_bits_eqb, Z.eqb_refl by lia. done.
      + by rewrite Z.bits_0.
    - rewrite andb_false_r. destruct (Z.testbit mask i).
      + rewrite Z.pow2_bits_eqb by lia. symmetry. by apply Z.eqb_neq.
      + by rewrite Z.bits_0. }
  rewrite Hland. destruct (Z.testbit mask i); [|done].
  split; [done|]. intros _. assert (0 < 2 ^ i) by (apply Z.pow_pos_nonneg; lia). lia.
Qed.

Lemma bitset_all_spec (b : Z) :
  bitset_all b = true ↔ ∀ s, 0 <= s < 8 → bitset_test b s = true.
Proof.
  unfold bitset_all, bitset_test. rewrite Z.eqb_eq. split.
  - intros Hall s Hs.
    assert (Hbit : Z.testbit (Z.land b 255) s = true).
    { rewrite Hall. change 255 with (Z.ones 8). apply Z.ones_spec_low. lia. }
    rewrite Z.land_spec in Hbit. by apply andb_true_iff in Hbit as [? _].
  - intros Hall. apply Z.bits_inj'. intros n Hn. rewrite Z.land_spec.
    change 255 with (Z.ones 8).
    destruct (Z.lt_ge_cases n 8) as [Hlt|Hge].
    + rewrite Z.ones_spec_low by lia. rewrite Hall by lia. done.
    + rewrite Z.ones_spec_high by lia. apply andb_false_r.
Qed.

Lemma first_free_slot_spec (page_tls_slots : Z) (n : nat) (slot : Z) :
  match first_free_slot page_tls_slots n slot with
  | Some free =>
      slot <= free < slot + Z.of_nat n ∧
      bitset_test page_tls_slots free = false ∧
      ∀ s, slot <= s < free → bitset_test page_tls_slots s = true
  | None => ∀ s, slot <= s < slot + Z.of_nat n → bitset_test page_tls_slots s = true
  end.
Proof.
  revert slot. induction n as [|n IH]; intros slot; simpl; [intros s Hs; lia|].
  destruct (bitset_test page_tls_slots slot) eqn:Hbit; simpl.
  - specialize (IH (slot + 1)). destruct (first_free_slot _ _ _) as [free|].
    + destruct IH as (Hrange & Hfree & Hbefore). split; [lia|]. split; [done|].
      intros s Hs. destruct (decide (s = slot)) as [->|]; [done|]. apply Hbefore. lia.
    + intros s Hs. destruct (decide (s = slot)) as [->|]; [done|]. apply IH. lia.
  - split; [lia|]. split; [done|]. intros s Hs. lia.
Qed.

(** ** [GetFreeThreadLocalSlot] *)

#[local] Arguments first_free_slot : simpl never.

Lemma GetFreeThreadLocalSlot_loop_spec (tls_slots : list Z) (first : Z) :
  0 <= first →
  match GetFreeThreadLocalSlot_loop tls_slots first with
  | (page, slot, false) =>
      first <= page ∧ 0 <= slot < 8 ∧
      ∃ bits, tls_slots !! Z.to_nat (page - first) = Some bits ∧
              bitset_test bits slot = false ∧
              (∀ s, 0 <= s < slot → bitset_test bits s = true) ∧
              ∀ p full, (p < Z.to_nat (page - first))%nat → tls_slots !! p = Some full →
                        bitset_all full = true
  | (page, slot, true) =>
      page = 0 ∧ slot = 0 ∧ Forall (fun bits => bitset_all bits = true) tls_slots
  end.
Proof.
  revert first. induction tls_slots as [|bits rest IH]; intros first Hfirst; simpl.
  { done. }
  assert (Hnext : bitset_all bits = true →
    match GetFreeThreadLocalSlot_loop rest (first + 1) with
    | (page, slot, false) =>
        first <= page ∧ 0 <= slot < 8 ∧
        ∃ found, (bits :: rest) !! Z.to_nat (page - first) = Some found ∧
                bitset_test found slot = false ∧
                (∀ s, 0 <= s < slot → bitset_test found s = true) ∧
                ∀ p full, (p < Z.to_nat (page - first))%nat →
                          (bits :: rest) !! p = Some full → bitset_all full = true
    | (page, slot, true) =>
        page = 0 ∧ slot = 0 ∧ Forall (fun bits => bitset_all bits = true) (bits :: rest)
    end).
  { intros Hbits. specialize (IH (first + 1)).
    destruct (GetFreeThreadLocalSlot_loop rest (first + 1)) as [[page slot] [|]].
    - destruct IH as (-> & -> & Hall); [lia|]. split; [done|]. split; [done|].
      by constructor.
    - destruct IH as (Hpage & Hslot & found & Hfound & Hfree & Hbefore & Hfull); [lia|].
      split; [lia|]. split; [done|]. exists found.
      replace (Z.to_nat (page - first)) with (S (Z.to_nat (page - (first + 1)))) by lia.
      split; [done|]. split; [done|]. split; [done|].
      intros p full Hp. destruct p as [|p]; simpl.
      + by intros [= <-].
      + intros Hlook. apply (Hfull p); [lia | done]. }
  destruct (bitset_all bits) eqn:Hall; simpl.
  - by apply Hnext.
  - pose proof (first_free_slot_spec bits 8 0) as Hslot.
    destruct (first_free_slot bits 8 0) as [slot|].
    + destruct Hslot as (Hrange & Hfree & Hbefore).
      split; [lia|]. split; [lia|]. exists bits.
      replace (first - first) with 0 by lia. simpl.
      split; [done|]. split; [done|]. split; [done|]. intros p full Hp. lia.
    + exfalso. assert (bitset_all bits = true); [|congruence].
      apply bitset_all_spec. intros s Hs. apply Hslot. lia.
Qed.

Lemma GetFreeThreadLocalSlot_scan (tls_slots : list Z) :
  match GetFreeThreadLocalSlot tls_slots with
  | (page, slot, false) =>
      0 <= page ∧ 0 <= slot < 8 ∧
      ∃ bits, tls_slots !! Z.to_nat page = Some bits ∧
              bitset_test bits slot = false ∧
              (∀ s, 0 <= s < slot → bitset_test bits s = true) ∧
              ∀ p full, (p < Z.to_nat page)%nat → tls_slots !! p = Some full →
                        bitset_all full = true
  | (page, slot, true) =>
      page = 0 ∧ slot = 0 ∧ Forall (fun bits => bitset_all bits = true) tls_slots
  end.
Proof.
  unfold GetFreeThreadLocalSlot.
  pose proof (GetFreeThreadLocalSlot_loop_spec tls_slots 0) as Hspec.
  destruct (GetFreeThreadLocalSlot_loop tls_slots 0) as [[page slot] [|]].
  - by apply Hspec.
  - destruct Hspec as (Hpage & Hslot & bits & Hspec); [lia|].
    rewrite Z.sub_0_r in Hspec. eauto.
Qed.

(** X2.  [GetFreeThreadLocalSlot] answers with the first free slot of the
    first page that is not full: every page before it is full, every slot
    before it in the page is taken, and the slot itself is free.  It asks
    for a new page exactly when every page is full, and then names page 0 and
    slot 0. *)
Theorem GetFreeThreadLocalSlot_first_free (tls_slots : list Z) :
  match GetFreeThreadLocalSlot tls_slots with
  | (page, slot, false) =>
      0 <= page ∧ 0 <= slot < 8 ∧
      ∃ bits, tls_slots !! Z.to_nat page = Some bits ∧
              bitset_test bits slot = false ∧
              (∀ s, 0 <= s < slot → bitset_test bits s = true) ∧
              ∀ p full, (p < Z.to_nat page)%nat → tls_slots !! p = Some full →
                        bitset_all full = true
  | (page, slot, true) =>
      page = 0 ∧ slot = 0 ∧ Forall (fun bits => bitset_all bits = true) tls_slots
  end.
Proof. exact (GetFreeThreadLocalSlot_scan tls_slots). Qed.

(** ** [GetNextProcessorId] *)

(** X1.  On a machine of at most 64 cores [GetNextProcessorId] returns, and
    names the core of lowest index whose bit is set in the mask and whose
    scheduler runs no thread; it names none exactly when every core is
    masked out or busy. *)
Theorem GetNextProcessorId_lowest_idle_core (k : Kernel) (mask : Z) :
  NUM_CPU_CORES k <= 64 →
  ∃ free, GetNextProcessorId k mask = Ok free ∧
    match free with
    | Some core =>
        0 <= core < NUM_CPU_CORES k ∧
        Z.testbit mask core = true ∧
        cpu_cores k !! Z.to_nat core = Some None ∧
        ∀ i, 0 <= i < core →
             Z.testbit mask i = false ∨ ∃ t, cpu_cores k !! Z.to_nat i = Some (Some t)
    | None =>
        ∀ i, 0 <= i < NUM_CPU_CORES k →
             Z.testbit mask i = false ∨ ∃ t, cpu_cores k !! Z.to_nat i = Some (Some t)
    end.
Proof.
  intros Hcores. unfold NUM_CPU_CORES in *.
  destruct (GetNextProcessorId_loop_spec k mask (length (cpu_cores k)) 0)
    as (free & Hfree & Hspec); [lia..|].
  exists free. split; [done|].
  assert (Hbit : ∀ i, 0 <= i < Z.of_nat (length (cpu_cores k)) →
            Z.land mask (to_u64 (Z.shiftl 1 i)) = 0 → Z.testbit mask i = false).
  { intros i Hi Hzero. destruct (Z.testbit mask i) eqn:Htest; [|done].
    apply land_bit_testbit in Htest; [done | lia]. }
  destruct free as [core|].
  - destruct Hspec as (Hrange & Hmask & Hidle & Hbefore).
    split; [lia|]. split; [apply land_bit_testbit; [lia | done]|]. split; [done|].
    intros i Hi. destruct (Hbefore i Hi) as [Hzero|Hbusy]; [left|by right].
    apply Hbit; [lia | done].
  - intros i Hi. destruct (Hspec i) as [Hzero|Hbusy]; [lia | left | by right].
    by apply Hbit.
Qed.

Lemma GetNextProcessorId_lowest_idle_core_witness :
  GetNextProcessorId busy_but_3 15 = Ok (Some 3) ∧
  ∃ free, GetNextProcessorId busy_but_3 7 = Ok free.
Proof.
  split; [vm_compute; reflexivity|].
  destruct (GetNextProcessorId_lowest_idle_core busy_but_3 7) as (free & Hfree & _).
  - vm_compute. discriminate.
  - exists free. exact Hfree.
Defined.

(** ** [GetWaitObjectIndex] *)

Lemma find_from_rbegin_spec (reversed : list ObjRef) (object : ObjRef) :
  let found := find_from_rbegin reversed object in
  (found ≤ length reversed)%nat ∧
  (∀ j, (j < found)%nat → reversed !! j ≠ Some object) ∧
  ((found < length reversed)%nat → reversed !! found = Some object).
Proof.
  induction reversed as [|candidate rest IH]; simpl.
  { split; [lia|]. split; [by intros j _ | lia]. }
  destruct IH as (Hle & Hbefore & Hat).
  case_bool_decide as Hcandidate.
  - split; [lia|]. split; [intros j Hj; lia|]. intros _. simpl. by rewrite Hcandidate.
  - split; [lia|]. split.
    + intros [|j] Hj; simpl; [congruence|]. apply Hbefore. lia.
    + intros Hlt. simpl. apply Hat. lia.
Qed.

(** X16.  [GetWaitObjectIndex] asserts that the thread waits on something.
    It then answers with the index of the last place the object has in
    [wait_objects], or with -1 when the object is not among them. *)
Theorem GetWaitObjectIndex_last_occurrence (th : Thread) (object : ObjRef) :
  Z.of_nat (length (wait_objects th)) < 2 ^ 31 →
  (wait_objects th = [] →
   ∃ what, GetWaitObjectIndex th object = Aborted (AssertionFailed what)) ∧
  (wait_objects th ≠ [] → object ∉ wait_objects th →
   GetWaitObjectIndex th object = Ok (-1)) ∧
  (object ∈ wait_objects th →
   ∃ i : nat, GetWaitObjectIndex th object = Ok (Z.of_nat i) ∧
     wait_objects th !! i = Some object ∧
     ∀ j, (i < j)%nat → wait_objects th !! j ≠ Some object).
Proof.
  intros Hlen. unfold GetWaitObjectIndex.
  destruct (find_from_rbegin_spec (reverse (wait_objects th)) object) as (Hle & Hbefore & Hat).
  set (found := find_from_rbegin (reverse (wait_objects th)) object) in *.
  rewrite length_reverse in Hle, Hat.
  assert (Hs32 : ∀ z, - 2 ^ 31 <= z < 2 ^ 31 → to_s32 z = z).
  { intros z Hz. unfold to_s32. rewrite Z.mod_small; lia. }
  split; [|split].
  - intros ->. simpl. eauto.
  - intros Hne Hnotin. case_bool_decide; [done|]. simpl.
    assert (found = length (wait_objects th)) as ->.
    { destruct (decide (found < length (wait_objects th))%nat) as [Hlt|]; [|lia].
      exfalso. apply Hnotin. specialize (Hat Hlt).
      exact (proj1 (elem_of_reverse _ _) (list_elem_of_lookup_2 _ _ _ Hat)). }
    f_equal. rewrite Hs32; lia.
  - intros Hin.
    assert (Hne : wait_objects th ≠ []) by (intros Hnil; rewrite Hnil in Hin; inversion Hin).
    case_bool_decide; [done|]. simpl.
    assert (Hlt : (found < length (wait_objects th))%nat).
    { destruct (decide (found < length (wait_objects th))%nat) as [Hlt|Hge]; [done|].
      exfalso.
      destruct (list_elem_of_lookup_1 _ _ (proj2 (elem_of_reverse _ _) Hin)) as [j Hj].
      apply (Hbefore j); [|done]. apply lookup_lt_Some in Hj.
      rewrite length_reverse in Hj. lia. }
    specialize (Hat Hlt).
    exists (length (wait_objects th) - S found)%nat.
    split; [f_equal; rewrite Hs32; lia|]. split.
    + rewrite reverse_lookup in Hat by done. exact Hat.
    + intros j Hj Hlook. apply lookup_lt_Some in Hlook as Hjlen.
      apply (Hbefore (length (wait_objects th) - S j)%nat); [lia|].
      rewrite reverse_lookup by lia.
      replace (length (wait_objects th) - S (length (wait_objects th) - S j))%nat
        with j by lia. exact Hlook.
Qed.

Lemma GetWaitObjectIndex_last_occurrence_witness :
  ∃ th, threads (waiting_on_objects 2) !! 0%nat = Some th ∧
        GetWaitObjectIndex (set_wait_objects [5; 6; 5; 7]%nat th) 5%nat = Ok 2 ∧
        GetWaitObjectIndex (set_wait_objects [5; 6; 5; 7]%nat th) 9%nat = Ok (-1).
Proof.
  assert (Hthread : ∃ th, threads (waiting_on_objects 2) !! 0%nat = Some th)
    by (vm_compute; eexists; reflexivity).
  destruct Hthread as (th & Hth). exists th. split; [exact Hth|].
  destruct (GetWaitObjectIndex_last_occurrence (set_wait_objects [5; 6; 5; 7]%nat th) 9%nat)
    as (_ & Habsent & _); [simpl; lia|].
  split; [reflexivity|].
  apply Habsent; [discriminate|]. simpl. intros Hin.
  repeat (apply elem_of_cons in Hin as [Hin|Hin]; [discriminate Hin|]). inversion Hin.
Defined.

(** ** The work of [UpdatePriority] *)

Lemma same_machine_refl k : same_machine k k.
Proof. by repeat split. Qed.

Lemma same_machine_trans k1 k2 k3 :
  same_machine k1 k2 → same_machine k2 k3 → same_machine k1 k3.
Proof.
  intros (? & ? & ? & ? & ? & ?) (? & ? & ? & ? & ? & ?).
  repeat split; congruence.
Qed.

Lemma same_machine_assign t f k : same_machine k (assign t f k).
Proof. by repeat split. Qed.

Lemma same_machine_call c k : same_machine k (call c k).
Proof. by repeat split. Qed.

Lemma UpdatePriority_fuel_log fuel k this k' :
  UpdatePriority_fuel fuel k this = Ok k' →
  same_machine k k' ∧
  ∃ log, calls k' = calls k ++ log ∧
         (length log ≤ size (stale_threads k))%nat ∧
         Forall is_SetThreadPriority log.
Proof.
  revert k this k'. induction fuel as [|fuel IH]; intros k this k'; [done|].
  rewrite UpdatePriority_fuel_unfold.
  destruct (thread_at k this) as [th|] eqn:Hth; simpl; [|done].
  apply thread_at_Ok in Hth.
  destruct (highest_waiter_priority _ _ _) as [p|] eqn:Hp; simpl; [|done].
  destruct (Z.eqb_spec p (current_priority th)) as [Heq|Hne].
  { intros [= <-]. split; [apply same_machine_refl|].
    exists []. rewrite app_nil_r. split; [done|]. split; [simpl; lia | constructor]. }
  pose proof (stale_count_reprioritized k this th p Hth Hp Hne) as Hcount.
  assert (Hone : calls (reprioritized k this th p)
                 = calls k ++ [Scheduler_SetThreadPriority (scheduler th) this p]) by done.
  destruct (lock_owner th) as [owner|].
  - intros Hrec. destruct (IH _ _ _ Hrec) as (Hsame & log & Hlog & Hlen & Hall).
    split.
    { eapply same_machine_trans; [|exact Hsame]. by repeat split. }
    exists (Scheduler_SetThreadPriority (scheduler th) this p :: log).
    split; [rewrite Hlog, Hone, <- app_assoc; done|].
    split; [simpl; lia|]. by constructor.
  - intros [= <-]. split; [by repeat split|].
    exists [Scheduler_SetThreadPriority (scheduler th) this p].
    split; [done|]. split; [simpl; lia|]. by repeat constructor.
Qed.

Lemma set_current_priority_same th : set_current_priority (current_priority th) th = th.
Proof. by destruct th. Qed.

(** X3.  [UpdatePriority] returns on every state whose references are
    valid, cycles of lock owners included: it changes the priority of a thread
    at most once, so it makes at most as many [SetThreadPriority] calls as
    there are threads, and it calls nothing else. *)
Theorem UpdatePriority_work_is_bounded (k : Kernel) (this : ThreadRef) :
  refs_closed k →
  is_Some (threads k !! this) →
  ∃ k' log,
    UpdatePriority k this = Ok k' ∧
    calls k' = calls k ++ log ∧
    (length log ≤ size (threads k))%nat ∧
    Forall is_SetThreadPriority log.
Proof.
  intros Hclosed Hthis.
  destruct (UpdatePriority_returns k this Hclosed Hthis) as [k' Hrun].
  destruct (UpdatePriority_fuel_log _ _ _ _ Hrun) as (_ & log & Hlog & Hlen & Hall).
  exists k', log. split; [done|]. split; [done|]. split; [|done].
  pose proof (stale_count_le k). lia.
Qed.

Lemma UpdatePriority_work_is_bounded_witness :
  let k := assign 1%nat (set_nominal_priority 5) (state_of deadlocked) in
  lock_owner <$> threads k !! 0%nat = Some (Some 1%nat) ∧
  lock_owner <$> threads k !! 1%nat = Some (Some 0%nat) ∧
  ∃ k', UpdatePriority k 1%nat = Ok k' ∧
        calls k' = calls k ++ [Scheduler_SetThreadPriority 1 1 5;
                               Scheduler_SetThreadPriority 0 0 5].
Proof.
  intros k. split; [vm_compute; reflexivity|]. split; [vm_compute; reflexivity|].
  assert (Hclosed : refs_closed k) by compute_done.
  assert (Hthis : is_Some (threads k !! 1%nat)) by (vm_compute; eauto).
  destruct (UpdatePriority_work_is_bounded k 1%nat Hclosed Hthis)
    as (k' & log & Hrun & _ & _).
  assert (Hcomputed : ∃ kc, UpdatePriority k 1%nat = Ok kc ∧
            calls kc = calls k ++ [Scheduler_SetThreadPriority 1 1 5;
                                   Scheduler_SetThreadPriority 0 0 5])
    by (vm_compute; eexists; split; reflexivity).
  destruct Hcomputed as (kc & Hkc & Hcalls).
  exists k'. split; [exact Hrun|].
  rewrite Hrun in Hkc. injection Hkc as ->. exact Hcalls.
Defined.

(** X17.  [UpdatePriority] writes nothing but [current_priority]: every
    thread keeps its other members (nominal priority, status, waiters, lock
    owner, core), no thread appears or disappears, and the cores, the handle
    table and the TLS bitmaps are as before. *)
Theorem UpdatePriority_writes_current_priority_only (k : Kernel) (this : ThreadRef)
    (k' : Kernel) :
  UpdatePriority k this = Ok k' →
  same_machine k k' ∧
  ∀ i, match threads k !! i with
       | Some th => ∃ p, threads k' !! i = Some (set_current_priority p th)
       | None => threads k' !! i = None
       end.
Proof.
  intros Hrun. split; [by apply (UpdatePriority_fuel_log _ _ _ _ Hrun)|].
  apply UpdatePriority_fuel_settles in Hrun as (Hnone & Hsome & _).
  intros i. destruct (threads k !! i) as [th|] eqn:Hth; [|by apply Hnone].
  destruct (Hsome i th Hth) as (th' & Hth' & [->|(p & _ & ->)]).
  - exists (current_priority th). by rewrite set_current_priority_same.
  - eauto.
Qed.

Lemma UpdatePriority_writes_current_priority_only_witness :
  let k := assign 1%nat (set_nominal_priority 5) (state_of deadlocked) in
  ∃ k', UpdatePriority k 1%nat = Ok k' ∧ tls_slots k' = tls_slots k ∧
        nominal_priority <$> threads k' !! 0%nat = Some 30.
Proof.
  intros k.
  assert (Hreturns : ∃ k', UpdatePriority k 1%nat = Ok k')
    by (vm_compute; eexists; reflexivity).
  destruct Hreturns as (k' & Hrun). exists k'.
  destruct (UpdatePriority_writes_current_priority_only k 1%nat _ Hrun)
    as ((_ & _ & _ & Hslots & _) & Hthreads).
  split; [exact Hrun|]. split; [exact Hslots|].
  specialize (Hthreads 0%nat).
  assert (Hthread : ∃ th, threads k !! 0%nat = Some th ∧ nominal_priority th = 30)
    by (vm_compute; eexists; split; reflexivity).
  destruct Hthread as (th & Hth & Hnominal).
  rewrite Hth in Hthreads. destruct Hthreads as [p ->]. simpl. rewrite Hnominal.
  reflexivity.
Defined.

(** ** Priorities after the bookkeeping *)

Lemma nominal_priorities_ext k k' waiters :
  (∀ w, nominal_priority <$> threads k' !! w = nominal_priority <$> threads k !! w) →
  nominal_priorities k' waiters = nominal_priorities k waiters.
Proof.
  intros Hnom. unfold nominal_priorities.
  apply list_omap_ext. induction waiters as [|w ws IH]; constructor; [apply Hnom | done].
Qed.

Lemma nominal_assign t f k w :
  (∀ th, nominal_priority (f th) = nominal_priority th) →
  nominal_priority <$> threads (assign t f k) !! w = nominal_priority <$> threads k !! w.
Proof.
  intros Hf. destruct (decide (t = w)) as [->|Hne].
  - rewrite lookup_assign_eq. destruct (threads k !! w); simpl; [|done]. by rewrite Hf.
  - by rewrite lookup_assign_ne.
Qed.

Lemma foldr_min_snoc (base : Z) (ps : list Z) (p : Z) :
  foldr Z.min base (ps ++ [p]) = Z.min (foldr Z.min base ps) p.
Proof. induction ps as [|q ps IH]; simpl; [lia|]. rewrite IH. lia. Qed.

Lemma nominal_priorities_app k ws1 ws2 :
  nominal_priorities k (ws1 ++ ws2) = nominal_priorities k ws1 ++ nominal_priorities k ws2.
Proof. unfold nominal_priorities. apply omap_app. Qed.

Lemma is_Some_assign t f k i : is_Some (threads (assign t f k) !! i) ↔ is_Some (threads k !! i).
Proof. rewrite threads_assign. apply lookup_alter_is_Some. Qed.

(** Assignments that keep the references of a thread within the store keep
    the store closed. *)
Lemma refs_closed_assign t f k :
  refs_closed k →
  (∀ th, threads k !! t = Some th →
     (∀ w, w ∈ wait_mutex_threads (f th) → is_Some (threads k !! w)) ∧
     (∀ owner, lock_owner (f th) = Some owner → is_Some (threads k !! owner))) →
  refs_closed (assign t f k).
Proof.
  intros Hclosed Hf. apply refs_closed_intro. intros i x Hx.
  rewrite threads_assign in Hx. apply lookup_alter_Some in Hx.
  assert (Hrefs : (∀ w, w ∈ wait_mutex_threads x → is_Some (threads k !! w)) ∧
                  (∀ owner, lock_owner x = Some owner → is_Some (threads k !! owner))).
  { destruct Hx as [(-> & y & Hy & ->)|[_ Hx]]; [by apply Hf|].
    by apply (refs_closed_lookup k i). }
  destruct Hrefs as [Hw Ho].
  split; intros r Hr; apply is_Some_assign; eauto.
Qed.

(** The state [UpdatePriority] returns, with valid references: the thread is
    at the priority it inherits. *)
Lemma UpdatePriority_result k this th :
  refs_closed k → threads k !! this = Some th →
  ∃ k', UpdatePriority k this = Ok k' ∧
        threads k' !! this = Some (set_current_priority (effective_priority k th) th).
Proof.
  intros Hclosed Hth.
  destruct (UpdatePriority_returns k this Hclosed) as [k' Hrun]; [eauto|].
  exists k'. split; [done|].
  apply UpdatePriority_fuel_settles in Hrun as (_ & _ & th0 & Hth0 & p & Hp & ->).
  assert (th0 = th) as -> by congruence.
  destruct (refs_closed_lookup k this th Hclosed Hth) as [Hw _].
  rewrite (highest_waiter_priority_min _ _ _ Hw) in Hp. injection Hp as <-. done.
Qed.

(** What [UpdatePriority] keeps of every thread. *)
Lemma UpdatePriority_keeps k this k' i :
  UpdatePriority k this = Ok k' →
  match threads k !! i with
  | Some th => ∃ p, threads k' !! i = Some (set_current_priority p th)
  | None => threads k' !! i = None
  end.
Proof.
  intros Hrun. apply UpdatePriority_fuel_settles in Hrun as (Hnone & Hsome & _).
  destruct (threads k !! i) as [th|] eqn:Hth; [|by apply Hnone].
  destruct (Hsome i th Hth) as (th' & Hth' & [->|(p & _ & ->)]).
  - exists (current_priority th). by rewrite set_current_priority_same.
  - eauto.
Qed.

(** ** [BoostPriority] *)

(** X15.  A boost does not outlive the next recomputation: [BoostPriority]
    stores the priority it is given, and [UpdatePriority] of the same thread
    puts the thread back to the priority it inherits, whatever the boost
    was. *)
Theorem BoostPriority_undone_by_UpdatePriority (k : Kernel) (this : ThreadRef)
    (th : Thread) (priority : Z) :
  refs_closed k →
  threads k !! this = Some th →
  ∃ k1 k2,
    BoostPriority k this priority = Ok k1 ∧
    current_priority <$> threads k1 !! this = Some priority ∧
    nominal_priority <$> threads k1 !! this = Some (nominal_priority th) ∧
    UpdatePriority k1 this = Ok k2 ∧
    current_priority <$> threads k2 !! this = Some (effective_priority k th).
Proof.
  intros Hclosed Hth. unfold BoostPriority.
  rewrite (thread_at_lookup _ _ _ Hth). simpl.
  fold (reprioritized k this th priority).
  assert (Hth1 : threads (reprioritized k this th priority) !! this
                 = Some (set_current_priority priority th)).
  { unfold reprioritized. by rewrite lookup_assign_eq, threads_call, Hth. }
  destruct (UpdatePriority_result _ this _
              (refs_closed_reprioritized k this th priority Hclosed) Hth1)
    as (k2 & Hrun & Hth2).
  exists (reprioritized k this th priority), k2.
  split; [done|]. rewrite Hth1. split; [done|]. split; [done|]. split; [done|].
  rewrite Hth2. simpl. f_equal. unfold effective_priority. simpl. f_equal.
  apply nominal_priorities_ext, reprioritized_nominal.
Qed.

Lemma BoostPriority_undone_by_UpdatePriority_witness :
  ∃ k1 k2,
    BoostPriority (state_of chain_before) 0%nat 3 = Ok k1 ∧
    current_priority <$> threads k1 !! 0%nat = Some 3 ∧
    UpdatePriority k1 0%nat = Ok k2 ∧
    current_priority <$> threads k2 !! 0%nat = Some 20.
Proof.
  assert (Hclosed : refs_closed (state_of chain_before)) by compute_done.
  assert (Hthread : ∃ th, threads (state_of chain_before) !! 0%nat = Some th ∧
            effective_priority (state_of chain_before) th = 20)
    by (vm_compute; eexists; split; reflexivity).
  destruct Hthread as (th & Hth & Heff).
  destruct (BoostPriority_undone_by_UpdatePriority _ 0%nat th 3 Hclosed Hth)
    as (k1 & k2 & Hboost & Hcur1 & _ & Hrun & Hcur2).
  exists k1, k2. rewrite Heff in Hcur2.
  exact (conj Hboost (conj Hcur1 (conj Hrun Hcur2))).
Defined.

(** ** [SetPriority] *)

(** X14.  [SetPriority] stops at its assertion for a priority outside
    [THREADPRIO_HIGHEST .. THREADPRIO_LOWEST].  Within the range it returns
    with the nominal priority set and the current priority recomputed: the
    minimum of the new nominal priority and of the nominal priorities of the
    waiters. *)
Theorem SetPriority_sets_and_recomputes (E : Env) (k : Kernel) (this : ThreadRef)
    (th : Thread) (priority : Z) :
  refs_closed k →
  threads k !! this = Some th →
  (¬ (THREADPRIO_HIGHEST E <= priority <= THREADPRIO_LOWEST E) →
   SetPriority E k this priority = Aborted (AssertionFailed "Invalid priority value.")) ∧
  (THREADPRIO_HIGHEST E <= priority <= THREADPRIO_LOWEST E →
   ∃ k' th',
     SetPriority E k this priority = Ok k' ∧
     threads k' !! this = Some th' ∧
     nominal_priority th' = priority ∧
     current_priority th' = effective_priority k' th' ∧
     current_priority th' <= priority).
Proof.
  intros Hclosed Hth. unfold SetPriority. split.
  - intros Hrange.
    destruct (Z.leb_spec priority (THREADPRIO_LOWEST E));
      destruct (Z.leb_spec (THREADPRIO_HIGHEST E) priority); simpl; try done. lia.
  - intros Hrange.
    destruct (Z.leb_spec priority (THREADPRIO_LOWEST E)); [|lia].
    destruct (Z.leb_spec (THREADPRIO_HIGHEST E) priority); [|lia]. simpl.
    rewrite (thread_at_lookup _ _ _ Hth). simpl.
    set (k1 := assign this (set_nominal_priority priority) k).
    assert (Hth1 : threads k1 !! this = Some (set_nominal_priority priority th))
      by (unfold k1; by rewrite lookup_assign_eq, Hth).
    assert (Hclosed1 : refs_closed k1).
    { apply refs_closed_assign; [done|]. intros x Hx. simpl.
      by apply (refs_closed_lookup k this). }
    destruct (UpdatePriority_result k1 this _ Hclosed1 Hth1) as (k' & Hrun & Hth').
    exists k', (set_current_priority (effective_priority k1 (set_nominal_priority priority th))
                  (set_nominal_priority priority th)).
    split; [done|]. split; [done|]. split; [done|]. split.
    + simpl. unfold effective_priority. simpl. f_equal.
      apply nominal_priorities_ext. intros w.
      pose proof (UpdatePriority_keeps k1 this k' w Hrun) as Hkeep.
      destruct (threads k1 !! w) as [x|]; [destruct Hkeep as [p ->]; done | by rewrite Hkeep].
    + simpl. apply foldr_min_le_base.
Qed.

Lemma SetPriority_sets_and_recomputes_witness :
  SetPriority sample_env (state_of chain_before) 0%nat 64
    = Aborted (AssertionFailed "Invalid priority value.") ∧
  ∃ k', SetPriority sample_env (state_of chain_before) 0%nat 12 = Ok k' ∧
        priorities k' = [(2%nat, (10, 10)); (1%nat, (20, 20)); (0%nat, (12, 12))].
Proof.
  assert (Hclosed : refs_closed (state_of chain_before)) by compute_done.
  assert (Hthread : ∃ th, threads (state_of chain_before) !! 0%nat = Some th)
    by (vm_compute; eexists; reflexivity).
  destruct Hthread as (th & Hth).
  split.
  - apply (SetPriority_sets_and_recomputes sample_env _ 0%nat th 64 Hclosed Hth).
    vm_compute. intros [_ Hle]. apply Hle. reflexivity.
  - vm_compute. eexists. split; reflexivity.
Defined.

(** ** Mutex waiters *)

(** X4.  [AddMutexWaiter] of a thread that waits on nobody and is not in the
    list returns: the waiter's [lock_owner] is the owner, the waiter is the
    last element of the owner's [wait_mutex_threads], and the owner runs at
    the lower of the priority it inherited before and the waiter's nominal
    priority. *)
Theorem AddMutexWaiter_registers (k : Kernel) (this thread : ThreadRef)
    (me th : Thread) :
  refs_closed k →
  threads k !! this = Some me →
  threads k !! thread = Some th →
  lock_owner th = None →
  thread ∉ wait_mutex_threads me →
  ∃ k',
    AddMutexWaiter k this thread = Ok k' ∧
    lock_owner <$> threads k' !! thread = Some (Some this) ∧
    wait_mutex_threads <$> threads k' !! this = Some (wait_mutex_threads me ++ [thread]) ∧
    current_priority <$> threads k' !! this
      = Some (Z.min (effective_priority k me) (nominal_priority th)).
Proof.
  intros Hclosed Hme Hth Howner Hnotin. unfold AddMutexWaiter.
  rewrite (thread_at_lookup _ _ _ Hme), (thread_at_lookup _ _ _ Hth). simpl.
  rewrite Howner. destruct (decide (None = Some this)) as [|_]; [done|].
  simpl. rewrite bool_decide_eq_true_2 by done. simpl.
  set (k0 := assign thread (set_lock_owner (Some this)) k).
  set (k1 := assign this _ k0).
  assert (Hclosed0 : refs_closed k0).
  { apply refs_closed_assign; [done|]. intros x Hx. simpl. split.
    - by apply (refs_closed_lookup k thread).
    - intros owner [= <-]. eauto. }
  assert (Hclosed1 : refs_closed k1).
  { apply refs_closed_assign; [done|]. intros x Hx. simpl.
    destruct (refs_closed_lookup k0 this x Hclosed0 Hx) as [Hw Ho]. split; [|done].
    intros w Hw'. apply elem_of_app in Hw' as [Hw'|Hw']; [by apply Hw|].
    apply list_elem_of_singleton in Hw' as ->. apply is_Some_assign. eauto. }
  assert (Hnominal : ∀ w, nominal_priority <$> threads k1 !! w
                          = nominal_priority <$> threads k !! w).
  { intros w. unfold k1, k0. by rewrite !nominal_assign. }
  assert (Hme1 : ∃ me1, threads k1 !! this = Some me1 ∧
                   nominal_priority me1 = nominal_priority me ∧
                   wait_mutex_threads me1 = wait_mutex_threads me ++ [thread]).
  { unfold k1. rewrite lookup_assign_eq. unfold k0.
    destruct (decide (thread = this)) as [->|Hne].
    - rewrite lookup_assign_eq, Hme. simpl. eauto.
    - rewrite lookup_assign_ne, Hme by done. simpl. eauto. }
  destruct Hme1 as (me1 & Hme1 & Hnom1 & Hwaiters1).
  destruct (UpdatePriority_result k1 this me1 Hclosed1 Hme1) as (k' & Hrun & Hthis').
  exists k'. split; [done|]. split; [|split].
  - pose proof (UpdatePriority_keeps k1 this k' thread Hrun) as Hkeep.
    assert (Hth1 : ∃ th1, threads k1 !! thread = Some th1 ∧ lock_owner th1 = Some this).
    { unfold k1. destruct (decide (this = thread)) as [->|Hne].
      - rewrite lookup_assign_eq. unfold k0. rewrite lookup_assign_eq, Hth. simpl. eauto.
      - rewrite lookup_assign_ne by done. unfold k0.
        rewrite lookup_assign_eq, Hth. simpl. eauto. }
    destruct Hth1 as (th1 & Hth1 & Hown1). rewrite Hth1 in Hkeep.
    destruct Hkeep as [p ->]. simpl. by rewrite Hown1.
  - rewrite Hthis'. simpl. by rewrite Hwaiters1.
  - rewrite Hthis'. simpl. f_equal. unfold effective_priority.
    rewrite Hnom1, Hwaiters1, (nominal_priorities_ext k k1) by done.
    rewrite nominal_priorities_app.
    assert (nominal_priorities k [thread] = [nominal_priority th]) as ->
      by (unfold nominal_priorities; simpl; by rewrite Hth).
    apply foldr_min_snoc.
Qed.

Lemma AddMutexWaiter_registers_witness :
  ∃ k', AddMutexWaiter (state_of chain_before) 1%nat 2%nat = Ok k' ∧
        wait_mutex_threads <$> threads k' !! 1%nat = Some [2%nat] ∧
        current_priority <$> threads k' !! 1%nat = Some 10.
Proof.
  assert (Hclosed : refs_closed (state_of chain_before)) by compute_done.
  assert (Howner : ∃ me, threads (state_of chain_before) !! 1%nat = Some me ∧
            wait_mutex_threads me = [] ∧ effective_priority (state_of chain_before) me = 20)
    by (vm_compute; eexists; repeat split; reflexivity).
  assert (Hwaiter : ∃ th, threads (state_of chain_before) !! 2%nat = Some th ∧
            lock_owner th = None ∧ nominal_priority th = 10)
    by (vm_compute; eexists; repeat split; reflexivity).
  destruct Howner as (me & Hme & Hwaiters & Heff).
  destruct Hwaiter as (th & Hth & Hnone & Hnominal).
  destruct (AddMutexWaiter_registers _ 1%nat 2%nat me th Hclosed Hme Hth Hnone)
    as (k' & Hrun & _ & Hlist & Hcurrent).
  - rewrite Hwaiters. apply not_elem_of_nil.
  - exists k'. rewrite Hwaiters in Hlist. rewrite Heff, Hnominal in Hcurrent.
    exact (conj Hrun (conj Hlist Hcurrent)).
Defined.

(** X18.  [AddMutexWaiter] of a thread that already waits on this owner
    changes nothing, and stops at an assertion when the list of the owner
    does not have the thread; of a thread that waits on another owner it
    stops at an assertion, as it does for a thread that is in the list
    without having this owner. *)
Theorem AddMutexWaiter_rejects_or_ignores (k : Kernel) (this thread : ThreadRef)
    (me th : Thread) :
  threads k !! this = Some me →
  threads k !! thread = Some th →
  (lock_owner th = Some this → thread ∈ wait_mutex_threads me →
   AddMutexWaiter k this thread = Ok k) ∧
  (lock_owner th = Some this → thread ∉ wait_mutex_threads me →
   ∃ what, AddMutexWaiter k this thread = Aborted (AssertionFailed what)) ∧
  (∀ other, lock_owner th = Some other → other ≠ this →
   AddMutexWaiter k this thread
   = Aborted (AssertionFailed "thread->lock_owner == nullptr")) ∧
  (lock_owner th = None → thread ∈ wait_mutex_threads me →
   AddMutexWaiter k this thread
   = Aborted (AssertionFailed "itr == wait_mutex_threads.end()")).
Proof.
  intros Hme Hth. unfold AddMutexWaiter.
  rewrite (thread_at_lookup _ _ _ Hme), (thread_at_lookup _ _ _ Hth). simpl.
  split; [|split; [|split]].
  - intros -> Hin. rewrite decide_True by done.
    rewrite bool_decide_eq_true_2 by done. done.
  - intros -> Hnotin. rewrite decide_True by done.
    rewrite bool_decide_eq_false_2 by done. simpl. eauto.
  - intros other -> Hne. rewrite decide_False by congruence. done.
  - intros -> Hin. rewrite decide_False by done. simpl.
    rewrite bool_decide_eq_false_2 by (intros Hnotin; by apply Hnotin). done.
Qed.

Lemma AddMutexWaiter_rejects_or_ignores_witness :
  AddMutexWaiter (state_of chain_after) 1%nat 2%nat = Ok (state_of chain_after) ∧
  AddMutexWaiter (state_of chain_after) 0%nat 2%nat
  = Aborted (AssertionFailed "thread->lock_owner == nullptr").
Proof.
  assert (Howner : ∃ me, threads (state_of chain_after) !! 1%nat = Some me ∧
            wait_mutex_threads me = [2%nat])
    by (vm_compute; eexists; repeat split; reflexivity).
  assert (Hwaiter : ∃ th, threads (state_of chain_after) !! 2%nat = Some th ∧
            lock_owner th = Some 1%nat)
    by (vm_compute; eexists; repeat split; reflexivity).
  assert (Hother : ∃ me, threads (state_of chain_after) !! 0%nat = Some me)
    by (vm_compute; eexists; reflexivity).
  destruct Howner as (me & Hme & Hwaiters).
  destruct Hwaiter as (th & Hth & Hlock).
  destruct Hother as (me0 & Hme0).
  split.
  - apply (AddMutexWaiter_rejects_or_ignores _ 1%nat 2%nat me th Hme Hth);
      [exact Hlock|]. rewrite Hwaiters. left.
  - apply (proj1 (proj2 (proj2 (AddMutexWaiter_rejects_or_ignores _ 0%nat 2%nat
                                  me0 th Hme0 Hth))) 1%nat); [exact Hlock | discriminate].
Defined.

(** [RemoveMutexWaiter] of a registered waiter returns. *)
Lemma RemoveMutexWaiter_returns (k : Kernel) (this thread : ThreadRef) (me th : Thread) :
  refs_closed k →
  threads k !! this = Some me →
  threads k !! thread = Some th →
  lock_owner th = Some this → thread ∈ wait_mutex_threads me →
  ∃ k' me',
    RemoveMutexWaiter k this thread = Ok k' ∧
    threads k' !! this = Some me' ∧
    wait_mutex_threads me' = filter (fun w => (w ≠ thread)) (wait_mutex_threads me) ∧
    (thread ∉ wait_mutex_threads me') ∧
    lock_owner <$> threads k' !! thread = Some None ∧
    current_priority me' = effective_priority k' me'.
Proof.
  intros Hclosed Hme Hth Howner Hin. unfold RemoveMutexWaiter.
  rewrite (thread_at_lookup _ _ _ Hme), (thread_at_lookup _ _ _ Hth).
  cbn [mbind result_bind].
  rewrite (bool_decide_eq_true_2 _ Howner), (bool_decide_eq_true_2 _ Hin). simpl.
  set (k0 := assign this _ k).
  set (k1 := assign thread (set_lock_owner None) k0).
  assert (Hclosed0 : refs_closed k0).
  { apply refs_closed_assign; [done|]. intros x Hx. simpl.
    destruct (refs_closed_lookup k this x Hclosed Hx) as [Hw Ho]. split; [|done].
    intros w Hw'. apply list_elem_of_filter in Hw' as [_ Hw']. by apply Hw. }
  assert (Hclosed1 : refs_closed k1).
  { apply refs_closed_assign; [done|]. intros x Hx. simpl. split; [|done].
    by apply (refs_closed_lookup k0 thread). }
  assert (Hme1 : ∃ me1, threads k1 !! this = Some me1 ∧
                   wait_mutex_threads me1
                   = filter (fun w => w ≠ thread) (wait_mutex_threads me)).
  { unfold k1. destruct (decide (thread = this)) as [->|Hne].
    - rewrite lookup_assign_eq. unfold k0. rewrite lookup_assign_eq, Hme. simpl. eauto.
    - rewrite lookup_assign_ne by done. unfold k0. rewrite lookup_assign_eq, Hme.
      simpl. eauto. }
  destruct Hme1 as (me1 & Hme1 & Hwaiters1).
  destruct (UpdatePriority_result k1 this me1 Hclosed1 Hme1) as (k' & Hrun & Hthis').
  exists k', (set_current_priority (effective_priority k1 me1) me1).
  split; [done|]. split; [done|]. split; [done|]. split; [|split].
  - simpl. rewrite Hwaiters1. intros Hin'. apply list_elem_of_filter in Hin' as [Hne _].
    done.
  - pose proof (UpdatePriority_keeps k1 this k' thread Hrun) as Hkeep.
    assert (Hth1 : ∃ th1, threads k1 !! thread = Some th1 ∧ lock_owner th1 = None).
    { unfold k1. rewrite lookup_assign_eq.
      destruct (threads k0 !! thread) as [x|] eqn:Hx; simpl; [eauto|].
      exfalso. assert (is_Some (threads k0 !! thread)) as [? ?]; [|congruence].
      apply is_Some_assign. eauto. }
    destruct Hth1 as (th1 & Hth1 & Hown1). rewrite Hth1 in Hkeep.
    destruct Hkeep as [p ->]. simpl. by rewrite Hown1.
  - simpl. unfold effective_priority. simpl. f_equal.
    apply nominal_priorities_ext. intros w.
    pose proof (UpdatePriority_keeps k1 this k' w Hrun) as Hkeep.
    destruct (threads k1 !! w) as [x|]; [destruct Hkeep as [p ->]; done | by rewrite Hkeep].
Qed.

(** What [RemoveMutexWaiter] keeps of every thread. *)
Lemma RemoveMutexWaiter_keeps (k : Kernel) (this thread : ThreadRef) (k' : Kernel)
    (i : ThreadRef) :
  RemoveMutexWaiter k this thread = Ok k' →
  match threads k !! i with
  | Some x => ∃ p, threads k' !! i = Some (set_current_priority p (unregistered this thread i x))
  | None => threads k' !! i = None
  end.
Proof.
  unfold RemoveMutexWaiter. intros Hrun.
  apply bind_Ok in Hrun as (me & _ & Hrun).
  apply bind_Ok in Hrun as (th & _ & Hrun).
  apply bind_Ok in Hrun as (u1 & _ & Hrun).
  apply bind_Ok in Hrun as (u2 & _ & Hrun).
  pose proof (UpdatePriority_keeps _ this k' i Hrun) as Hkeep.
  unfold unregistered.
  destruct (decide (i = thread)) as [->|Hthread].
  - rewrite lookup_assign_eq in Hkeep.
    destruct (decide (thread = this)) as [->|Hthis].
    + rewrite lookup_assign_eq in Hkeep. by destruct (threads k !! this).
    + rewrite lookup_assign_ne in Hkeep by done. by destruct (threads k !! thread).
  - rewrite lookup_assign_ne in Hkeep by done.
    destruct (decide (i = this)) as [->|Hthis].
    + rewrite lookup_assign_eq in Hkeep. by destruct (threads k !! this).
    + rewrite lookup_assign_ne in Hkeep by done. by destruct (threads k !! i).
Qed.

(** X13.  [RemoveMutexWaiter] stops at an assertion when the thread does not
    have this owner.  Otherwise it returns: the thread is nowhere in the
    owner's [wait_mutex_threads] any more, its [lock_owner] is empty, and the
    owner runs at the priority it inherits from the waiters that are left. *)
Theorem RemoveMutexWaiter_unregisters (k : Kernel) (this thread : ThreadRef)
    (me th : Thread) :
  refs_closed k →
  threads k !! this = Some me →
  threads k !! thread = Some th →
  (lock_owner th ≠ Some this →
   RemoveMutexWaiter k this thread
   = Aborted (AssertionFailed "thread->lock_owner == this")) ∧
  (lock_owner th = Some this → thread ∈ wait_mutex_threads me →
   ∃ k' me',
     RemoveMutexWaiter k this thread = Ok k' ∧
     threads k' !! this = Some me' ∧
     wait_mutex_threads me' = filter (fun w => (w ≠ thread)) (wait_mutex_threads me) ∧
     (thread ∉ wait_mutex_threads me') ∧
     lock_owner <$> threads k' !! thread = Some None ∧
     current_priority me' = effective_priority k' me').
Proof.
  intros Hclosed Hme Hth. split.
  - intros Hne. unfold RemoveMutexWaiter.
    rewrite (thread_at_lookup _ _ _ Hme), (thread_at_lookup _ _ _ Hth).
    cbn [mbind result_bind]. rewrite (bool_decide_eq_false_2 _ Hne). reflexivity.
  - by apply RemoveMutexWaiter_returns.
Qed.

Lemma RemoveMutexWaiter_unregisters_witness :
  RemoveMutexWaiter (state_of chain_after) 0%nat 2%nat
    = Aborted (AssertionFailed "thread->lock_owner == this") ∧
  ∃ k', RemoveMutexWaiter (state_of chain_after) 1%nat 2%nat = Ok k' ∧
        priorities k' = [(2%nat, (10, 10)); (1%nat, (20, 20)); (0%nat, (30, 20))].
Proof.
  assert (Hclosed : refs_closed (state_of chain_after)) by compute_done.
  assert (Hother : ∃ me, threads (state_of chain_after) !! 0%nat = Some me)
    by (vm_compute; eexists; reflexivity).
  assert (Hwaiter : ∃ th, threads (state_of chain_after) !! 2%nat = Some th ∧
            lock_owner th = Some 1%nat)
    by (vm_compute; eexists; repeat split; reflexivity).
  destruct Hother as (me0 & Hme0).
  destruct Hwaiter as (th & Hth & Hlock).
  split.
  - apply (RemoveMutexWaiter_unregisters _ 0%nat 2%nat me0 th Hclosed Hme0 Hth).
    rewrite Hlock. discriminate.
  - vm_compute. eexists. split; reflexivity.
Defined.

(** ** Registering a waiter and removing it again *)

Lemma threads_assign_insert t f k x :
  threads k !! t = Some x → threads (assign t f k) = <[t := f x]> (threads k).
Proof.
  intros Hx. rewrite threads_assign. apply map_eq. intros i.
  destruct (decide (t = i)) as [->|Hne].
  - by rewrite lookup_alter_eq, lookup_insert_eq, Hx.
  - by rewrite lookup_alter_ne, lookup_insert_ne.
Qed.

Lemma effective_priority_ext k k' th th' :
  (∀ w, nominal_priority <$> threads k' !! w = nominal_priority <$> threads k !! w) →
  nominal_priority th' = nominal_priority th →
  wait_mutex_threads th' = wait_mutex_threads th →
  effective_priority k' th' = effective_priority k th.
Proof.
  intros Hnom Hown Hwaiters. unfold effective_priority.
  by rewrite Hown, Hwaiters, (nominal_priorities_ext k k').
Qed.

(** [UpdatePriority] of a thread whose lock owner, if any, is at the priority
    it inherits: one step. *)
Lemma UpdatePriority_one_hop k this me :
  refs_closed k →
  threads k !! this = Some me →
  (∀ i x, i ≠ this → threads k !! i = Some x →
          current_priority x = effective_priority k x) →
  ∃ k', UpdatePriority k this = Ok k' ∧
        same_machine k k' ∧
        threads k' = <[this := set_current_priority (effective_priority k me) me]> (threads k).
Proof.
  intros Hclosed Hme Hothers.
  destruct (refs_closed_lookup k this me Hclosed Hme) as [Hw Ho].
  rewrite UpdatePriority_unfold, (thread_at_lookup _ _ _ Hme). simpl.
  rewrite (highest_waiter_priority_min _ _ _ Hw). simpl.
  fold (effective_priority k me). set (p := effective_priority k me).
  destruct (Z.eqb_spec p (current_priority me)) as [Heq|Hne].
  { exists k. split; [done|]. split; [apply same_machine_refl|].
    rewrite Heq, set_current_priority_same. symmetry. by apply insert_id. }
  assert (Hthreads : threads (reprioritized k this me p)
                     = <[this := set_current_priority p me]> (threads k)).
  { unfold reprioritized. rewrite (threads_assign_insert _ _ _ me); [done|].
    by rewrite threads_call. }
  assert (Hsame : same_machine k (reprioritized k this me p)) by (by repeat split).
  destruct (lock_owner me) as [owner|] eqn:Howner; [|eauto].
  exists (reprioritized k this me p). split; [|done].
  pose proof (refs_closed_reprioritized k this me p Hclosed) as Hclosed'.
  destruct (Ho owner eq_refl) as [x Hx].
  rewrite UpdatePriority_unfold.
  destruct (decide (owner = this)) as [->|Hdiff].
  - assert (Hme' : threads (reprioritized k this me p) !! this
                   = Some (set_current_priority p me))
      by (by rewrite Hthreads, lookup_insert_eq).
    rewrite (thread_at_lookup _ _ _ Hme'). simpl.
    rewrite (highest_waiter_priority_ext k) by apply reprioritized_nominal.
    rewrite (highest_waiter_priority_min _ _ _ Hw). simpl.
    fold (effective_priority k me). fold p. by rewrite Z.eqb_refl.
  - assert (Hx' : threads (reprioritized k this me p) !! owner = Some x)
      by (by rewrite Hthreads, lookup_insert_ne).
    rewrite (thread_at_lookup _ _ _ Hx'). simpl.
    rewrite (highest_waiter_priority_ext k) by apply reprioritized_nominal.
    destruct (refs_closed_lookup k owner x Hclosed Hx) as [Hwx _].
    rewrite (highest_waiter_priority_min _ _ _ Hwx). simpl.
    fold (effective_priority k x). rewrite <- (Hothers owner x Hdiff Hx).
    by rewrite Z.eqb_refl.
Qed.

(** X5.  With every thread at the priority it inherits, registering a thread
    as a waiter of another and removing it again puts every thread back as it
    was: lock owner, list of waiters and both priorities.  Only calls to
    [SetThreadPriority] are left of the two operations. *)
Theorem AddMutexWaiter_RemoveMutexWaiter_round_trip (k : Kernel)
    (this thread : ThreadRef) (me th : Thread) :
  refs_closed k →
  priorities_settled k →
  threads k !! this = Some me →
  threads k !! thread = Some th →
  thread ≠ this →
  lock_owner th = None →
  thread ∉ wait_mutex_threads me →
  ∃ k1 k2,
    AddMutexWaiter k this thread = Ok k1 ∧
    RemoveMutexWaiter k1 this thread = Ok k2 ∧
    threads k2 = threads k ∧
    same_machine k k2.
Proof.
  intros Hclosed Hsettled Hme Hth Hdiff Howner Hnotin.
  (* registering *)
  unfold AddMutexWaiter.
  rewrite (thread_at_lookup _ _ _ Hme), (thread_at_lookup _ _ _ Hth).
  cbn [mbind result_bind]. rewrite Howner, decide_False by done.
  rewrite (bool_decide_eq_true_2 (None = None) eq_refl).
  rewrite (bool_decide_eq_true_2 _ Hnotin). cbn [ASSERT mbind result_bind].
  set (ka := assign this _ (assign thread (set_lock_owner (Some this)) k)).
  set (me_a := set_wait_mutex_threads (wait_mutex_threads me ++ [thread]) me).
  set (th_a := set_lock_owner (Some this) th).
  assert (Hka : threads ka = <[this := me_a]> (<[thread := th_a]> (threads k))).
  { unfold ka. rewrite (threads_assign_insert _ _ _ me).
    - by rewrite (threads_assign_insert _ _ _ th).
    - by rewrite lookup_assign_ne. }
  assert (Hnominal_a : ∀ w, nominal_priority <$> threads ka !! w
                            = nominal_priority <$> threads k !! w).
  { intros w. unfold ka. by rewrite !nominal_assign. }
  assert (Hclosed_a : refs_closed ka).
  { unfold ka. apply refs_closed_assign.
    - apply refs_closed_assign; [done|]. intros x Hx. simpl. split.
      + by apply (refs_closed_lookup k thread).
      + intros owner [= <-]. eauto.
    - intros x Hx. simpl. rewrite lookup_assign_ne in Hx by done.
      destruct (refs_closed_lookup k this x Hclosed Hx) as [Hw Ho]. split.
      + intros w Hw'. apply is_Some_assign.
        apply elem_of_app in Hw' as [Hw'|Hw']; [by apply Hw|].
        apply list_elem_of_singleton in Hw' as ->. eauto.
      + intros owner Hown. apply is_Some_assign. by apply Ho. }
  assert (Hme_a : threads ka !! this = Some me_a) by (by rewrite Hka, lookup_insert_eq).
  assert (Hothers_a : ∀ i x, i ≠ this → threads ka !! i = Some x →
                             current_priority x = effective_priority ka x).
  { intros i x Hi. rewrite Hka, lookup_insert_ne by done.
    rewrite lookup_insert. case_decide as Hcase.
    - intros [= <-]. subst i. simpl. rewrite (Hsettled thread th Hth).
      symmetry. by apply effective_priority_ext.
    - intros Hx. rewrite (Hsettled i x Hx). symmetry. by apply effective_priority_ext. }
  destruct (UpdatePriority_one_hop ka this me_a Hclosed_a Hme_a Hothers_a)
    as (k1 & Hrun1 & Hsame1 & Hk1).
  exists k1. rewrite Hka, insert_insert_eq in Hk1.
  set (me_1 := set_current_priority (effective_priority ka me_a) me_a) in Hk1.
  (* removing *)
  assert (Hme_1 : threads k1 !! this = Some me_1) by (by rewrite Hk1, lookup_insert_eq).
  assert (Hth_1 : threads k1 !! thread = Some th_a)
    by (by rewrite Hk1, lookup_insert_ne, lookup_insert_eq).
  unfold RemoveMutexWaiter.
  rewrite (thread_at_lookup _ _ _ Hme_1), (thread_at_lookup _ _ _ Hth_1).
  cbn [mbind result_bind].
  rewrite (bool_decide_eq_true_2 (lock_owner th_a = Some this) eq_refl).
  assert (Hin_1 : thread ∈ wait_mutex_threads me_1)
    by (simpl; apply elem_of_app; right; by left).
  rewrite (bool_decide_eq_true_2 _ Hin_1). cbn [ASSERT mbind result_bind].
  set (kr := assign thread (set_lock_owner None) (assign this _ k1)).
  assert (Hfilter : filter (fun w => w ≠ thread) (wait_mutex_threads me_1)
                    = wait_mutex_threads me).
  { simpl. rewrite filter_app. rewrite filter_cons_False by (intros Hne; by apply Hne).
    rewrite filter_nil, app_nil_r.
    clear -Hnotin. induction (wait_mutex_threads me) as [|w ws IH]; [done|].
    rewrite filter_cons_True by (intros ->; apply Hnotin; by left).
    f_equal. apply IH. intros Hin. apply Hnotin. by right. }
  set (me_r := set_current_priority (effective_priority ka me_a) me).
  assert (Hkr : threads kr = <[thread := th]> (<[this := me_r]> (threads k1))).
  { unfold kr. rewrite (threads_assign_insert _ _ _ th_a).
    - rewrite (threads_assign_insert _ _ _ me_1) by done. cbv beta.
      f_equal; [|f_equal].
      + unfold th_a. destruct th; simpl in *. by subst.
      + rewrite Hfilter. unfold me_r, me_1, me_a. by destruct me.
    - by rewrite lookup_assign_ne. }
  assert (Hkr_k : ∀ i, i ≠ this → threads kr !! i = threads k !! i).
  { intros i Hi. rewrite Hkr, Hk1. rewrite lookup_insert. case_decide as Hcase.
    - by subst i.
    - rewrite lookup_insert_ne, lookup_insert_ne, lookup_insert_ne by done. done. }
  assert (Hme_r : threads kr !! this = Some me_r)
    by (by rewrite Hkr, lookup_insert_ne, lookup_insert_eq).
  assert (Hnominal_r : ∀ w, nominal_priority <$> threads kr !! w
                            = nominal_priority <$> threads k !! w).
  { intros w. destruct (decide (w = this)) as [->|Hw].
    - by rewrite Hme_r, Hme.
    - by rewrite Hkr_k. }
  assert (Hclosed_r : refs_closed kr).
  { apply refs_closed_intro. intros i x Hx.
    assert (Hrefs : ∃ y, threads k !! i = Some y ∧
                      wait_mutex_threads x = wait_mutex_threads y ∧
                      lock_owner x = lock_owner y).
    { destruct (decide (i = this)) as [->|Hi].
      - rewrite Hme_r in Hx. injection Hx as <-. eauto.
      - rewrite Hkr_k in Hx by done. eauto. }
    destruct Hrefs as (y & Hy & -> & ->).
    destruct (refs_closed_lookup k i y Hclosed Hy) as [Hw Ho].
    assert (Hdom : ∀ r, is_Some (threads k !! r) → is_Some (threads kr !! r)).
    { intros r Hr. destruct (decide (r = this)) as [->|Hne]; [by rewrite Hme_r|].
      by rewrite Hkr_k. }
    split; intros r Hr; apply Hdom; eauto. }
  assert (Hothers_r : ∀ i x, i ≠ this → threads kr !! i = Some x →
                             current_priority x = effective_priority kr x).
  { intros i x Hi. rewrite Hkr_k by done. intros Hx. rewrite (Hsettled i x Hx).
    symmetry. by apply effective_priority_ext. }
  destruct (UpdatePriority_one_hop kr this me_r Hclosed_r Hme_r Hothers_r)
    as (k2 & Hrun2 & Hsame2 & Hk2).
  exists k2. split; [exact Hrun1|]. split; [exact Hrun2|]. split.
  - rewrite Hk2. apply map_eq. intros i.
    destruct (decide (i = this)) as [->|Hi].
    + rewrite lookup_insert_eq, Hme. f_equal.
      assert (effective_priority kr me_r = current_priority me) as ->.
      { rewrite (Hsettled this me Hme). by apply effective_priority_ext. }
      unfold me_r. by destruct me.
    + rewrite lookup_insert_ne by done. by apply Hkr_k.
  - eapply same_machine_trans; [|exact Hsame2].
    eapply same_machine_trans; [|apply same_machine_assign].
    eapply same_machine_trans; [|apply same_machine_assign].
    eapply same_machine_trans; [|exact Hsame1].
    eapply same_machine_trans; apply same_machine_assign.
Qed.

Lemma AddMutexWaiter_RemoveMutexWaiter_round_trip_witness :
  ∃ k1 k2,
    AddMutexWaiter (state_of chain_before) 1%nat 2%nat = Ok k1 ∧
    RemoveMutexWaiter k1 1%nat 2%nat = Ok k2 ∧
    threads k2 = threads (state_of chain_before).
Proof.
  assert (Hclosed : refs_closed (state_of chain_before)) by compute_done.
  assert (Hsettled : priorities_settled (state_of chain_before)) by compute_done.
  assert (Howner : ∃ me, threads (state_of chain_before) !! 1%nat = Some me ∧
            wait_mutex_threads me = [])
    by (vm_compute; eexists; repeat split; reflexivity).
  assert (Hwaiter : ∃ th, threads (state_of chain_before) !! 2%nat = Some th ∧
            lock_owner th = None)
    by (vm_compute; eexists; repeat split; reflexivity).
  destruct Howner as (me & Hme & Hwaiters).
  destruct Hwaiter as (th & Hth & Hnone).
  destruct (AddMutexWaiter_RemoveMutexWaiter_round_trip _ 1%nat 2%nat me th
              Hclosed Hsettled Hme Hth) as (k1 & k2 & Hadd & Hremove & Hthreads & _).
  - discriminate.
  - exact Hnone.
  - rewrite Hwaiters. apply not_elem_of_nil.
  - exists k1, k2. exact (conj Hadd (conj Hremove Hthreads)).
Defined.

(** ** [ResumeFromWait], in closed form *)

Lemma alter_lookup_insert {A} (f : A → A) (t : nat) (m : gmap nat A) x :
  m !! t = Some x → alter f t m = <[t := f x]> m.
Proof.
  intros Hx. apply map_eq. intros i. destruct (decide (t = i)) as [->|Hne].
  - by rewrite lookup_alter_eq, lookup_insert_eq, Hx.
  - by rewrite lookup_alter_ne, lookup_insert_ne.
Qed.

(** [ResumeFromWait] of a thread it does resume: the core is resolved from
    the state as it is, and the result is [resumed_on] that core. *)
Lemma ResumeFromWait_resumable (E : Env) (k : Kernel) (this : ThreadRef) (th : Thread) :
  threads k !! this = Some th →
  wait_objects th = [] →
  is_waiting (status th) = true ∨ status th = Dormant →
  ResumeFromWait E k this =
    free ← GetNextProcessorId k (affinity_mask th);
    core ←
      (if negb (ideal_core th =? -1) then
         current ← Scheduler_GetCurrentThread k (ideal_core th);
         Ok (if current is None then ideal_core th else default (processor_id th) free)
       else Ok (default (processor_id th) free));
    _ ← ASSERT (core <? 4) "*new_processor_id < 4";
    _ ← Scheduler k core;
    Ok (resumed_on k this th core).
Proof.
  intros Hth Hobjects Hstatus.
  set (k1 := assign this (set_status Ready) (assign this (set_wakeup_callback None) k)).
  assert (Hbody :
    (free ← GetNextProcessorId k1 (affinity_mask th);
     let new_processor_id :=
       match free with
       | Some index => index
       | None => processor_id th
       end in
     new_processor_id ←
       (if negb (ideal_core th =? -1) then
          current ← Scheduler_GetCurrentThread k1 (ideal_core th);
          Ok (if current is None then ideal_core th else new_processor_id)
        else Ok new_processor_id);
     _ ← ASSERT (new_processor_id <? 4) "*new_processor_id < 4";
     next_scheduler ← Scheduler k1 new_processor_id;
     let k2 :=
       if negb (new_processor_id =? processor_id th) then
         call (Scheduler_AddThread next_scheduler this (current_priority th))
           (call (Scheduler_RemoveThread (scheduler th) this) k1)
       else k1 in
     let k2 := assign this (set_processor_id new_processor_id) k2 in
     let k2 := call (Scheduler_UnscheduleThread (scheduler th) this (current_priority th)) k2 in
     let k2 := call (Scheduler_ScheduleThread next_scheduler this (current_priority th)) k2 in
     let k2 := assign this (set_scheduler next_scheduler) k2 in
     Ok (call (Cpu_PrepareReschedule new_processor_id) k2))
    = (free ← GetNextProcessorId k (affinity_mask th);
       core ←
         (if negb (ideal_core th =? -1) then
            current ← Scheduler_GetCurrentThread k (ideal_core th);
            Ok (if current is None then ideal_core th else default (processor_id th) free)
          else Ok (default (processor_id th) free));
       _ ← ASSERT (core <? 4) "*new_processor_id < 4";
       _ ← Scheduler k core;
       Ok (resumed_on k this th core))).
  { rewrite (GetNextProcessorId_ext k k1) by done.
    destruct (GetNextProcessorId k (affinity_mask th)) as [free|]; simpl; [|done].
    rewrite (Scheduler_GetCurrentThread_ext k k1) by done.
    change (match free with Some index => index | None => processor_id th end)
      with (default (processor_id th) free).
    destruct (if negb (ideal_core th =? -1) then _ else _) as [core|]; simpl; [|done].
    destruct (ASSERT _ _); simpl; [|done].
    rewrite (Scheduler_ext k k1) by done.
    destruct (Scheduler k core) as [s|] eqn:Hs; simpl; [|done].
    assert (s = core) as ->.
    { unfold Scheduler in Hs. destruct (_ && _); by inversion Hs. }
    f_equal. unfold resumed_on, placement_calls.
    assert (Hk1 : threads k1 = <[this := set_status Ready (set_wakeup_callback None th)]>
                                 (threads k)).
    { unfold k1. rewrite (threads_assign_insert _ _ _ (set_wakeup_callback None th)).
      - rewrite (threads_assign_insert _ _ _ th) by done. apply insert_insert_eq.
      - by rewrite lookup_assign_eq, Hth. }
    apply Kernel_eq; try (by destruct (core =? processor_id th)).
    - rewrite threads_call, threads_assign, !threads_call, threads_assign.
      assert (Hmid : threads (if negb (core =? processor_id th)
                       then call (Scheduler_AddThread core this (current_priority th))
                              (call (Scheduler_RemoveThread (scheduler th) this) k1)
                       else k1) = threads k1) by (by destruct (core =? processor_id th)).
      rewrite Hmid, Hk1, alter_alter.
      rewrite (alter_lookup_insert _ _ _ (set_status Ready (set_wakeup_callback None th)))
        by apply lookup_insert_eq.
      simpl. apply insert_insert_eq.
    - unfold call, assign. simpl. destruct (core =? processor_id th); simpl;
        rewrite <- ?app_assoc; reflexivity. }
  unfold ResumeFromWait. rewrite (thread_at_lookup _ _ _ Hth). simpl.
  rewrite Hobjects. simpl.
  destruct Hstatus as [Hstatus|Hstatus].
  - destruct (status th); try discriminate Hstatus; exact Hbody.
  - rewrite Hstatus. exact Hbody.
Qed.

Lemma Scheduler_Ok k core s : Scheduler k core = Ok s → 0 <= core < NUM_CPU_CORES k.
Proof.
  unfold Scheduler. destruct (Z.leb_spec 0 core); simpl; [|done].
  destruct (Z.ltb_spec core (NUM_CPU_CORES k)); [lia | done].
Qed.

Lemma Scheduler_GetCurrentThread_Ok k core current :
  Scheduler_GetCurrentThread k core = Ok current →
  0 <= core < NUM_CPU_CORES k ∧ cpu_cores k !! Z.to_nat core = Some current.
Proof.
  unfold Scheduler_GetCurrentThread. intros Hrun.
  apply bind_Ok in Hrun as (s & Hs & Hrun).
  pose proof (Scheduler_Ok _ _ _ Hs) as Hrange. split; [done|].
  assert (s = core) as -> by (unfold Scheduler in Hs; destruct (_ && _); by inversion Hs).
  destruct (cpu_cores k !! Z.to_nat core); by inversion Hrun.
Qed.

(** X10.  Whenever [ResumeFromWait] returns for a thread that was waiting or
    dormant, the thread is Ready with no wakeup callback, on a core of the
    machine below 4 that is both its [processor_id] and its scheduler; every
    other thread is as before; and the calls made are, in order, the move
    between the schedulers when the core changed, one [UnscheduleThread] on
    the old scheduler, one [ScheduleThread] on the new one and one
    [PrepareReschedule] of the new core. *)
Theorem ResumeFromWait_makes_ready (E : Env) (k : Kernel) (this : ThreadRef)
    (th : Thread) (k' : Kernel) :
  threads k !! this = Some th →
  wait_objects th = [] →
  is_waiting (status th) = true ∨ status th = Dormant →
  ResumeFromWait E k this = Ok k' →
  ∃ core,
    0 <= core < NUM_CPU_CORES k ∧ core < 4 ∧
    threads k' !! this
      = Some (set_scheduler core
                (set_processor_id core (set_status Ready (set_wakeup_callback None th)))) ∧
    (∀ i, i ≠ this → threads k' !! i = threads k !! i) ∧
    calls k' = calls k ++ placement_calls this th core ∧
    cpu_cores k' = cpu_cores k ∧ tls_slots k' = tls_slots k.
Proof.
  intros Hth Hobjects Hstatus.
  rewrite (ResumeFromWait_resumable E k this th Hth Hobjects Hstatus).
  intros Hrun.
  apply bind_Ok in Hrun as (free & _ & Hrun).
  apply bind_Ok in Hrun as (core & _ & Hrun).
  apply bind_Ok in Hrun as (u & Hassert & Hrun).
  apply bind_Ok in Hrun as (s & Hs & [= <-]).
  exists core. split; [by apply (Scheduler_Ok _ _ s)|].
  split; [apply ASSERT_Ok in Hassert; lia|].
  unfold resumed_on. simpl. split; [apply lookup_insert_eq|].
  split; [|done]. intros i Hi. by apply lookup_insert_ne.
Qed.

Lemma ResumeFromWait_makes_ready_witness :
  ∃ k' th',
    ResumeFromWait sample_env (state_of dormant_on_2) 0%nat = Ok k' ∧
    threads k' !! 0%nat = Some th' ∧ status th' = Ready ∧
    ∃ core, calls k' = calls (state_of dormant_on_2)
                       ++ [Scheduler_RemoveThread 2 0; Scheduler_AddThread core 0 44;
                           Scheduler_UnscheduleThread 2 0 44;
                           Scheduler_ScheduleThread core 0 44; Cpu_PrepareReschedule core].
Proof.
  assert (Hthread : ∃ th, threads (state_of dormant_on_2) !! 0%nat = Some th ∧
            wait_objects th = [] ∧ status th = Dormant ∧ processor_id th = 2 ∧
            scheduler th = 2 ∧ current_priority th = 44)
    by (vm_compute; eexists; repeat split; reflexivity).
  destruct Hthread as (th & Hth & Hobjects & Hstatus & Hprocessor & Hscheduler & Hpriority).
  assert (Hreturns : ∃ k', ResumeFromWait sample_env (state_of dormant_on_2) 0%nat = Ok k'
                           ∧ processor_id <$> threads k' !! 0%nat = Some 3)
    by (vm_compute; eexists; split; reflexivity).
  destruct Hreturns as (k' & Hrun & Hplaced).
  destruct (ResumeFromWait_makes_ready sample_env _ 0%nat th k' Hth Hobjects
              (or_intror Hstatus) Hrun)
    as (core & _ & _ & Hthis & _ & Hcalls & _).
  eexists k', _. split; [exact Hrun|]. split; [exact Hthis|]. split; [reflexivity|].
  exists core. rewrite Hcalls. f_equal. unfold placement_calls.
  rewrite Hthis in Hplaced. simpl in Hplaced. injection Hplaced as ->.
  rewrite Hprocessor, Hscheduler, Hpriority. reflexivity.
Defined.

(** ** Placement without an ideal core *)

Lemma GetNextProcessorId_decides k mask :
  NUM_CPU_CORES k <= 64 →
  (∀ core, lowest_idle_core k mask core → GetNextProcessorId k mask = Ok (Some core)) ∧
  (no_idle_core k mask → GetNextProcessorId k mask = Ok None).
Proof.
  intros Hcores. unfold NUM_CPU_CORES in Hcores.
  destruct (GetNextProcessorId_loop_spec k mask (length (cpu_cores k)) 0)
    as (free & Hfree & Hspec); [lia..|].
  unfold GetNextProcessorId. rewrite Hfree.
  assert (Hbusy : ∀ i, 0 <= i < Z.of_nat (length (cpu_cores k)) →
            Z.testbit mask i = true → cpu_cores k !! Z.to_nat i = Some None →
            Z.land mask (to_u64 (Z.shiftl 1 i)) = 0 ∨
            (∃ t, cpu_cores k !! Z.to_nat i = Some (Some t)) → False).
  { intros i Hi Hbit Hidle [Hzero|[t Ht]]; [|congruence].
    apply (land_bit_testbit mask i) in Hbit; [done | lia]. }
  split.
  - intros core (Hpos & Hbit & Hidle & Hbefore).
    pose proof (lookup_lt_Some _ _ _ Hidle) as Hlt.
    destruct free as [found|].
    + destruct Hspec as (Hrange & Hmask & Hfound & Hlower).
      destruct (Z.lt_trichotomy found core) as [Hlt'|[->|Hgt]]; [|done|].
      * exfalso. destruct (Hbefore found) as [Hoff|[t Ht]]; [lia| |congruence].
        apply land_bit_testbit in Hmask; [congruence | lia].
      * exfalso. apply (Hbusy core); [lia | done | done |]. apply Hlower. lia.
    + exfalso. apply (Hbusy core); [lia | done | done |]. apply Hspec. lia.
  - intros Hnone. destruct free as [found|]; [|done]. exfalso.
    destruct Hspec as (Hrange & Hmask & Hfound & _).
    destruct (Hnone found) as [Hoff|[t Ht]]; [unfold NUM_CPU_CORES; lia| |congruence].
    apply land_bit_testbit in Hmask; [congruence | lia].
Qed.

(** X11.  A thread with no ideal core (-1) is resumed on the core of lowest
    index that its mask enables and that runs no thread; when there is no
    such core it stays on the core it was on. *)
Theorem ResumeFromWait_without_ideal_core (E : Env) (k : Kernel) (this : ThreadRef)
    (th : Thread) :
  threads k !! this = Some th →
  wait_objects th = [] →
  is_waiting (status th) = true ∨ status th = Dormant →
  ideal_core th = -1 →
  NUM_CPU_CORES k <= 64 →
  (∀ core, lowest_idle_core k (affinity_mask th) core → core < 4 →
           ResumeFromWait E k this = Ok (resumed_on k this th core)) ∧
  (no_idle_core k (affinity_mask th) →
   0 <= processor_id th < NUM_CPU_CORES k → processor_id th < 4 →
   ResumeFromWait E k this = Ok (resumed_on k this th (processor_id th))).
Proof.
  intros Hth Hobjects Hstatus Hideal Hcores.
  rewrite (ResumeFromWait_resumable E k this th Hth Hobjects Hstatus), Hideal.
  destruct (GetNextProcessorId_decides k (affinity_mask th) Hcores) as [Hsome Hnone].
  split.
  - intros core Hlowest Hlt. rewrite (Hsome core Hlowest). simpl.
    destruct Hlowest as (Hpos & _ & Hidle & _).
    apply lookup_lt_Some in Hidle.
    destruct (Z.ltb_spec core 4); [|lia]. simpl.
    rewrite Scheduler_in_range by (unfold NUM_CPU_CORES; lia). done.
  - intros Hbusy Hrange Hlt. rewrite (Hnone Hbusy). simpl.
    destruct (Z.ltb_spec (processor_id th) 4); [|lia]. simpl.
    by rewrite Scheduler_in_range.
Qed.

Lemma ResumeFromWait_without_ideal_core_witness :
  let k := assign 0%nat (set_ideal_core (-1))
             (assign 0%nat (set_affinity_mask 12) (state_of (spawn boot "F" 44 0))) in
  ∃ k', ResumeFromWait sample_env k 0%nat = Ok k' ∧
        processor_id <$> threads k' !! 0%nat = Some 2.
Proof.
  intros k.
  assert (Hthread : ∃ th, threads k !! 0%nat = Some th ∧ wait_objects th = [] ∧
            status th = Dormant ∧ ideal_core th = -1 ∧ affinity_mask th = 12)
    by (vm_compute; eexists; repeat split; reflexivity).
  destruct Hthread as (th & Hth & Hobjects & Hstatus & Hideal & Hmask).
  assert (Hcores : NUM_CPU_CORES k <= 64) by (vm_compute; discriminate).
  destruct (ResumeFromWait_without_ideal_core sample_env k 0%nat th Hth Hobjects
              (or_intror Hstatus) Hideal Hcores) as [Hplace _].
  exists (resumed_on k 0%nat th 2). split.
  - apply Hplace; [|lia]. rewrite Hmask.
    split; [lia|]. split; [reflexivity|]. split; [reflexivity|].
    intros i Hi. left. assert (i = 0 ∨ i = 1) as [-> | ->] by lia; reflexivity.
  - unfold resumed_on. simpl. rewrite lookup_insert_eq. reflexivity.
Defined.

(** ** A hint given while the thread waits *)

(** X9.  [ChangeCore] of a thread that is not Ready, a thread that waits or
    is dormant among them, calls nobody and moves nothing, whatever the core
    and the mask: it stores the hint and the mask.  The hint decides at the
    next [ResumeFromWait], which puts a thread that waits or is dormant on
    the new ideal core when that core runs no thread. *)
Theorem ChangeCore_of_waiting_thread (E : Env) (k : Kernel) (this : ThreadRef)
    (th : Thread) (core mask : Z) :
  threads k !! this = Some th →
  status th ≠ Ready →
  let th1 := set_affinity_mask mask (set_ideal_core (to_s32 core) th) in
  ∃ k1,
    ChangeCore k this core mask = Ok k1 ∧
    calls k1 = calls k ∧
    threads k1 = <[this := th1]> (threads k) ∧
    same_machine k k1 ∧
    (wait_objects th = [] →
     is_waiting (status th) = true ∨ status th = Dormant →
     0 <= core →
     cpu_cores k !! Z.to_nat core = Some None →
     NUM_CPU_CORES k <= 4 →
     ResumeFromWait E k1 this = Ok (resumed_on k1 this th1 core)).
Proof.
  intros Hth Hstatus th1.
  set (k1 := assign this (set_affinity_mask mask)
               (assign this (set_ideal_core (to_s32 core)) k)).
  assert (Hk1 : threads k1 = <[this := th1]> (threads k)).
  { unfold k1. rewrite (threads_assign_insert _ _ _ (set_ideal_core (to_s32 core) th)).
    - rewrite (threads_assign_insert _ _ _ th) by done. apply insert_insert_eq.
    - by rewrite lookup_assign_eq, Hth. }
  assert (Hth1 : threads k1 !! this = Some th1) by (by rewrite Hk1, lookup_insert_eq).
  exists k1. split; [|split; [done|split; [done|split]]].
  - unfold ChangeCore. rewrite (thread_at_lookup _ _ _ Hth). cbn [mbind result_bind].
    fold k1. rewrite (thread_at_lookup _ _ _ Hth1). cbn [mbind result_bind].
    replace (status th1) with (status th) by reflexivity.
    by rewrite (bool_decide_eq_false_2 _ Hstatus).
  - unfold k1. eapply same_machine_trans; apply same_machine_assign.
  - intros Hobjects Hwaits Hpos Hidle Hcores.
    pose proof (lookup_lt_Some _ _ _ Hidle) as Hlt. unfold NUM_CPU_CORES in Hcores.
    assert (Hs32 : to_s32 core = core) by (unfold to_s32; rewrite Z.mod_small; lia).
    rewrite (ResumeFromWait_resumable E k1 this th1 Hth1 Hobjects Hwaits).
    destruct (GetNextProcessorId_returns k1 (affinity_mask th1)) as [free ->].
    cbn [mbind result_bind].
    replace (ideal_core th1) with core by (symmetry; exact Hs32).
    destruct (Z.eqb_spec core (-1)); [lia|]. cbn [negb].
    rewrite (Scheduler_GetCurrentThread_lookup k1 core None) by done.
    cbn [mbind result_bind].
    destruct (Z.ltb_spec core 4); [|lia]. cbn [ASSERT mbind result_bind].
    rewrite Scheduler_in_range by (unfold NUM_CPU_CORES; simpl; lia). done.
Qed.

Lemma ChangeCore_of_waiting_thread_witness :
  let k := state_of (spawn boot "C" 44 2) in
  (∃ k1, ChangeCore k 0%nat 9 0 = Ok k1 ∧ calls k1 = calls k ∧
         ideal_core <$> threads k1 !! 0%nat = Some 9) ∧
  ∃ k1 k2, ChangeCore k 0%nat 3 3 = Ok k1 ∧ calls k1 = calls k ∧
           ResumeFromWait sample_env k1 0%nat = Ok k2 ∧
           processor_id <$> threads k2 !! 0%nat = Some 3.
Proof.
  intros k.
  assert (Hthread : ∃ th, threads k !! 0%nat = Some th ∧ wait_objects th = [] ∧
            status th = Dormant)
    by (vm_compute; eexists; repeat split; reflexivity).
  destruct Hthread as (th & Hth & Hobjects & Hstatus).
  assert (Hnot_ready : status th ≠ Ready) by (rewrite Hstatus; discriminate).
  split.
  - destruct (ChangeCore_of_waiting_thread sample_env k 0%nat th 9 0 Hth Hnot_ready)
      as (k1 & Hchange & Hcalls & Hthreads & _).
    exists k1. split; [exact Hchange|]. split; [exact Hcalls|].
    rewrite Hthreads, lookup_insert_eq. reflexivity.
  - destruct (ChangeCore_of_waiting_thread sample_env k 0%nat th 3 3 Hth Hnot_ready)
      as (k1 & Hchange & Hcalls & _ & _ & Hresume).
    eexists k1, _. split; [exact Hchange|]. split; [exact Hcalls|].
    split.
    + apply (Hresume Hobjects (or_intror Hstatus)).
      * lia.
      * vm_compute. reflexivity.
      * vm_compute. discriminate.
    + unfold resumed_on.
      change (threads (set_calls ?c (set_threads ?m ?x))) with m.
      rewrite lookup_insert_eq. reflexivity.
Defined.

(** ** Thread-local storage slots *)

Lemma tls_address_round_trip (base page_size entry_size page slot : Z) :
  0 <= base → 0 < entry_size → 8 * entry_size <= page_size →
  0 <= page → 0 <= slot < 8 →
  base + page * page_size + slot * entry_size < 2 ^ 64 →
  let address := to_u64 (base + page * page_size + slot * entry_size) in
  to_u64 (address - base) / page_size = page ∧
  (to_u64 (address - base) mod page_size) / entry_size = slot.
Proof.
  intros Hbase Hentry Hpage_size Hpage Hslot Hfit address.
  assert (Hoffset : 0 <= slot * entry_size < page_size) by nia.
  assert (Hpages : 0 <= page * page_size) by nia.
  assert (Haddress : address = base + page * page_size + slot * entry_size).
  { unfold address, to_u64. apply Z.mod_small. lia. }
  assert (Hback : to_u64 (address - base) = page * page_size + slot * entry_size).
  { rewrite Haddress. unfold to_u64. rewrite Z.mod_small; lia. }
  rewrite Hback. split.
  - symmetry. apply (Z.div_unique _ _ _ (slot * entry_size)); lia.
  - replace ((page * page_size + slot * entry_size) mod page_size)
      with (slot * entry_size).
    + apply Z.div_mul. lia.
    + apply (Z.mod_unique _ _ page); lia.
Qed.

Lemma bitset_reset_set (bits slot : Z) :
  0 <= slot → bitset_test bits slot = false →
  bitset_reset (bitset_set bits slot) slot = bits.
Proof.
  unfold bitset_reset, bitset_set, bitset_test. intros Hslot Hfree.
  apply Z.bits_inj'. intros n Hn.
  destruct (decide (n = slot)) as [->|Hne].
  - by rewrite Z.clearbit_eq, Hfree.
  - rewrite Z.clearbit_neq, Z.setbit_neq by lia. done.
Qed.

Lemma bitset_test_set (bits slot : Z) : 0 <= slot → bitset_test (bitset_set bits slot) slot = true.
Proof. intros Hslot. unfold bitset_test, bitset_set. by apply Z.setbit_eq. Qed.

Lemma bitset_test_reset (bits slot : Z) : bitset_test (bitset_reset bits slot) slot = false.
Proof.
  unfold bitset_test, bitset_reset. destruct (Z.lt_ge_cases slot 0) as [Hneg|Hpos].
  - by apply Z.testbit_neg_r.
  - by apply Z.clearbit_eq.
Qed.

(** The page and the slot [Create] takes for a new thread: the first free
    slot, or slot 0 of a page added at the end. *)
Lemma tls_slot_to_take (slots : list Z) :
  ∃ page slot alloc,
    GetFreeThreadLocalSlot slots = (page, slot, alloc) ∧
    let pages := if alloc then slots ++ [0] else slots in
    let taken := if alloc then Z.of_nat (length slots) else page in
    0 <= taken ∧ 0 <= slot < 8 ∧ (Z.to_nat taken < length pages)%nat ∧
    ∃ bits, pages !! Z.to_nat taken = Some bits ∧ bitset_test bits slot = false.
Proof.
  pose proof (GetFreeThreadLocalSlot_scan slots) as Hspec.
  destruct (GetFreeThreadLocalSlot slots) as [[page slot] alloc].
  exists page, slot, alloc. split; [done|]. destruct alloc; simpl.
  - destruct Hspec as (-> & -> & _). split; [lia|]. split; [lia|].
    rewrite Nat2Z.id, length_app. simpl. split; [lia|].
    exists 0. split; [|done]. rewrite lookup_app_r by lia.
    by rewrite Nat.sub_diag.
  - destruct Hspec as (Hpage & Hslot & bits & Hbits & Hfree & _).
    split; [done|]. split; [done|]. split; [by apply lookup_lt_Some in Hbits|]. eauto.
Qed.

(** ** [Create] *)

(** The record [Create] makes. *)
Lemma Create_returns (E : Env) (k : Kernel) (name : string)
    (entry_point priority arg processor_id stack_top : Z) (owner_process : ProcRef)
    (slots : list Z) (handle : Z) (table : gmap Z ThreadRef) (page slot : Z) (alloc : bool) :
  priority <= THREADPRIO_LOWEST E →
  processor_id <= THREADPROCESSORID_MAX E →
  IsValidVirtualAddress E owner_process entry_point = true →
  0 <= processor_id < NUM_CPU_CORES k →
  tls_slots k !! owner_process = Some slots →
  HandleTable_Create E (wakeup_callback_handle_table k) (fresh (dom (threads k)))
    = Ok (handle, table) →
  GetFreeThreadLocalSlot slots = (page, slot, alloc) →
  let thread := fresh (dom (threads k)) in
  let pages := if alloc then slots ++ [0] else slots in
  let taken := if alloc then Z.of_nat (length slots) else page in
  ∃ k' bits,
    Create E k name entry_point priority arg processor_id stack_top owner_process
      = Ok (Succeeded thread, k') ∧
    0 <= taken ∧ 0 <= slot < 8 ∧
    pages !! Z.to_nat taken = Some bits ∧
    bitset_test bits slot = false ∧
    threads k' = <[thread :=
      {| thread_id := next_thread_id k; name := name; status := Dormant;
         entry_point := entry_point; stack_top := stack_top; tpidr_el0 := 0;
         nominal_priority := priority; current_priority := priority;
         last_running_ticks := ticks k; processor_id := processor_id;
         ideal_core := processor_id;
         affinity_mask := to_u64 (Z.shiftl 1 processor_id);
         context := ResetThreadContext stack_top entry_point arg;
         tls_address :=
           to_u64 (TLS_AREA_VADDR E + taken * PAGE_SIZE E + slot * TLS_ENTRY_SIZE E);
         tls_memory := if alloc then PAGE_SIZE E else 0; wait_objects := [];
         wakeup_callback := None; lock_owner := None; wait_mutex_threads := [];
         mutex_wait_address := 0; condvar_wait_address := 0; wait_handle := 0;
         arb_wait_address := 0; callback_handle := handle;
         owner_process := owner_process; scheduler := processor_id |}]> (threads k) ∧
    tls_slots k'
      = <[owner_process := <[Z.to_nat taken := bitset_set bits slot]> pages]> (tls_slots k) ∧
    wakeup_callback_handle_table k' = table ∧
    next_thread_id k' = to_u32 (next_thread_id k + 1) ∧
    cpu_cores k' = cpu_cores k ∧
    current_process k' = current_process k ∧
    ∃ mapped, calls k' = calls k
                ++ Scheduler_AddThread processor_id (fresh (dom (threads k))) priority
                   :: mapped.
Proof.
  intros Hpriority Hprocessor Hvalid Hcore Hslots Hhandle Hfree thread pages taken.
  destruct (tls_slot_to_take slots) as (page' & slot' & alloc' & Hfree' & Htake).
  rewrite Hfree in Hfree'. injection Hfree' as <- <- <-.
  destruct Htake as (Htaken & Hslot & _ & bits & Hbits & Hbit).
  fold pages taken in Htaken, Hbits.
  unfold Create.
  destruct (Z.ltb_spec (THREADPRIO_LOWEST E) priority) as [|_]; [lia|].
  destruct (Z.ltb_spec (THREADPROCESSORID_MAX E) processor_id) as [|_]; [lia|].
  rewrite Hvalid. cbn [negb]. cbv zeta.
  change (wakeup_callback_handle_table (set_next_thread_id _ k))
    with (wakeup_callback_handle_table k).
  rewrite Hhandle. cbn [mbind result_bind].
  rewrite (Scheduler_ext k) by reflexivity.
  rewrite (Scheduler_in_range k processor_id Hcore). cbn [mbind result_bind].
  change (tls_slots (call _ (set_wakeup_callback_handle_table _ (set_next_thread_id _ k))))
    with (tls_slots k).
  rewrite Hslots, Hfree.
  destruct alloc.
  - assert (slot = 0) as ->.
    { pose proof (GetFreeThreadLocalSlot_scan slots) as Hspec.
      rewrite Hfree in Hspec. by destruct Hspec as (_ & -> & _). }
    unfold pages, taken in *.
    replace (Z.of_nat (length (slots ++ [0])) - 1) with (Z.of_nat (length slots))
      by (rewrite length_app; simpl; lia).
    rewrite Hbits.
    eexists _, bits. split; [reflexivity|].
    split; [done|]. split; [done|]. split; [done|]. split; [done|].
    split; [reflexivity|]. split; [reflexivity|]. split; [reflexivity|].
    split; [reflexivity|]. split; [reflexivity|]. split; [reflexivity|].
    eexists. unfold call. simpl. rewrite <- !app_assoc. reflexivity.
  - unfold pages, taken in *. rewrite Hbits.
    eexists _, bits. split; [reflexivity|].
    split; [done|]. split; [done|]. split; [done|]. split; [done|].
    split; [reflexivity|]. split; [reflexivity|]. split; [reflexivity|].
    split; [reflexivity|]. split; [reflexivity|]. split; [reflexivity|].
    exists []. reflexivity.
Qed.

(** X6.  With a priority and a processor id within bounds, a valid entry
    point, a core of that index and a handle to give, [Create] returns a
    thread that was not there before and changes no other thread.  The new
    thread is Dormant, runs at its nominal priority, the priority asked for,
    is assigned to the processor asked for, which is also its ideal core and
    the only core of its mask, has the next thread id, waits on nothing and
    has no lock owner and no waiters. *)
Theorem Create_makes_dormant_thread (E : Env) (k : Kernel) (name : string)
    (entry_point priority arg processor stack_top : Z) (owner_process : ProcRef)
    (slots : list Z) (handle : Z) (table : gmap Z ThreadRef) :
  priority <= THREADPRIO_LOWEST E →
  processor <= THREADPROCESSORID_MAX E →
  IsValidVirtualAddress E owner_process entry_point = true →
  0 <= processor < NUM_CPU_CORES k →
  tls_slots k !! owner_process = Some slots →
  HandleTable_Create E (wakeup_callback_handle_table k) (fresh (dom (threads k)))
    = Ok (handle, table) →
  ∃ thread k' th,
    Create E k name entry_point priority arg processor stack_top owner_process
      = Ok (Succeeded thread, k') ∧
    threads k !! thread = None ∧
    threads k' = <[thread := th]> (threads k) ∧
    status th = Dormant ∧
    nominal_priority th = priority ∧ current_priority th = priority ∧
    processor_id th = processor ∧ ideal_core th = processor ∧
    scheduler th = processor ∧
    affinity_mask th = to_u64 (Z.shiftl 1 processor) ∧
    thread_id th = next_thread_id k ∧
    next_thread_id k' = to_u32 (next_thread_id k + 1) ∧
    callback_handle th = handle ∧
    wait_objects th = [] ∧ wakeup_callback th = None ∧
    lock_owner th = None ∧ wait_mutex_threads th = [].
Proof.
  intros Hpriority Hprocessor Hvalid Hcore Hslots Hhandle.
  destruct (GetFreeThreadLocalSlot slots) as [[page slot] alloc] eqn:Hfree.
  destruct (Create_returns E k name entry_point priority arg processor stack_top
              owner_process slots handle table page slot alloc
              Hpriority Hprocessor Hvalid Hcore Hslots Hhandle Hfree)
    as (k' & bits & Hrun & _ & _ & _ & _ & Hthreads & _ & _ & Hnext & _).
  eexists (fresh (dom (threads k))), k', _.
  split; [exact Hrun|]. split; [apply not_elem_of_dom, is_fresh|].
  split; [exact Hthreads|]. by repeat split.
Qed.

Lemma Create_makes_dormant_thread_witness :
  ∃ thread k' th,
    Create sample_env (state_of chain_before) "new" 0x8000 40 0 3 0x7000 0%nat
      = Ok (Succeeded thread, k') ∧
    threads k' !! thread = Some th ∧ status th = Dormant ∧ thread_id th = 4.
Proof.
  destruct (Create_makes_dormant_thread sample_env (state_of chain_before) "new"
              0x8000 40 0 3 0x7000 0%nat [7] 4
              (<[4 := 3%nat]> (wakeup_callback_handle_table (state_of chain_before))))
    as (thread & k' & th & Hrun & _ & Hthreads & Hstatus & _ & _ & _ & _ & _ & _
        & Hid & _).
  - vm_compute. discriminate.
  - vm_compute. discriminate.
  - vm_compute. reflexivity.
  - vm_compute. split; discriminate || reflexivity.
  - vm_compute. reflexivity.
  - vm_compute. reflexivity.
  - exists thread, k', th. split; [exact Hrun|].
    split; [rewrite Hthreads; apply lookup_insert_eq|]. split; [exact Hstatus|].
    rewrite Hid. vm_compute. reflexivity.
Defined.

(** ** [Stop] *)

(** What holds after any [Stop] that returns. *)
Lemma Stop_returns (E : Env) (k : Kernel) (this : ThreadRef) (k' : Kernel) :
  Stop E k this = Ok k' →
  ∃ th k1 k2 th2 pages page,
    threads k !! this = Some th ∧
    WakeupAllWaitingThreads E this k1 = Ok k2 ∧
    threads k1 !! this = Some (set_status Dead (set_callback_handle 0 th)) ∧
    threads k2 !! this = Some th2 ∧
    threads k' = <[this := set_wait_objects [] th2]> (threads k2) ∧
    calls k' = calls k2
               ++ map (fun object => WaitObject_RemoveWaitingThread object this)
                    (wait_objects th2) ∧
    cpu_cores k' = cpu_cores k2 ∧ current_process k' = current_process k2 ∧
    let offset := to_u64 (tls_address th2 - TLS_AREA_VADDR E) in
    let tls_page := Z.to_nat (offset / PAGE_SIZE E) in
    let tls_slot := (offset mod PAGE_SIZE E) / TLS_ENTRY_SIZE E in
    tls_slots k2 !! current_process k2 = Some pages ∧
    pages !! tls_page = Some page ∧
    tls_slots k'
      = <[current_process k2 := <[tls_page := bitset_reset page tls_slot]> pages]>
          (tls_slots k2).
Proof.
  unfold Stop. intros Hrun.
  apply bind_Ok in Hrun as (th & Hth & Hrun). apply thread_at_Ok in Hth.
  cbv zeta in Hrun.
  apply bind_Ok in Hrun as (k2 & Hwake & Hrun).
  apply bind_Ok in Hrun as (th2 & Hth2 & Hrun). apply thread_at_Ok in Hth2.
  pose (remove := fun object => WaitObject_RemoveWaitingThread object this).
  revert Hrun.
  change (tls_slots (assign this (set_wait_objects []) ?x)) with (tls_slots x).
  change (current_process (assign this (set_wait_objects []) ?x)) with (current_process x).
  rewrite (tls_slots_foldl_call remove), (current_process_foldl_call remove).
  destruct (tls_slots k2 !! current_process k2) as [pages|] eqn:Hpages; [|done].
  destruct (pages !! _) as [page|] eqn:Hpage; [|done].
  destruct (8 <=? _); [done|]. intros [= <-].
  eexists th, _, k2, th2, pages, page.
  split; [done|]. split; [exact Hwake|]. split.
  { rewrite lookup_assign_eq.
    destruct (bool_decide (status th = Ready)); cbv iota;
      rewrite ?threads_call, lookup_assign_eq, threads_set_wakeup_callback_handle_table,
        threads_call, Hth; done. }
  split; [done|]. split.
  { change (threads (set_tls_slots ?v ?x)) with (threads x).
    rewrite (threads_assign_insert _ _ _ th2).
    - by rewrite (threads_foldl_call remove).
    - by rewrite (threads_foldl_call remove). }
  split; [exact (calls_foldl_call remove (wait_objects th2) k2)|].
  split.
  { change (cpu_cores (set_tls_slots ?v (assign ?t ?f ?x))) with (cpu_cores x).
    clear. induction (wait_objects th2) as [|o os IH] in k2 |- *; simpl; [done|].
    by rewrite IH. }
  split; [exact (current_process_foldl_call remove (wait_objects th2) k2)|].
  simpl. split; [done|]. split; done.
Qed.

(** X8.  After any [Stop] that returns, the thread waits on no object, and
    the bit of its TLS slot is clear in the bitmap of the current process.  If
    waking the threads that wait on this one leaves its status alone, the
    thread is Dead. *)
Theorem Stop_leaves_thread_detached (E : Env) (k : Kernel) (this : ThreadRef)
    (k' : Kernel) :
  Stop E k this = Ok k' →
  ∃ th' pages page,
    threads k' !! this = Some th' ∧
    wait_objects th' = [] ∧
    let offset := to_u64 (tls_address th' - TLS_AREA_VADDR E) in
    tls_slots k' !! current_process k' = Some pages ∧
    pages !! Z.to_nat (offset / PAGE_SIZE E) = Some page ∧
    bitset_test page ((offset mod PAGE_SIZE E) / TLS_ENTRY_SIZE E) = false ∧
    ((∀ k1 k2, WakeupAllWaitingThreads E this k1 = Ok k2 →
               status <$> threads k2 !! this = status <$> threads k1 !! this) →
     status th' = Dead).
Proof.
  intros Hrun.
  destruct (Stop_returns E k this k' Hrun)
    as (th & k1 & k2 & th2 & pages & page & Hth & Hwake & Hth1 & Hth2 & Hthreads & _
        & _ & Hprocess & Hpages & Hpage & Hslots).
  eexists (set_wait_objects [] th2), _, _.
  split; [rewrite Hthreads; apply lookup_insert_eq|]. split; [done|].
  simpl. rewrite Hslots, Hprocess, lookup_insert_eq.
  split; [done|]. split; [apply list_lookup_insert_eq; by apply lookup_lt_Some in Hpage|].
  split; [apply bitset_test_reset|].
  intros Hwaker. specialize (Hwaker k1 k2 Hwake). rewrite Hth1, Hth2 in Hwaker.
  by injection Hwaker as ->.
Qed.

Lemma Stop_leaves_thread_detached_witness :
  let k := assign 0%nat (set_wait_objects [5%nat]) (state_of resumed) in
  ∃ k' th', Stop sample_env k 0%nat = Ok k' ∧ threads k' !! 0%nat = Some th' ∧
            wait_objects th' = [] ∧ status th' = Dead.
Proof.
  intros k.
  assert (Hreturns : ∃ k', Stop sample_env k 0%nat = Ok k')
    by (vm_compute; eexists; reflexivity).
  destruct Hreturns as (k' & Hrun).
  destruct (Stop_leaves_thread_detached sample_env k 0%nat k' Hrun)
    as (th' & pages & page & Hth' & Hobjects & _ & _ & _ & Hdead).
  exists k', th'. split; [exact Hrun|]. split; [exact Hth'|]. split; [exact Hobjects|].
  apply Hdead. intros k1 k2 [= <-]. reflexivity.
Defined.

(** X20.  [ExitCurrentThread] stops the thread the calling core runs and
    then, as its last call, removes it from the scheduler of that core; the
    thread is left with no wait objects. *)
Theorem ExitCurrentThread_stops_and_removes (E : Env) (k : Kernel) (current_core : Z)
    (k' : Kernel) :
  ExitCurrentThread E k current_core = Ok k' →
  ∃ thread k1,
    0 <= current_core ∧
    cpu_cores k !! Z.to_nat current_core = Some (Some thread) ∧
    Stop E k thread = Ok k1 ∧
    calls k' = calls k1 ++ [Scheduler_RemoveThread current_core thread] ∧
    threads k' = threads k1 ∧
    wait_objects <$> threads k' !! thread = Some [].
Proof.
  unfold ExitCurrentThread, GetCurrentThread. intros Hrun.
  apply bind_Ok in Hrun as (current & Hcurrent & Hrun).
  destruct current as [thread|]; [|done].
  apply Scheduler_GetCurrentThread_Ok in Hcurrent as [Hrange Hcurrent].
  apply bind_Ok in Hrun as (k1 & Hstop & Hrun).
  apply bind_Ok in Hrun as (s & Hs & [= <-]).
  assert (s = current_core) as ->.
  { unfold Scheduler in Hs. destruct (_ && _); by inversion Hs. }
  exists thread, k1. split; [lia|]. split; [done|]. split; [done|].
  split; [done|]. split; [done|].
  destruct (Stop_returns E k thread k1 Hstop)
    as (th & ka & kb & th2 & pages & page & _ & _ & _ & _ & Hthreads & _).
  rewrite threads_call, Hthreads, lookup_insert_eq. done.
Qed.

Lemma ExitCurrentThread_stops_and_removes_witness :
  ∃ k', ExitCurrentThread sample_env running_on_0 0 = Ok k' ∧
        wait_objects <$> threads k' !! 0%nat = Some [] ∧
        ∃ earlier, calls k' = earlier ++ [Scheduler_RemoveThread 0 0].
Proof.
  assert (Hreturns : ∃ k', ExitCurrentThread sample_env running_on_0 0 = Ok k')
    by (vm_compute; eexists; reflexivity).
  destruct Hreturns as (k' & Hrun).
  destruct (ExitCurrentThread_stops_and_removes sample_env running_on_0 0 k' Hrun)
    as (thread & k1 & _ & Hcurrent & _ & Hcalls & _ & Hobjects).
  assert (thread = 0%nat) as -> by (vm_compute in Hcurrent; congruence).
  exists k'. split; [exact Hrun|]. split; [exact Hobjects|]. eauto.
Defined.

(** X7.  The address [Create] gives a thread for its TLS slot leads [Stop]
    back to that slot: with a page of at least eight entries, no overflow of
    the TLS area, the owner being the current process and nobody waiting on
    the new thread, [Stop] of a thread just created returns, leaves it Dead,
    and the bitmap of the process is as before [Create], but for the empty
    page [Create] added when every page was full. *)
Theorem Stop_frees_the_slot_of_Create (E : Env) (k : Kernel) (name : string)
    (entry_point priority arg processor stack_top : Z) (owner_process : ProcRef)
    (slots : list Z) (handle : Z) (table : gmap Z ThreadRef) :
  priority <= THREADPRIO_LOWEST E →
  processor <= THREADPROCESSORID_MAX E →
  IsValidVirtualAddress E owner_process entry_point = true →
  0 <= processor < NUM_CPU_CORES k →
  tls_slots k !! owner_process = Some slots →
  HandleTable_Create E (wakeup_callback_handle_table k) (fresh (dom (threads k)))
    = Ok (handle, table) →
  current_process k = owner_process →
  0 <= TLS_AREA_VADDR E →
  0 < TLS_ENTRY_SIZE E →
  8 * TLS_ENTRY_SIZE E <= PAGE_SIZE E →
  TLS_AREA_VADDR E + (Z.of_nat (length slots) + 1) * PAGE_SIZE E <= 2 ^ 64 →
  (∀ k0, WakeupAllWaitingThreads E (fresh (dom (threads k))) k0 = Ok k0) →
  ∃ thread k1 k2,
    Create E k name entry_point priority arg processor stack_top owner_process
      = Ok (Succeeded thread, k1) ∧
    tls_slots k1 !! owner_process ≠ Some slots ∧
    Stop E k1 thread = Ok k2 ∧
    status <$> threads k2 !! thread = Some Dead ∧
    tls_slots k2 !! owner_process
      = Some (if (GetFreeThreadLocalSlot slots).2 then slots ++ [0] else slots).
Proof.
  intros Hpriority Hprocessor Hvalid Hcore Hslots Hhandle Hcurrent Hbase Hentry Hpage_size
    Hfit Hwaker.
  destruct (GetFreeThreadLocalSlot slots) as [[page slot] alloc] eqn:Hfree.
  destruct (Create_returns E k name entry_point priority arg processor stack_top
              owner_process slots handle table page slot alloc
              Hpriority Hprocessor Hvalid Hcore Hslots Hhandle Hfree)
    as (k1 & bits & Hrun & Htaken & Hslot & Hbits & Hbit & Hthreads & Htls & _ & _ & _
        & Hprocess & _).
  set (thread := fresh (dom (threads k))) in *.
  set (pages := if alloc then slots ++ [0] else slots) in *.
  set (taken := if alloc then Z.of_nat (length slots) else page) in *.
  pose proof (lookup_lt_Some _ _ _ Hbits) as Hlt.
  assert (Hlen : (length pages ≤ length slots + 1)%nat).
  { unfold pages. destruct alloc; [rewrite length_app; simpl|]; lia. }
  assert (Hoffset : TLS_AREA_VADDR E + taken * PAGE_SIZE E + slot * TLS_ENTRY_SIZE E < 2 ^ 64)
    by nia.
  destruct (tls_address_round_trip (TLS_AREA_VADDR E) (PAGE_SIZE E) (TLS_ENTRY_SIZE E)
              taken slot Hbase Hentry Hpage_size Htaken Hslot Hoffset) as [Hpage Hslot'].
  match type of Hthreads with _ = <[_ := ?r]> _ => set (th := r) in * end.
  exists thread, k1. eexists. split; [exact Hrun|]. split.
  { rewrite Htls, lookup_insert_eq. intros [= Hsame].
    assert (Hlook : slots !! Z.to_nat taken = Some (bitset_set bits slot)).
    { rewrite <- Hsame. by apply list_lookup_insert_eq. }
    assert (Hold : slots !! Z.to_nat taken = Some bits).
    { unfold pages in Hbits, Hsame. destruct alloc; [|done].
      apply (f_equal length) in Hsame. rewrite length_insert, length_app in Hsame.
      simpl in Hsame. lia. }
    rewrite Hold in Hlook. injection Hlook as Hlook.
    pose proof (bitset_test_set bits slot (proj1 Hslot)) as Hset.
    rewrite <- Hlook in Hset. congruence. }
  assert (Hth1 : threads k1 !! thread = Some th) by (rewrite Hthreads; apply lookup_insert_eq).
  unfold Stop. rewrite (thread_at_lookup _ _ _ Hth1). cbn [mbind result_bind]. cbv zeta.
  replace (bool_decide (status th = Ready)) with false by reflexivity. cbv iota.
  rewrite Hwaker. cbn [mbind result_bind].
  match goal with
  | |- context [thread_at ?kk thread] =>
      assert (Hth2 : threads kk !! thread = Some (set_status Dead (set_callback_handle 0 th)))
  end.
  { by rewrite !lookup_assign_eq, threads_set_wakeup_callback_handle_table, threads_call,
      Hth1. }
  rewrite (thread_at_lookup _ _ _ Hth2). cbn [mbind result_bind].
  replace (wait_objects (set_status Dead (set_callback_handle 0 th))) with (@nil nat)
    by reflexivity.
  replace (tls_address (set_status Dead (set_callback_handle 0 th)))
    with (to_u64 (TLS_AREA_VADDR E + taken * PAGE_SIZE E + slot * TLS_ENTRY_SIZE E))
    by reflexivity.
  cbn [foldl].
  change (tls_slots (assign thread (set_wait_objects []) ?x)) with (tls_slots x).
  change (current_process (assign thread (set_wait_objects []) ?x)) with (current_process x).
  change (tls_slots (assign thread (set_status Dead) ?x)) with (tls_slots x).
  change (current_process (assign thread (set_status Dead) ?x)) with (current_process x).
  change (tls_slots (assign thread (set_callback_handle 0) ?x)) with (tls_slots x).
  change (current_process (assign thread (set_callback_handle 0) ?x))
    with (current_process x).
  change (tls_slots (set_wakeup_callback_handle_table ?v (call ?c k1))) with (tls_slots k1).
  change (current_process (set_wakeup_callback_handle_table ?v (call ?c k1)))
    with (current_process k1).
  rewrite Hprocess, Hcurrent, Htls, lookup_insert_eq, Hpage, Hslot'.
  rewrite list_lookup_insert_eq by done.
  destruct (Z.leb_spec 8 slot) as [|_]; [lia|].
  split; [reflexivity|]. split.
  - change (threads (set_tls_slots ?v ?x)) with (threads x).
    rewrite lookup_assign_eq, Hth2. reflexivity.
  - change (tls_slots (set_tls_slots ?v ?x)) with v.
    rewrite lookup_insert_eq. f_equal.
    rewrite list_insert_insert_eq, bitset_reset_set by (lia || done).
    by apply list_insert_id.
Qed.

Lemma Stop_frees_the_slot_of_Create_witness :
  ∃ thread k1 k2,
    Create sample_env (state_of chain_before) "new" 0x8000 40 0 3 0x7000 0%nat
      = Ok (Succeeded thread, k1) ∧
    tls_slots k1 !! 0%nat = Some [15] ∧
    Stop sample_env k1 thread = Ok k2 ∧
    tls_slots k2 !! 0%nat = Some [7].
Proof.
  destruct (Stop_frees_the_slot_of_Create sample_env (state_of chain_before) "new"
              0x8000 40 0 3 0x7000 0%nat [7] 4
              (<[4 := 3%nat]> (wakeup_callback_handle_table (state_of chain_before))))
    as (thread & k1 & k2 & Hcreate & _ & Hstop & _ & Hslots).
  - vm_compute. discriminate.
  - vm_compute. discriminate.
  - vm_compute. reflexivity.
  - vm_compute. split; discriminate || reflexivity.
  - vm_compute. reflexivity.
  - vm_compute. reflexivity.
  - vm_compute. reflexivity.
  - vm_compute. discriminate.
  - vm_compute. reflexivity.
  - vm_compute. discriminate.
  - vm_compute. discriminate.
  - intros k0. reflexivity.
  - exists thread, k1, k2. split; [exact Hcreate|]. split; [|split; [exact Hstop|]].
    + assert (Hcomputed : ∃ kc t, Create sample_env (state_of chain_before) "new"
                  0x8000 40 0 3 0x7000 0%nat = Ok (Succeeded t, kc) ∧
                tls_slots kc !! 0%nat = Some [15])
        by (vm_compute; eexists _, _; split; reflexivity).
      destruct Hcomputed as (kc & t & Hkc & Hslots1).
      rewrite Hcreate in Hkc. injection Hkc as _ ->. exact Hslots1.
    + exact Hslots.
Defined.


(** ** The timer of a thread that waits on no object *)

(** Without objects to leave, [ThreadWakeupCallback] clears the address waits
    and resumes. *)
Lemma ThreadWakeupCallback_no_objects (E : Env) (k : Kernel)
    (thread_handle cycles_late : Z) (thread : ThreadRef) (th : Thread) :
  wakeup_callback_handle_table k !! to_u32 thread_handle = Some thread →
  threads k !! thread = Some th →
  status th ≠ WaitSynchAny → status th ≠ WaitSynchAll → status th ≠ WaitHLEEvent →
  ThreadWakeupCallback E k thread_handle cycles_late
  = (k3 ← clear_address_waits k thread; ResumeFromWait E k3 thread).
Proof.
  intros Htable Hth Hany Hall Hevent.
  unfold ThreadWakeupCallback, clear_address_waits.
  rewrite Htable, (thread_at_lookup _ _ _ Hth). cbn [mbind result_bind].
  rewrite (bool_decide_eq_false_2 _ Hany), (bool_decide_eq_false_2 _ Hall),
    (bool_decide_eq_false_2 _ Hevent).
  cbn [orb mbind result_bind]. rewrite (thread_at_lookup _ _ _ Hth).
  cbn [mbind result_bind].
  destruct (if _ || _ then _ else _) as [k3|]; cbn [mbind result_bind]; [|done].
  destruct (thread_at k3 thread) as [th3|]; cbn [mbind result_bind]; [|done].
  destruct (negb (arb_wait_address th3 =? 0)); cbn [mbind result_bind]; [|done].
  destruct (ASSERT _ _); cbn [mbind result_bind]; done.
Qed.

Lemma clear_address_waits_none (k : Kernel) (thread : ThreadRef) (th : Thread) :
  threads k !! thread = Some th →
  mutex_wait_address th = 0 → condvar_wait_address th = 0 → wait_handle th = 0 →
  arb_wait_address th = 0 →
  clear_address_waits k thread = Ok k.
Proof.
  intros Hth Hmutex Hcondvar Hhandle Harb. unfold clear_address_waits.
  rewrite (thread_at_lookup _ _ _ Hth). cbn [mbind result_bind].
  rewrite Hmutex, Hcondvar, Hhandle. cbn [Z.eqb negb orb mbind result_bind].
  rewrite (thread_at_lookup _ _ _ Hth). cbn [mbind result_bind].
  rewrite Harb. reflexivity.
Qed.

(** X19.  A sleep that times out: [WaitCurrentThread_Sleep] puts the thread
    the core runs in WaitSleep and touches nothing else; when the timer of
    that thread fires, [ThreadWakeupCallback] finds no object and no address
    to clear, so it is [ResumeFromWait] of the thread, and when it returns the
    thread is Ready and every other thread is as before the sleep. *)
Theorem WaitCurrentThread_Sleep_then_timeout (E : Env) (k : Kernel)
    (current_core thread_handle cycles_late : Z) (thread : ThreadRef) (th : Thread) :
  Scheduler_GetCurrentThread k current_core = Ok (Some thread) →
  threads k !! thread = Some th →
  wakeup_callback_handle_table k !! to_u32 thread_handle = Some thread →
  wait_objects th = [] →
  mutex_wait_address th = 0 → condvar_wait_address th = 0 → wait_handle th = 0 →
  arb_wait_address th = 0 →
  ∃ k1,
    WaitCurrentThread_Sleep k current_core = Ok k1 ∧
    threads k1 = <[thread := set_status WaitSleep th]> (threads k) ∧
    same_machine k k1 ∧ calls k1 = calls k ∧
    ThreadWakeupCallback E k1 thread_handle cycles_late = ResumeFromWait E k1 thread ∧
    ∀ k2,
      ThreadWakeupCallback E k1 thread_handle cycles_late = Ok k2 →
      status <$> threads k2 !! thread = Some Ready ∧
      ∀ i, i ≠ thread → threads k2 !! i = threads k !! i.
Proof.
  intros Hcurrent Hth Htable Hobjects Hmutex Hcondvar Hhandle Harb.
  exists (assign thread (set_status WaitSleep) k).
  assert (Hth1 : threads (assign thread (set_status WaitSleep) k) !! thread
                 = Some (set_status WaitSleep th))
    by (by rewrite lookup_assign_eq, Hth).
  assert (Hwake : ThreadWakeupCallback E (assign thread (set_status WaitSleep) k)
                    thread_handle cycles_late
                  = ResumeFromWait E (assign thread (set_status WaitSleep) k) thread).
  { rewrite (ThreadWakeupCallback_no_objects E _ _ _ thread (set_status WaitSleep th))
      by done.
    by rewrite (clear_address_waits_none _ _ (set_status WaitSleep th)). }
  split.
  { unfold WaitCurrentThread_Sleep, GetCurrentThread. rewrite Hcurrent.
    cbn [mbind result_bind]. by rewrite (thread_at_lookup _ _ _ Hth). }
  split; [by apply threads_assign_insert|].
  split; [apply same_machine_assign|]. split; [done|]. split; [exact Hwake|].
  intros k2 Hrun. rewrite Hwake in Hrun.
  rewrite (ResumeFromWait_resumable E _ thread (set_status WaitSleep th) Hth1 Hobjects
             (or_introl eq_refl)) in Hrun.
  apply bind_Ok in Hrun as (free & _ & Hrun).
  apply bind_Ok in Hrun as (core & _ & Hrun).
  apply bind_Ok in Hrun as (u & _ & Hrun).
  apply bind_Ok in Hrun as (s & _ & [= <-]).
  unfold resumed_on.
  change (threads (set_calls ?c (set_threads ?m ?x))) with m.
  split; [by rewrite lookup_insert_eq|].
  intros i Hi. rewrite lookup_insert_ne by done. by apply lookup_assign_ne.
Qed.

Lemma WaitCurrentThread_Sleep_then_timeout_witness :
  ∃ k1 k2,
    WaitCurrentThread_Sleep running_on_0 0 = Ok k1 ∧
    status <$> threads k1 !! 0%nat = Some WaitSleep ∧
    ThreadWakeupCallback sample_env k1 1 0 = Ok k2 ∧
    status <$> threads k2 !! 0%nat = Some Ready.
Proof.
  assert (Hthread : ∃ th, threads running_on_0 !! 0%nat = Some th ∧ wait_objects th = [] ∧
            mutex_wait_address th = 0 ∧ condvar_wait_address th = 0 ∧ wait_handle th = 0 ∧
            arb_wait_address th = 0)
    by (vm_compute; eexists; repeat split; reflexivity).
  destruct Hthread as (th & Hth & Hobjects & Hmutex & Hcondvar & Hhandle & Harb).
  assert (Hcurrent : Scheduler_GetCurrentThread running_on_0 0 = Ok (Some 0%nat))
    by (vm_compute; reflexivity).
  assert (Htable : wakeup_callback_handle_table running_on_0 !! to_u32 1 = Some 0%nat)
    by (vm_compute; reflexivity).
  destruct (WaitCurrentThread_Sleep_then_timeout sample_env running_on_0 0 1 0 0%nat th
              Hcurrent Hth Htable Hobjects Hmutex Hcondvar Hhandle Harb)
    as (k1 & Hsleep & Hthreads & _ & _ & _ & Hready).
  assert (Hcomputed : ∃ kc, WaitCurrentThread_Sleep running_on_0 0 = Ok kc ∧
            ∃ k2, ThreadWakeupCallback sample_env kc 1 0 = Ok k2).
  { exists (state_of (WaitCurrentThread_Sleep running_on_0 0)).
    split; [vm_compute; reflexivity | vm_compute; eexists; reflexivity]. }
  destruct Hcomputed as (kc & Hkc & k2 & Hrun).
  rewrite Hsleep in Hkc. injection Hkc as <-.
  exists k1, k2. split; [exact Hsleep|]. split.
  - rewrite Hthreads, lookup_insert_eq. reflexivity.
  - split; [exact Hrun|]. exact (proj1 (Hready k2 Hrun)).
Defined.

(** ** The timer of a thread that waits for a mutex *)

Lemma unregistered_waiter (this thread : ThreadRef) (x : Thread) :
  ∃ waiters, unregistered this thread thread x
             = set_lock_owner None (set_wait_mutex_threads waiters x).
Proof.
  unfold unregistered. destruct (decide (thread = thread)) as [_|]; [|done].
  destruct (decide (thread = this)); [eauto|]. exists (wait_mutex_threads x). by destruct x.
Qed.

Lemma refs_closed_assign_same (t : ThreadRef) (f : Thread → Thread) (k : Kernel) :
  (∀ th, wait_mutex_threads (f th) = wait_mutex_threads th) →
  (∀ th, lock_owner (f th) = lock_owner th) →
  refs_closed k → refs_closed (assign t f k).
Proof.
  intros Hw Ho Hclosed. apply refs_closed_assign; [done|]. intros x Hx.
  rewrite Hw, Ho. by apply (refs_closed_lookup k t).
Qed.

(** X12.  The timer of a thread that waits on an address and on no object.
    Unless the thread is in WaitMutex, the call stops at the assertion on its
    status.  For a thread in WaitMutex that is registered with the owner of
    the mutex, the address waits are cleared, which returns, and the call is
    [ResumeFromWait] in the state this leaves; when that returns, the thread
    is Ready with no lock owner and no address to wait on, the owner has it
    among its waiters no more, and the owner runs at the priority it inherits
    from the waiters that are left. *)
Theorem ThreadWakeupCallback_ends_mutex_wait (E : Env) (k : Kernel)
    (thread_handle cycles_late : Z) (thread owner : ThreadRef) (th me : Thread) :
  refs_closed k →
  wakeup_callback_handle_table k !! to_u32 thread_handle = Some thread →
  threads k !! thread = Some th →
  threads k !! owner = Some me →
  mutex_wait_address th ≠ 0 ∨ condvar_wait_address th ≠ 0 ∨ wait_handle th ≠ 0 →
  status th ≠ WaitSynchAny → status th ≠ WaitSynchAll → status th ≠ WaitHLEEvent →
  (status th ≠ WaitMutex →
   ThreadWakeupCallback E k thread_handle cycles_late
   = Aborted (AssertionFailed "thread->status == ThreadStatus::WaitMutex")) ∧
  (status th = WaitMutex → lock_owner th = Some owner →
   thread ∈ wait_mutex_threads me → arb_wait_address th = 0 → wait_objects th = [] →
   ∃ k1,
     clear_address_waits k thread = Ok k1 ∧
     ThreadWakeupCallback E k thread_handle cycles_late = ResumeFromWait E k1 thread ∧
     ∀ k',
       ThreadWakeupCallback E k thread_handle cycles_late = Ok k' →
       ∃ th' me',
         threads k' !! thread = Some th' ∧ threads k' !! owner = Some me' ∧
         status th' = Ready ∧ lock_owner th' = None ∧
         mutex_wait_address th' = 0 ∧ condvar_wait_address th' = 0 ∧ wait_handle th' = 0 ∧
         wait_mutex_threads me' = filter (fun w => w ≠ thread) (wait_mutex_threads me) ∧
         current_priority me' = effective_priority k' me').
Proof.
  intros Hclosed Htable Hth Hme Haddress Hany Hall Hevent.
  rewrite (ThreadWakeupCallback_no_objects E k _ _ thread th) by done.
  assert (Hwaits : negb (mutex_wait_address th =? 0) || negb (condvar_wait_address th =? 0)
                   || negb (wait_handle th =? 0) = true).
  { destruct Haddress as [H|[H|H]]; apply Z.eqb_neq in H; rewrite H;
      cbn [negb orb]; by rewrite ?orb_true_r. }
  split.
  { intros Hstatus. unfold clear_address_waits.
    rewrite (thread_at_lookup _ _ _ Hth). cbn [mbind result_bind].
    rewrite Hwaits, (bool_decide_eq_false_2 _ Hstatus). reflexivity. }
  intros Hstatus Howner Hin Harb Hobjects.
  set (k0 := assign thread (set_wait_handle 0)
               (assign thread (set_condvar_wait_address 0)
                  (assign thread (set_mutex_wait_address 0) k))).
  set (th0 := set_wait_handle 0 (set_condvar_wait_address 0 (set_mutex_wait_address 0 th))).
  assert (Hth0 : threads k0 !! thread = Some th0).
  { unfold k0. by rewrite !lookup_assign_eq, Hth. }
  assert (Hme0 : ∃ me0, threads k0 !! owner = Some me0 ∧
                        wait_mutex_threads me0 = wait_mutex_threads me).
  { destruct (decide (owner = thread)) as [->|Hne].
    - exists th0. split; [done|]. by replace me with th by congruence.
    - exists me. split; [|done]. unfold k0. by rewrite !lookup_assign_ne. }
  destruct Hme0 as (me0 & Hme0 & Hwaiters0).
  assert (Hclosed0 : refs_closed k0).
  { unfold k0. by do 3 (apply refs_closed_assign_same; [done..|]). }
  destruct (RemoveMutexWaiter_returns k0 owner thread me0 th0 Hclosed0 Hme0 Hth0 Howner)
    as (k1 & me1 & Hremove & Hme1 & Hwaiters1 & _ & _ & Hpriority1).
  { by rewrite Hwaiters0. }
  pose proof (RemoveMutexWaiter_keeps k0 owner thread k1 thread Hremove) as Hkeep.
  rewrite Hth0 in Hkeep. destruct Hkeep as [p Hth1].
  destruct (unregistered_waiter owner thread th0) as [waiters Hth1'].
  rewrite Hth1' in Hth1.
  set (th1 := set_current_priority p (set_lock_owner None (set_wait_mutex_threads waiters th0)))
    in *.
  assert (Hclear : clear_address_waits k thread = Ok k1).
  { unfold clear_address_waits. rewrite (thread_at_lookup _ _ _ Hth).
    cbn [mbind result_bind]. rewrite Hwaits, (bool_decide_eq_true_2 _ Hstatus).
    cbn [ASSERT mbind result_bind]. rewrite Howner. fold k0. rewrite Hremove.
    cbn [mbind result_bind]. rewrite (thread_at_lookup _ _ _ Hth1).
    cbn [mbind result_bind].
    replace (arb_wait_address th1) with 0 by (symmetry; exact Harb). reflexivity. }
  exists k1. split; [exact Hclear|]. rewrite Hclear. cbn [mbind result_bind].
  split; [reflexivity|].
  intros k'.
  rewrite (ResumeFromWait_resumable E k1 thread th1 Hth1 Hobjects)
    by (left; unfold th1; simpl; by rewrite Hstatus).
  intros Hrun.
  apply bind_Ok in Hrun as (free & _ & Hrun).
  apply bind_Ok in Hrun as (core & _ & Hrun).
  apply bind_Ok in Hrun as (u & _ & Hrun).
  apply bind_Ok in Hrun as (s & _ & [= <-]).
  set (th' := set_scheduler core
                (set_processor_id core (set_status Ready (set_wakeup_callback None th1)))).
  assert (Hthreads : threads (resumed_on k1 thread th1 core) = <[thread := th']> (threads k1))
    by reflexivity.
  assert (Hnominal : ∀ w, nominal_priority <$> threads (resumed_on k1 thread th1 core) !! w
                          = nominal_priority <$> threads k1 !! w).
  { intros w. rewrite Hthreads. destruct (decide (thread = w)) as [<-|Hne].
    - by rewrite lookup_insert_eq, Hth1.
    - by rewrite lookup_insert_ne. }
  assert (Hme' : ∃ me', threads (resumed_on k1 thread th1 core) !! owner = Some me' ∧
                   wait_mutex_threads me' = wait_mutex_threads me1 ∧
                   nominal_priority me' = nominal_priority me1 ∧
                   current_priority me' = current_priority me1).
  { rewrite Hthreads. destruct (decide (thread = owner)) as [<-|Hne].
    - rewrite lookup_insert_eq. exists th'. replace me1 with th1 by congruence. done.
    - rewrite lookup_insert_ne by done. eauto. }
  destruct Hme' as (me' & Hme' & Hwaiters' & Hnominal' & Hcurrent').
  exists th', me'. split; [by rewrite Hthreads, lookup_insert_eq|].
  split; [exact Hme'|]. do 5 (split; [reflexivity|]).
  split; [by rewrite Hwaiters', Hwaiters1, Hwaiters0|].
  by rewrite Hcurrent', Hpriority1, (effective_priority_ext k1 _ me1 me').
Qed.

Lemma ThreadWakeupCallback_ends_mutex_wait_witness :
  ThreadWakeupCallback sample_env
    (assign 2%nat (set_mutex_wait_address 0x1000) (state_of chain_after)) 3 0
  = Aborted (AssertionFailed "thread->status == ThreadStatus::WaitMutex") ∧
  ∃ k',
    ThreadWakeupCallback sample_env waiting_for_mutex 3 0 = Ok k' ∧
    status <$> threads k' !! 2%nat = Some Ready ∧
    wait_mutex_threads <$> threads k' !! 1%nat = Some [] ∧
    priorities k' = [(2%nat, (10, 10)); (1%nat, (20, 20)); (0%nat, (30, 20))].
Proof.
  split.
  - assert (Hclosed : refs_closed
              (assign 2%nat (set_mutex_wait_address 0x1000) (state_of chain_after)))
      by compute_done.
    assert (Hthread : ∃ th,
              threads (assign 2%nat (set_mutex_wait_address 0x1000) (state_of chain_after))
                !! 2%nat = Some th ∧
              mutex_wait_address th = 0x1000 ∧ status th = Dormant)
      by (vm_compute; eexists; repeat split; reflexivity).
    assert (Howned : ∃ me,
              threads (assign 2%nat (set_mutex_wait_address 0x1000) (state_of chain_after))
                !! 1%nat = Some me)
      by (vm_compute; eexists; reflexivity).
    destruct Hthread as (th & Hth & Haddress & Hstatus).
    destruct Howned as (me & Hme).
    assert (Htable : wakeup_callback_handle_table
                       (assign 2%nat (set_mutex_wait_address 0x1000) (state_of chain_after))
                       !! to_u32 3 = Some 2%nat)
      by (vm_compute; reflexivity).
    assert (Hwaits : mutex_wait_address th ≠ 0) by (rewrite Haddress; discriminate).
    apply (proj1 (ThreadWakeupCallback_ends_mutex_wait sample_env _ 3 0 2%nat 1%nat th me
                    Hclosed Htable Hth Hme (or_introl Hwaits)
                    ltac:(rewrite Hstatus; discriminate)
                    ltac:(rewrite Hstatus; discriminate)
                    ltac:(rewrite Hstatus; discriminate))).
    rewrite Hstatus. discriminate.
  - assert (Hclosed : refs_closed waiting_for_mutex) by compute_done.
    assert (Hthread : ∃ th, threads waiting_for_mutex !! 2%nat = Some th ∧
              mutex_wait_address th = 0x1000 ∧ status th = WaitMutex ∧
              lock_owner th = Some 1%nat ∧ arb_wait_address th = 0 ∧ wait_objects th = [])
      by (vm_compute; eexists; repeat split; reflexivity).
    assert (Howned : ∃ me, threads waiting_for_mutex !! 1%nat = Some me ∧
              wait_mutex_threads me = [2%nat])
      by (vm_compute; eexists; split; reflexivity).
    destruct Hthread as (th & Hth & Haddress & Hstatus & Howner & Harb & Hobjects).
    destruct Howned as (me & Hme & Hwaiters).
    assert (Htable : wakeup_callback_handle_table waiting_for_mutex !! to_u32 3 = Some 2%nat)
      by (vm_compute; reflexivity).
    assert (Hin : 2%nat ∈ wait_mutex_threads me) by (rewrite Hwaiters; left).
    assert (Hwaits : mutex_wait_address th ≠ 0) by (rewrite Haddress; discriminate).
    destruct (proj2 (ThreadWakeupCallback_ends_mutex_wait sample_env waiting_for_mutex
                       3 0 2%nat 1%nat th me Hclosed Htable Hth Hme
                       (or_introl Hwaits)
                       ltac:(rewrite Hstatus; discriminate)
                       ltac:(rewrite Hstatus; discriminate)
                       ltac:(rewrite Hstatus; discriminate))
                Hstatus Howner Hin Harb Hobjects)
      as (k1 & _ & _ & Hafter).
    assert (Hcomputed : ∃ kc, ThreadWakeupCallback sample_env waiting_for_mutex 3 0 = Ok kc ∧
              priorities kc = [(2%nat, (10, 10)); (1%nat, (20, 20)); (0%nat, (30, 20))])
      by (vm_compute; eexists; split; reflexivity).
    destruct Hcomputed as (k' & Hrun & Hpriorities).
    destruct (Hafter k' Hrun) as (th' & me' & Hth' & Hme' & Hready & _ & _ & _ & _ & Hleft & _).
    exists k'. split; [exact Hrun|]. split; [by rewrite Hth', <- Hready|].
    split; [|exact Hpriorities].
    rewrite Hme'. cbn [fmap option_fmap option_map]. rewrite Hleft, Hwaiters.
    reflexivity.
Defined.

(** ** A thread as a wait object *)

(** X21.  A thread can be acquired once it has been stopped, and not before:
    [Acquire] stops at its assertion for every thread that is not Dead, and
    after a [Stop] that returns, where waking the threads that wait on this
    one leaves its status alone, [ShouldWait] is false and [Acquire]
    returns. *)
Theorem Acquire_after_Stop (E : Env) (k : Kernel) (this : ThreadRef) (th : Thread)
    (k' : Kernel) :
  threads k !! this = Some th →
  (∀ k1 k2, WakeupAllWaitingThreads E this k1 = Ok k2 →
            status <$> threads k2 !! this = status <$> threads k1 !! this) →
  Stop E k this = Ok k' →
  (status th ≠ Dead →
   ShouldWait th = true ∧ Acquire th = Aborted (AssertionFailed "object unavailable!")) ∧
  ∃ th', threads k' !! this = Some th' ∧ ShouldWait th' = false ∧ Acquire th' = Ok ().
Proof.
  intros Hth Hwaker Hrun. split.
  { intros Hstatus. unfold Acquire, ShouldWait.
    by rewrite (bool_decide_eq_false_2 _ Hstatus). }
  destruct (Stop_returns E k this k' Hrun)
    as (th0 & k1 & k2 & th2 & pages & page & _ & Hwake & Hth1 & Hth2 & Hthreads & _).
  exists (set_wait_objects [] th2).
  split; [rewrite Hthreads; apply lookup_insert_eq|].
  specialize (Hwaker k1 k2 Hwake). rewrite Hth1, Hth2 in Hwaker.
  injection Hwaker as Hdead. unfold Acquire, ShouldWait. simpl. by rewrite Hdead.
Qed.

Lemma Acquire_after_Stop_witness :
  ∃ th th',
    threads (state_of (spawn boot "A" 44 0)) !! 0%nat = Some th ∧
    threads (state_of stopped_once) !! 0%nat = Some th' ∧
    Acquire th = Aborted (AssertionFailed "object unavailable!") ∧
    Acquire th' = Ok ().
Proof.
  assert (Hthread : ∃ th, threads (state_of (spawn boot "A" 44 0)) !! 0%nat = Some th ∧
            status th = Dormant)
    by (vm_compute; eexists; split; reflexivity).
  destruct Hthread as (th & Hth & Hstatus).
  assert (Hrun : Stop sample_env (state_of (spawn boot "A" 44 0)) 0%nat
                 = Ok (state_of stopped_once))
    by (vm_compute; reflexivity).
  destruct (Acquire_after_Stop sample_env _ 0%nat th _ Hth
              ltac:(intros k1 k2 [= <-]; reflexivity) Hrun)
    as (Hbefore & th' & Hth' & _ & Hafter).
  exists th, th'. split; [exact Hth|]. split; [exact Hth'|].
  split; [|exact Hafter]. apply Hbefore. rewrite Hstatus. discriminate.
Defined.

(** ** Timed wakeup of a thread that waits on objects *)

(** On a machine of at most four cores, [ResumeFromWait] of a thread that
    waits or is dormant returns when the core of the thread and its ideal
    core, if it has one, are cores of the machine. *)
Lemma ResumeFromWait_returns (E : Env) (k : Kernel) (this : ThreadRef) (th : Thread) :
  threads k !! this = Some th →
  wait_objects th = [] →
  is_waiting (status th) = true ∨ status th = Dormant →
  NUM_CPU_CORES k <= 4 →
  0 <= processor_id th < NUM_CPU_CORES k →
  ideal_core th = -1 ∨ 0 <= ideal_core th < NUM_CPU_CORES k →
  ∃ core, 0 <= core < NUM_CPU_CORES k ∧
          ResumeFromWait E k this = Ok (resumed_on k this th core).
Proof.
  intros Hth Hobjects Hstatus Hcores Hprocessor Hideal.
  rewrite (ResumeFromWait_resumable E k this th Hth Hobjects Hstatus).
  unfold GetNextProcessorId.
  destruct (GetNextProcessorId_loop_spec k (affinity_mask th) (length (cpu_cores k)) 0)
    as (free & -> & Hfree); [lia..|].
  cbn [mbind result_bind].
  assert (Hdefault : 0 <= default (processor_id th) free < NUM_CPU_CORES k).
  { destruct free as [found|]; [|done]. unfold NUM_CPU_CORES. simpl. lia. }
  assert (Hplaced : ∀ core, 0 <= core < NUM_CPU_CORES k →
            (_ ← ASSERT (core <? 4) "*new_processor_id < 4";
             _ ← Scheduler k core;
             Ok (resumed_on k this th core)) = Ok (resumed_on k this th core)).
  { intros core Hcore. destruct (Z.ltb_spec core 4); [|lia].
    cbn [ASSERT mbind result_bind]. by rewrite Scheduler_in_range. }
  destruct (Z.eqb_spec (ideal_core th) (-1)) as [Hnone|Hsome]; cbn [negb].
  - cbn [mbind result_bind]. eauto.
  - destruct Hideal as [|Hideal]; [done|].
    destruct (cpu_cores k !! Z.to_nat (ideal_core th)) as [current|] eqn:Hcurrent.
    + rewrite (Scheduler_GetCurrentThread_lookup k _ current) by (done || lia).
      cbn [mbind result_bind]. destruct current; eauto.
    + apply lookup_ge_None in Hcurrent. unfold NUM_CPU_CORES in Hideal. lia.
Qed.

(** C9.  When the timer fires for a thread in WaitSynchAny, WaitSynchAll or
    WaitHLEEvent, [RemoveWaitingThread] has been called on every object the
    thread waited on, in order, and [wait_objects] is empty in the state the
    wakeup callback is called in, with the reason Timeout.  After the
    address waits are cleared, [ResumeFromWait] is called when the callback
    answered true, or when there is no callback; when the callback answered
    false the call ends without it and the status of the thread is the one the
    callback left.  Where the callback, if any, leaves the thread waiting on
    no object and no address, on a core of a machine of at most four cores,
    the call returns, and the thread is Ready afterwards if and only if the
    callback answered true or there was none: it is then on the core
    [ResumeFromWait] chose, and otherwise the state is the one the callback
    left. *)
Theorem ThreadWakeupCallback_timeout_on_objects (E : Env) (k : Kernel)
    (thread_handle cycles_late : Z) (thread : ThreadRef) (th : Thread) :
  wakeup_callback_handle_table k !! to_u32 thread_handle = Some thread →
  threads k !! thread = Some th →
  status th = WaitSynchAny ∨ status th = WaitSynchAll ∨ status th = WaitHLEEvent →
  let k1 := deregistered k thread th in
  calls k1 = calls k
             ++ map (fun object => WaitObject_RemoveWaitingThread object thread)
                  (wait_objects th) ∧
  wait_objects <$> threads k1 !! thread = Some [] ∧
  ThreadWakeupCallback E k thread_handle cycles_late
  = ('(resume, k2) ←
       match wakeup_callback th with
       | Some callback => invoke_wakeup_callback E callback Timeout thread None 0 k1
       | None => Ok (true, k1)
       end;
     k3 ← clear_address_waits k2 thread;
     if (resume : bool) then ResumeFromWait E k3 thread else Ok k3) ∧
  (∀ callback k2 k3,
     wakeup_callback th = Some callback →
     invoke_wakeup_callback E callback Timeout thread None 0 k1 = Ok (false, k2) →
     ThreadWakeupCallback E k thread_handle cycles_late = Ok k3 →
     clear_address_waits k2 thread = Ok k3 ∧
     status <$> threads k3 !! thread = status <$> threads k2 !! thread) ∧
  ∀ (resume : bool) k2 th2,
    match wakeup_callback th with
    | Some callback => invoke_wakeup_callback E callback Timeout thread None 0 k1
    | None => Ok (true, k1)
    end = Ok (resume, k2) →
    threads k2 !! thread = Some th2 →
    wait_objects th2 = [] →
    is_waiting (status th2) = true ∨ status th2 = Dormant →
    mutex_wait_address th2 = 0 → condvar_wait_address th2 = 0 → wait_handle th2 = 0 →
    arb_wait_address th2 = 0 →
    NUM_CPU_CORES k2 <= 4 →
    0 <= processor_id th2 < NUM_CPU_CORES k2 →
    ideal_core th2 = -1 ∨ 0 <= ideal_core th2 < NUM_CPU_CORES k2 →
    ∃ k3,
      ThreadWakeupCallback E k thread_handle cycles_late = Ok k3 ∧
      (status <$> threads k3 !! thread = Some Ready ↔ resume = true) ∧
      (resume = true →
       ∃ core, 0 <= core < NUM_CPU_CORES k2 ∧ k3 = resumed_on k2 thread th2 core) ∧
      (resume = false → k3 = k2).
Proof.
  intros Htable Hth Hstatus k1.
  assert (Heq : ThreadWakeupCallback E k thread_handle cycles_late
    = ('(resume, k2) ←
         match wakeup_callback th with
         | Some callback => invoke_wakeup_callback E callback Timeout thread None 0 k1
         | None => Ok (true, k1)
         end;
       k3 ← clear_address_waits k2 thread;
       if (resume : bool) then ResumeFromWait E k3 thread else Ok k3)).
  { unfold ThreadWakeupCallback. rewrite Htable, (thread_at_lookup _ _ _ Hth). simpl.
    assert (bool_decide (status th = WaitSynchAny) || bool_decide (status th = WaitSynchAll)
            || bool_decide (status th = WaitHLEEvent) = true) as ->.
    { destruct Hstatus as [-> | [-> | ->]]; reflexivity. }
    unfold k1, deregistered.
    destruct (match wakeup_callback th with Some _ => _ | None => _ end)
      as [[resume k2]|]; simpl; [|done].
    unfold clear_address_waits.
    destruct (thread_at k2 thread) as [th2|]; simpl; [|done].
    destruct (if _ || _ then _ else _) as [k3|]; simpl; [|done].
    destruct (thread_at k3 thread) as [th3|]; simpl; [|done].
    destruct (negb (arb_wait_address th3 =? 0)); simpl; [|done].
    destruct (ASSERT _ _); simpl; done. }
  split; [apply calls_foldl_call|]. split.
  { unfold k1, deregistered. rewrite lookup_assign_eq, threads_foldl_call, Hth. done. }
  split; [exact Heq|]. split.
  { intros callback k2 k3 Hcallback Hveto Hrun.
    rewrite Heq, Hcallback, Hveto in Hrun. simpl in Hrun.
    apply bind_Ok in Hrun as (k3' & Hclear & [= <-]).
    split; [done|]. by apply (clear_address_waits_status k2 thread). }
  intros resume k2 th2 Hcalled Hth2 Hobjects Hwaits Hmutex Hcondvar Hhandle Harb
    Hcores Hprocessor Hideal.
  rewrite Heq, Hcalled. cbn [mbind result_bind].
  rewrite (clear_address_waits_none k2 thread th2) by done. cbn [mbind result_bind].
  destruct resume.
  - destruct (ResumeFromWait_returns E k2 thread th2 Hth2 Hobjects Hwaits Hcores
                Hprocessor Hideal) as (core & Hcore & Hrun).
    exists (resumed_on k2 thread th2 core). split; [exact Hrun|]. split; [|split].
    + unfold resumed_on.
      change (threads (set_calls ?c (set_threads ?m ?x))) with m.
      by rewrite lookup_insert_eq.
    + eauto.
    + discriminate.
  - exists k2. split; [reflexivity|]. split; [|split; [discriminate | done]].
    rewrite Hth2. split; [|discriminate].
    intros [= Hready]. rewrite Hready in Hwaits. by destruct Hwaits.
Qed.

Lemma ThreadWakeupCallback_timeout_on_objects_witness :
  (∃ k3,
     ThreadWakeupCallback sample_env (waiting_on_objects 2) 1 0 = Ok k3 ∧
     status <$> threads k3 !! 0%nat = Some WaitSynchAny ∧
     wait_objects <$> threads k3 !! 0%nat = Some [] ∧
     calls k3 = calls (waiting_on_objects 2)
                ++ [WaitObject_RemoveWaitingThread 5 0; WaitObject_RemoveWaitingThread 6 0]) ∧
  (∃ k3,
     ThreadWakeupCallback sample_env (waiting_on_objects 1) 1 0 = Ok k3 ∧
     status <$> threads k3 !! 0%nat = Some Ready) ∧
  (∃ k3,
     ThreadWakeupCallback sample_env
       (assign 0%nat (set_wakeup_callback None) (waiting_on_objects 1)) 1 0 = Ok k3 ∧
     status <$> threads k3 !! 0%nat = Some Ready).
Proof.
  assert (Hcase : ∀ (K : Kernel) (th : Thread) (resume : bool),
    wakeup_callback_handle_table K !! to_u32 1 = Some 0%nat →
    threads K !! 0%nat = Some th →
    NUM_CPU_CORES K = 4 →
    status th = WaitSynchAny ∧ wait_objects th = [5%nat; 6%nat] ∧
    mutex_wait_address th = 0 ∧ condvar_wait_address th = 0 ∧ wait_handle th = 0 ∧
    arb_wait_address th = 0 ∧ processor_id th = 0 ∧ ideal_core th = 0 →
    match wakeup_callback th with Some c => Nat.odd c | None => true end = resume →
    ∃ k3,
      ThreadWakeupCallback sample_env K 1 0 = Ok k3 ∧
      (status <$> threads k3 !! 0%nat = Some Ready ↔ resume = true) ∧
      (resume = false →
       status <$> threads k3 !! 0%nat = Some WaitSynchAny ∧
       wait_objects <$> threads k3 !! 0%nat = Some [] ∧
       calls k3 = calls K ++ [WaitObject_RemoveWaitingThread 5 0;
                              WaitObject_RemoveWaitingThread 6 0])).
  { intros K th resume Htable Hth Hcores
      (Hstatus & Hobjects & Hmutex & Hcondvar & Hhandle & Harb & Hprocessor & Hideal)
      Hresume.
    destruct (ThreadWakeupCallback_timeout_on_objects sample_env K 1 0 0%nat th
                Htable Hth (or_introl Hstatus))
      as (Hcalls & Hempty & _ & _ & Hdecides).
    assert (Hth1 : threads (deregistered K 0%nat th) !! 0%nat
                   = Some (set_wait_objects [] th)).
    { unfold deregistered. by rewrite lookup_assign_eq, threads_foldl_call, Hth. }
    assert (Hcores1 : NUM_CPU_CORES (deregistered K 0%nat th) = 4).
    { rewrite <- Hcores. unfold deregistered, NUM_CPU_CORES. by rewrite Hobjects. }
    destruct (Hdecides resume (deregistered K 0%nat th) (set_wait_objects [] th))
      as (k3 & Hrun & Hiff & _ & Hveto).
    - rewrite <- Hresume. by destruct (wakeup_callback th).
    - exact Hth1.
    - reflexivity.
    - left. change (is_waiting (status th) = true). by rewrite Hstatus.
    - exact Hmutex.
    - exact Hcondvar.
    - exact Hhandle.
    - exact Harb.
    - rewrite Hcores1. lia.
    - rewrite Hcores1. change (0 <= processor_id th < 4). rewrite Hprocessor. lia.
    - right. rewrite Hcores1. change (0 <= ideal_core th < 4). rewrite Hideal. lia.
    - exists k3. split; [exact Hrun|]. split; [exact Hiff|].
      intros Hfalse. rewrite (Hveto Hfalse), Hth1.
      split; [by rewrite <- Hstatus|]. split; [reflexivity|].
      rewrite Hcalls, Hobjects. reflexivity. }
  assert (Hthread : ∀ callback, ∃ th,
            threads (assign 0%nat (set_wakeup_callback callback) (waiting_on_objects 1))
              !! 0%nat = Some th ∧
            wakeup_callback th = callback ∧
            status th = WaitSynchAny ∧ wait_objects th = [5%nat; 6%nat] ∧
            mutex_wait_address th = 0 ∧ condvar_wait_address th = 0 ∧ wait_handle th = 0 ∧
            arb_wait_address th = 0 ∧ processor_id th = 0 ∧ ideal_core th = 0)
    by (intros callback; vm_compute; eexists; repeat split; reflexivity).
  assert (Hsame : ∀ callback,
            assign 0%nat (set_wakeup_callback (Some callback)) (waiting_on_objects 1)
            = waiting_on_objects callback)
    by (intros callback; vm_compute; reflexivity).
  assert (Htable : ∀ callback,
            wakeup_callback_handle_table
              (assign 0%nat (set_wakeup_callback callback) (waiting_on_objects 1))
              !! to_u32 1 = Some 0%nat)
    by (intros callback; vm_compute; reflexivity).
  assert (Hcores : ∀ callback,
            NUM_CPU_CORES
              (assign 0%nat (set_wakeup_callback callback) (waiting_on_objects 1)) = 4)
    by (intros callback; vm_compute; reflexivity).
  split; [|split].
  - destruct (Hthread (Some 2%nat)) as (th & Hth & Hcallback & Hfacts).
    destruct (Hcase _ th false (Htable _) Hth (Hcores _) Hfacts) as (k3 & Hrun & _ & Hveto).
    { by rewrite Hcallback. }
    rewrite Hsame in Hrun. exists k3. split; [exact Hrun|].
    rewrite <- (Hsame 2%nat). exact (Hveto eq_refl).
  - destruct (Hthread (Some 1%nat)) as (th & Hth & Hcallback & Hfacts).
    destruct (Hcase _ th true (Htable _) Hth (Hcores _) Hfacts) as (k3 & Hrun & Hiff & _).
    { by rewrite Hcallback. }
    rewrite Hsame in Hrun. exists k3. split; [exact Hrun|]. by apply Hiff.
  - destruct (Hthread None) as (th & Hth & Hcallback & Hfacts).
    destruct (Hcase _ th true (Htable _) Hth (Hcores _) Hfacts) as (k3 & Hrun & Hiff & _).
    { by rewrite Hcallback. }
    exists k3. split; [exact Hrun|]. by apply Hiff.
Defined.
